(** * WebRTC Intercom: the signalling server

    A shallow embedding of the directory and long-poll engine of the
    signalling server, in the three versions the repository carries:

    - [Server]          follows [server.js], the server the README starts;
    - [IntercomServer]  follows [intercom_server.js], the earliest version;
    - [LoaderServer]    follows the third copy, which stands between them.

    Every route handler is translated statement by statement into a small
    state-and-exception monad over a [world]: the global [users_] object and
    the list of HTTP responses written so far.

    [server.js] is followed twice. [Server] reads [users_] and
    [connection.query] as maps of their own properties. [Plain] reads them
    as the JavaScript objects they are: [users_[id]] also finds what
    [users_] inherits ([constructor], [toString], [__proto__], ...), and a
    key named [hasOwnProperty] hides the method of that name. The two
    readings do the same on every request whose ids and parameters name no
    inherited property, which is proved below; the theorems about [Server]
    that depend on it say so in their hypotheses ([ordinary], no user under
    the id [hasOwnProperty]).

    Modelling decisions, all stated here once:
    - a request is handled to completion before the next one starts (every
      [await] in the handlers waits on a promise that is already settled);
    - query parameters are strings (repeated parameters, which Node parses
      to arrays, are not modelled);
    - a [TypeError] is one error, whatever its message, which is the
      engine's; the 500 that answers it is [Plain.ServerError];
    - the rejection of a promise that nobody awaits is dropped and the
      server goes on (a Node that ends the process on it serves no further
      request);
    - strings are byte strings; [trim] and [toUpperCase] act on ASCII, and
      the length of a request body is counted on ASCII bodies, where bytes
      and UTF-16 units are the same;
    - [uuidv4] draws from [Math.random]; the draw is an input of the request;
    - console output ([debugLog], [console.error]) is not part of the state;
    - the ['close'] event of a parked response is not one of the operations
      modelled. *)

From Stdlib Require Import List String Ascii Bool ZArith NArith Lia.
From Stdlib Require Import Sorted Permutation.
Import ListNotations.

Local Open Scope string_scope.
Local Open Scope list_scope.

(** ** JavaScript strings *)

Module Js.

(** [!!s] for a string value. *)
Definition truthy (s : string) : bool := negb (s =? EmptyString).

(** [!!v] for a value that is a string or [undefined]. *)
Definition truthy_opt (v : option string) : bool :=
  match v with
  | Some s => truthy s
  | None => false
  end.

Definition is_space (c : ascii) : bool :=
  let n := nat_of_ascii c in
  ((9 <=? n)%nat && (n <=? 13)%nat) || (n =? 32)%nat.

Fixpoint trimStart (s : string) : string :=
  match s with
  | String c s' => if is_space c then trimStart s' else s
  | EmptyString => EmptyString
  end.

Definition reverse (s : string) : string :=
  string_of_list_ascii (rev (list_ascii_of_string s)).

(** [String.prototype.trim]. *)
Definition trim (s : string) : string :=
  reverse (trimStart (reverse (trimStart s))).

Definition upper (c : ascii) : ascii :=
  let n := nat_of_ascii c in
  if ((97 <=? n)%nat && (n <=? 122)%nat)%bool then ascii_of_nat (n - 32) else c.

(** [String.prototype.toUpperCase]. *)
Fixpoint toUpperCase (s : string) : string :=
  match s with
  | String c s' => String (upper c) (toUpperCase s')
  | EmptyString => EmptyString
  end.

End Js.

(** ** JavaScript objects used as maps

    An object is the list of its own properties in the order [for ... in]
    and [Object.keys] visit them: the keys that are array indices first, by
    ascending value, then the other keys in the order they were created. *)

Module Obj.

Definition t (V : Type) : Type := list (string * V).

Definition is_digit (c : ascii) : bool :=
  let n := nat_of_ascii c in ((48 <=? n)%nat && (n <=? 57)%nat)%bool.

Fixpoint digits (acc : N) (s : string) : option N :=
  match s with
  | EmptyString => Some acc
  | String c s' =>
      if is_digit c
      then digits (10 * acc + (N_of_ascii c - 48))%N s'
      else None
  end.

(** The keys that are canonical array indices: "0", or a decimal numeral
    without leading zero, up to 2^32 - 2. *)
Definition array_index (k : string) : option N :=
  match k with
  | EmptyString => None
  | String c s' =>
      if (c =? "0")%char
      then (if s' =? EmptyString then Some 0%N else None)
      else match digits 0%N k with
           | Some n => if (n <? 4294967295)%N then Some n else None
           | None => None
           end
  end.

Section Ops.
Context {V : Type}.

(** [o[k]] *)
Fixpoint get (k : string) (o : t V) : option V :=
  match o with
  | [] => None
  | (k', v) :: o' => if k' =? k then Some v else get k o'
  end.

(** [o.hasOwnProperty(k)] *)
Definition has (k : string) (o : t V) : bool :=
  match get k o with Some _ => true | None => false end.

(** [Object.keys(o)] *)
Definition keys (o : t V) : list string := map fst o.

Definition values (o : t V) : list V := map snd o.

(** In-place mutation of the value stored under [k]. *)
Fixpoint modify (k : string) (f : V -> V) (o : t V) : t V :=
  match o with
  | [] => []
  | (k', v) :: o' =>
      if k' =? k then (k', f v) :: o' else (k', v) :: modify k f o'
  end.

(** Where a fresh array-index key goes. *)
Fixpoint insert_index (n : N) (k : string) (v : V) (o : t V) : t V :=
  match o with
  | [] => [(k, v)]
  | (k', v') :: o' =>
      match array_index k' with
      | Some n' =>
          if (n' <? n)%N then (k', v') :: insert_index n k v o'
          else (k, v) :: o
      | None => (k, v) :: o
      end
  end.

(** [o[k] = v] *)
Definition set (k : string) (v : V) (o : t V) : t V :=
  if has k o then modify k (fun _ => v) o
  else match array_index k with
       | Some n => insert_index n k v o
       | None => o ++ [(k, v)]
       end.

(** [delete o[k]] *)
Fixpoint delete (k : string) (o : t V) : t V :=
  match o with
  | [] => []
  | (k', v) :: o' =>
      if k' =? k then o' else (k', v) :: delete k o'
  end.

End Ops.

End Obj.

(** ** Data *)

(** [{ name }] or [{ name, old_name }] *)
Record publicUser : Type := mkPublicUser {
  pub_name : string;
  pub_old_name : option string
}.

(** [{ id, name }] or [{ id, name, old_name }] *)
Record privateUser : Type := mkPrivateUser {
  priv_id : string;
  priv_name : string;
  priv_old_name : option string
}.

(** The payloads that travel through a user's queue. *)
Inductive message : Type :=
| RegisterMsg (register : publicUser) (users : list publicUser)
    (* { register, users } *)
| UnregisterMsg (unregister : publicUser) (users : list publicUser)
    (* { unregister, users } *)
| OfferMsg (offer name : string)            (* { offer, name } *)
| AnswerMsg (answer name : string)          (* { answer, name } *)
| RejectMsg (name : string).                (* { reject: { name } } *)

(** What [writeJsonResponse] and [writeErrorResponse] put on a response. *)
Inductive reply : Type :=
| Empty                                     (* writeJsonResponse(response) *)
| Registered (register : privateUser) (users : list publicUser)
| Messages (messages : list message)        (* { messages } *)
| Failure (code : Z) (description : string).

Module Connection.
(** [{ time, response, query }]; [response] is the identity of the response
    object, [uuid] the string [uuidv4()] returns during this request. *)
Record t : Type := mk {
  time : Z;
  response : nat;
  query : Obj.t string;
  uuid : string
}.
End Connection.

Module User.
(** [{ id, name, time, queue, connection }] *)
Record t : Type := mk {
  id : string;
  name : string;
  time : Z;
  queue : list message;
  connection : option Connection.t
}.

(** [user.queue = q] (also [user.queue.push(..)], [user.queue.length = 0]) *)
Definition set_queue (q : list message) (user : t) : t :=
  mk (id user) (name user) (time user) q (connection user).

(** [user.connection = c] *)
Definition set_connection (c : option Connection.t) (user : t) : t :=
  mk (id user) (name user) (time user) (queue user) c.

(** [Object.assign({}, user, { name, time })] *)
Definition assign (user : t) (name : string) (time : Z) : t :=
  mk (id user) name time (queue user) (connection user).
End User.

(** [new Error(message)], with the [code] property [errorWithCode] adds. *)
Record error : Type := mkError {
  code : option Z;
  message_of : string
}.

Definition errorWithCode (c : Z) (m : string) : error := mkError (Some c) m.
Definition Error (m : string) : error := mkError None m.

(** ** The handler monad *)

Record world : Type := mkWorld {
  users_ : Obj.t User.t;
  written : list (nat * reply)
}.

Definition empty_world : world := mkWorld [] [].

Inductive outcome (A : Type) : Type :=
| Ok (a : A)
| Thrown (e : error).
Arguments Ok {A} a.
Arguments Thrown {A} e.

Definition M (A : Type) : Type := world -> outcome A * world.

Definition ret {A} (a : A) : M A := fun w => (Ok a, w).

Definition bind {A B} (m : M A) (f : A -> M B) : M B :=
  fun w =>
    match m w with
    | (Ok a, w') => f a w'
    | (Thrown e, w') => (Thrown e, w')
    end.

Definition throw {A} (e : error) : M A := fun w => (Thrown e, w).

(** [m.catch(h)] *)
Definition catch {A} (m : M A) (h : error -> M A) : M A :=
  fun w =>
    match m w with
    | (Ok a, w') => (Ok a, w')
    | (Thrown e, w') => h e w'
    end.

Notation "x <- m ;; k" := (bind m (fun x => k))
  (at level 61, m at next level, right associativity).
Notation "m ;; k" := (bind m (fun _ => k))
  (at level 61, right associativity).

Definition get_users : M (Obj.t User.t) := fun w => (Ok (users_ w), w).

Definition put_users (o : Obj.t User.t) : M unit :=
  fun w => (Ok tt, mkWorld o (written w)).

Definition write (response : nat) (r : reply) : M unit :=
  fun w => (Ok tt, mkWorld (users_ w) (written w ++ [(response, r)])).

Definition when (b : bool) (m : M unit) : M unit := if b then m else ret tt.

Fixpoint mapM {A B} (f : A -> M B) (l : list A) : M (list B) :=
  match l with
  | [] => ret []
  | a :: l' => b <- f a ;; bs <- mapM f l' ;; ret (b :: bs)
  end.

(** A [for] loop whose body may leave the enclosing function: the body
    answers [true] to go on and [false] for [return]. *)
Fixpoint forEach {A} (l : list A) (body : A -> M bool) : M unit :=
  match l with
  | [] => ret tt
  | a :: l' => go <- body a ;; if go then forEach l' body else ret tt
  end.

Definition exec {A} (m : M A) (w : world) : world := snd (m w).
Definition result {A} (m : M A) (w : world) : outcome A := fst (m w).

(** ** Code shared by the versions *)

Definition writeJsonResponse (response : nat) (obj : option reply) : M unit :=
  write response (match obj with Some r => r | None => Empty end).

Definition writeErrorResponse (response : nat) (c : Z) (description : string)
  : M unit :=
  write response (Failure c description).

Definition console_error (e : error) : M unit := ret tt.

Definition uuidv4 (connection : Connection.t) : M string :=
  ret (Connection.uuid connection).

Definition generatePublicUser (user_id : string) : M publicUser :=
  users <- get_users ;;
  match Obj.get user_id users with
  | None => throw (errorWithCode 400 "user not found")
  | Some user => ret (mkPublicUser (User.name user) None)
  end.

Definition generatePublicUsers (user_ids : list string) : M (list publicUser) :=
  mapM generatePublicUser user_ids.

(** The comparator of [sortUsersByName]: [a] may stay in front of [b]. *)
Definition name_le (a b : publicUser) : bool :=
  String.leb (Js.toUpperCase (pub_name a)) (Js.toUpperCase (pub_name b)).

Fixpoint insert_sorted (a : publicUser) (l : list publicUser) : list publicUser :=
  match l with
  | [] => [a]
  | b :: l' => if name_le a b then a :: l else b :: insert_sorted a l'
  end.

(** [Array.prototype.sort] is stable; with this comparator it is the stable
    insertion sort. *)
Definition sortUsersByName (users : list publicUser) : list publicUser :=
  fold_right insert_sorted [] users.

Definition findUserByName (name : string) : M (option User.t) :=
  users <- get_users ;;
  ret (option_map snd
         (find (fun kv => User.name (snd kv) =? name) users)).

Definition enqueueMessage (user_id : string) (data : message) : M unit :=
  users <- get_users ;;
  match Obj.get user_id users with
  | None => throw (Error "enqueueMessage: unknown user")
  | Some _ =>
      put_users (Obj.modify user_id
        (fun user => User.set_queue (User.queue user ++ [data]) user) users)
  end.

Definition sendQueue (user_id : string) : M unit :=
  users <- get_users ;;
  match Obj.get user_id users with
  | None => throw (Error "sendQueue: unknown user")
  | Some user =>
      match User.connection user, User.queue user with
      | Some connection, _ :: _ =>
          writeJsonResponse (Connection.response connection)
            (Some (Messages (User.queue user))) ;;
          put_users (Obj.modify user_id
            (fun user => User.set_connection None (User.set_queue [] user))
            users)
      | _, _ => ret tt
      end
  end.

Definition sendMessage (user_id : string) (data : message) : M unit :=
  catch (enqueueMessage user_id data ;; sendQueue user_id) console_error.

(** [let { key } = connection.query; if (!key) throw errorWithCode(400, msg)] *)
Definition required (v : option string) (msg : string) : M string :=
  match v with
  | Some s => if Js.truthy s then ret s else throw (errorWithCode 400 msg)
  | None => throw (errorWithCode 400 msg)
  end.

(** [users_[id] = user] *)
Definition assign_user (id : string) (user : User.t) : M unit :=
  users <- get_users ;; put_users (Obj.set id user users).

(** [delete users_[id]] *)
Definition delete_user (id : string) : M unit :=
  users <- get_users ;; put_users (Obj.delete id users).

(** [if (user.connection) writeJsonResponse(user.connection.response)] *)
Definition release (user : User.t) : M unit :=
  match User.connection user with
  | Some connection => writeJsonResponse (Connection.response connection) None
  | None => ret tt
  end.

(** The signalling routes relay one payload from [id] to the user called
    [name]; [offerRoute], [answerRoute] and [rejectRoute] differ in the
    parameters they require and in the payload. *)
Definition relay (id name : string) (payload : string -> message) : M unit :=
  users <- get_users ;;
  match Obj.get id users with
  | None => throw (errorWithCode 400 "user id not found")
  | Some fromUser =>
      toUser <- findUserByName name ;;
      match toUser with
      | None => throw (errorWithCode 400 "user name not found")
      | Some toUser => sendMessage (User.id toUser) (payload (User.name fromUser))
      end
  end.

Definition offerRoute (connection : Connection.t) : M unit :=
  let query := Connection.query connection in
  id <- required (Obj.get "id" query) "user id required" ;;
  offer <- required (Obj.get "offer" query) "offer required" ;;
  name <- required (Obj.get "name" query) "user name required" ;;
  relay id name (fun from => OfferMsg offer from) ;;
  writeJsonResponse (Connection.response connection) None.

Definition answerRoute (connection : Connection.t) : M unit :=
  let query := Connection.query connection in
  id <- required (Obj.get "id" query) "user id required" ;;
  answer <- required (Obj.get "answer" query) "answer required" ;;
  name <- required (Obj.get "name" query) "user name required" ;;
  relay id name (fun from => AnswerMsg answer from) ;;
  writeJsonResponse (Connection.response connection) None.

Definition rejectRoute (connection : Connection.t) : M unit :=
  let query := Connection.query connection in
  id <- required (Obj.get "id" query) "user id required" ;;
  name <- required (Obj.get "reject" query) "user name required" ;;
  relay id name (fun from => RejectMsg from) ;;
  writeJsonResponse (Connection.response connection) None.

(** [for (let key in dataRoutes_) if (connection.query.hasOwnProperty(key))
      return await dataRoutes_[key](connection)
    throw errorWithCode(400, "unknown request parameters")] *)
Fixpoint dispatch (routes : list (string * (Connection.t -> M unit)))
  (connection : Connection.t) : M unit :=
  match routes with
  | [] => throw (errorWithCode 400 "unknown request parameters")
  | (key, route) :: routes' =>
      if Obj.has key (Connection.query connection)
      then route connection
      else dispatch routes' connection
  end.

(** [routeRequest(request, response).catch(error =>
       writeErrorResponse(response, error.code || 500, error.message))] *)
Definition handle (route : Connection.t -> M unit) (connection : Connection.t)
  : M unit :=
  catch (route connection)
    (fun error =>
       writeErrorResponse (Connection.response connection)
         (match code error with
          | Some c => if (c =? 0)%Z then 500%Z else c
          | None => 500%Z
          end)
         (message_of error)).

(** ** [server.js] *)

Module Server.

Definition sendMessageToAll (data : message) (exclude_user_id : option string)
  : M unit :=
  users <- get_users ;;
  forEach (Obj.keys users) (fun user_id =>
    users <- get_users ;;
    if Obj.has user_id users then
      match exclude_user_id with
      | Some ex =>
          if user_id =? ex then ret true          (* continue *)
          else sendMessage user_id data ;; ret true
      | None => sendMessage user_id data ;; ret true
      end
    else ret true).

Definition registerRoute (connection : Connection.t) : M unit :=
  let query := Connection.query connection in
  name <- required (option_map Js.trim (Obj.get "register" query))
            "user name required" ;;
  id <- match Obj.get "id" query with
        | Some id => if Js.truthy id then ret id else uuidv4 connection
        | None => uuidv4 connection
        end ;;
  let time := Connection.time connection in
  users <- get_users ;;
  let user := Obj.get id users in
  if existsb (fun kv => (User.name (snd kv) =? name) && negb (id =? fst kv))
       users
  then throw (errorWithCode 400 "user name already in use")
  else
    let old_name := match user with
                    | Some user => Some (User.name user)
                    | None => None
                    end in
    let user := match user with
                | Some user => User.assign user name time
                | None => User.mk id name time [] None
                end in
    let shown_old_name := if Js.truthy_opt old_name then old_name else None in
    let privateUser := mkPrivateUser id name shown_old_name in
    let publicUser := mkPublicUser name shown_old_name in
    let otherUserIds :=
      filter (fun user_id => negb (id =? user_id)) (Obj.keys users) in
    others <- generatePublicUsers otherUserIds ;;
    let publicUsers := sortUsersByName (others ++ [publicUser]) in
    writeJsonResponse (Connection.response connection)
      (Some (Registered privateUser publicUsers)) ;;
    assign_user id user ;;
    when (negb (Js.truthy_opt old_name)
          || negb (match old_name with
                   | Some old => old =? name
                   | None => false
                   end))
      (sendMessageToAll (RegisterMsg publicUser publicUsers) (Some id)).

Definition unregisterRoute (connection : Connection.t) : M unit :=
  let query := Connection.query connection in
  id <- required (Obj.get "unregister" query) "user id required" ;;
  users <- get_users ;;
  match Obj.get id users with
  | Some user =>
      unregister <- generatePublicUser id ;;
      delete_user id ;;
      users <- get_users ;;
      all <- generatePublicUsers (Obj.keys users) ;;
      release user ;;
      sendMessageToAll (UnregisterMsg unregister all) (Some id)
  | None => ret tt
  end ;;
  writeJsonResponse (Connection.response connection) None.

Definition waitRoute (connection : Connection.t) : M unit :=
  let query := Connection.query connection in
  id <- required (Obj.get "wait" query) "user id required" ;;
  users <- get_users ;;
  match Obj.get id users with
  | None => throw (errorWithCode 400 "user not found")
  | Some user =>
      match User.queue user with
      | _ :: _ =>
          writeJsonResponse (Connection.response connection)
            (Some (Messages (User.queue user))) ;;
          put_users (Obj.modify id (User.set_queue []) users)
      | [] =>
          release user ;;
          put_users (Obj.modify id (User.set_connection (Some connection))
                       users)
      end
  end.

Definition dataRoutes_ : list (string * (Connection.t -> M unit)) :=
  [ ("register", registerRoute);
    ("unregister", unregisterRoute);
    ("offer", offerRoute);
    ("answer", answerRoute);
    ("reject", rejectRoute);
    ("wait", waitRoute) ].

Definition rootRoute : Connection.t -> M unit := dispatch dataRoutes_.

Definition serverHandler : Connection.t -> M unit := handle rootRoute.

(** The worlds the server can be in: it starts empty and serves requests. *)
Inductive reachable : world -> Prop :=
| reachable_start : reachable empty_world
| reachable_serve w connection :
    reachable w -> reachable (exec (serverHandler connection) w).

End Server.

(** ** [intercom_server.js] *)

Module IntercomServer.

Definition sendMessageToAll (data : message) (exclude_user_id : option string)
  : M unit :=
  users <- get_users ;;
  forEach (Obj.keys users) (fun user_id =>
    users <- get_users ;;
    if Obj.has user_id users then
      match exclude_user_id with
      | Some ex =>
          if user_id =? ex then ret false         (* return *)
          else sendMessage user_id data ;; ret true
      | None => sendMessage user_id data ;; ret true
      end
    else ret true).

Definition registerRoute (connection : Connection.t) : M unit :=
  let query := Connection.query connection in
  name <- required (option_map Js.trim (Obj.get "register" query))
            "user name required" ;;
  id <- match Obj.get "id" query with
        | Some id => if Js.truthy id then ret id else uuidv4 connection
        | None => uuidv4 connection
        end ;;
  let time := Connection.time connection in
  users <- get_users ;;
  user <- match Obj.get id users with
          | Some user => ret (User.assign user name time)
          | None =>
              if existsb (fun kv => User.name (snd kv) =? name) users
              then throw (errorWithCode 400 "user name already in use")
              else ret (User.mk id name time [] None)
          end ;;
  let privateUser := mkPrivateUser id name None in
  let publicUser := mkPublicUser name None in
  all <- generatePublicUsers (Obj.keys users) ;;
  let publicUsers := sortUsersByName (all ++ [publicUser]) in
  writeJsonResponse (Connection.response connection)
    (Some (Registered privateUser publicUsers)) ;;
  assign_user id user ;;
  sendMessageToAll (RegisterMsg publicUser publicUsers) (Some id).

Definition unregisterRoute (connection : Connection.t) : M unit :=
  let query := Connection.query connection in
  id <- required (Obj.get "unregister" query) "user id required" ;;
  users <- get_users ;;
  match Obj.get id users with
  | Some user =>
      unregister <- generatePublicUser id ;;
      delete_user id ;;
      users <- get_users ;;
      all <- generatePublicUsers (Obj.keys users) ;;
      release user ;;
      sendMessageToAll (UnregisterMsg unregister all) (Some id)
  | None => ret tt
  end ;;
  writeJsonResponse (Connection.response connection) None.

Definition waitRoute (connection : Connection.t) : M unit :=
  let query := Connection.query connection in
  id <- required (Obj.get "wait" query) "user id required" ;;
  users <- get_users ;;
  match Obj.get id users with
  | None => throw (errorWithCode 400 "user not found")
  | Some user =>
      match User.queue user with
      | _ :: _ =>
          writeJsonResponse (Connection.response connection)
            (Some (Messages (User.queue user))) ;;
          put_users (Obj.modify id (User.set_queue []) users)
      | [] =>
          put_users (Obj.modify id (User.set_connection (Some connection))
                       users)
      end
  end.

Definition dataRoutes_ : list (string * (Connection.t -> M unit)) :=
  [ ("register", registerRoute);
    ("unregister", unregisterRoute);
    ("offer", offerRoute);
    ("answer", answerRoute);
    ("wait", waitRoute) ].

Definition rootRoute : Connection.t -> M unit := dispatch dataRoutes_.

Definition serverHandler : Connection.t -> M unit := handle rootRoute.

End IntercomServer.

(** ** The version with the [/jsonLoader] route

    The third copy of the server in the repository (its file name is not
    known) stands between the two: it has [rejectRoute], [old_name] and the
    [waitRoute] of [server.js], and the name check and the broadcast loop
    of [intercom_server.js]. *)

Module LoaderServer.

Definition sendMessageToAll (data : message) (exclude_user_id : option string)
  : M unit :=
  users <- get_users ;;
  forEach (Obj.keys users) (fun user_id =>
    users <- get_users ;;
    if Obj.has user_id users then
      match exclude_user_id with
      | Some ex =>
          if user_id =? ex then ret false         (* return *)
          else sendMessage user_id data ;; ret true
      | None => sendMessage user_id data ;; ret true
      end
    else ret true).

Definition registerRoute (connection : Connection.t) : M unit :=
  let query := Connection.query connection in
  name <- required (option_map Js.trim (Obj.get "register" query))
            "user name required" ;;
  id <- match Obj.get "id" query with
        | Some id => if Js.truthy id then ret id else uuidv4 connection
        | None => uuidv4 connection
        end ;;
  let time := Connection.time connection in
  users <- get_users ;;
  let old_name := match Obj.get id users with
                  | Some user => Some (User.name user)
                  | None => None
                  end in
  user <- match Obj.get id users with
          | Some user => ret (User.assign user name time)
          | None =>
              if existsb (fun kv => User.name (snd kv) =? name) users
              then throw (errorWithCode 400 "user name already in use")
              else ret (User.mk id name time [] None)
          end ;;
  let shown_old_name := if Js.truthy_opt old_name then old_name else None in
  let privateUser := mkPrivateUser id name shown_old_name in
  let publicUser := mkPublicUser name shown_old_name in
  let otherUserIds :=
    filter (fun user_id => negb (id =? user_id)) (Obj.keys users) in
  others <- generatePublicUsers otherUserIds ;;
  let publicUsers := sortUsersByName (others ++ [publicUser]) in
  writeJsonResponse (Connection.response connection)
    (Some (Registered privateUser publicUsers)) ;;
  assign_user id user ;;
  when (negb (Js.truthy_opt old_name)
        || negb (match old_name with
                 | Some old => old =? name
                 | None => false
                 end))
    (sendMessageToAll (RegisterMsg publicUser publicUsers) (Some id)).

Definition unregisterRoute (connection : Connection.t) : M unit :=
  let query := Connection.query connection in
  id <- required (Obj.get "unregister" query) "user id required" ;;
  users <- get_users ;;
  match Obj.get id users with
  | Some user =>
      unregister <- generatePublicUser id ;;
      delete_user id ;;
      users <- get_users ;;
      all <- generatePublicUsers (Obj.keys users) ;;
      release user ;;
      sendMessageToAll (UnregisterMsg unregister all) (Some id)
  | None => ret tt
  end ;;
  writeJsonResponse (Connection.response connection) None.

(** The same text as in [server.js]. *)
Definition waitRoute : Connection.t -> M unit := Server.waitRoute.

Definition dataRoutes_ : list (string * (Connection.t -> M unit)) :=
  [ ("register", registerRoute);
    ("unregister", unregisterRoute);
    ("offer", offerRoute);
    ("answer", answerRoute);
    ("reject", rejectRoute);
    ("wait", waitRoute) ].

Definition rootRoute : Connection.t -> M unit := dispatch dataRoutes_.

Definition serverHandler : Connection.t -> M unit := handle rootRoute.

End LoaderServer.

(** ** Requests used in the examples *)

Definition request (response : nat) (uuid : string) (query : Obj.t string)
  : Connection.t :=
  Connection.mk (Z.of_nat response) response query uuid.

Definition serve (handler : Connection.t -> M unit)
  (requests : list Connection.t) (w : world) : world :=
  fold_left (fun w connection => exec (handler connection) w) requests w.

(** * The vocabulary of the statements *)

(** ** Delivery *)

(** A user after [sendMessage]: a parked response takes the whole queue,
    otherwise the payload waits in the queue. *)
Definition deliver (data : message) (user : User.t) : User.t :=
  match User.connection user with
  | Some _ => User.set_connection None (User.set_queue [] user)
  | None => User.set_queue (User.queue user ++ [data]) user
  end.

(** The response [sendMessage] writes for that user. *)
Definition delivery (data : message) (user : User.t) : list (nat * reply) :=
  match User.connection user with
  | Some connection =>
      [(Connection.response connection, Messages (User.queue user ++ [data]))]
  | None => []
  end.

(** [user_id === exclude_user_id] *)
Definition excluded (exclude : option string) (user_id : string) : bool :=
  match exclude with
  | Some ex => user_id =? ex
  | None => false
  end.

(** The registry after a broadcast that reaches every user but [exclude]. *)
Definition broadcast (data : message) (exclude : option string)
  (users : Obj.t User.t) : Obj.t User.t :=
  map (fun kv => if excluded exclude (fst kv) then kv
                 else (fst kv, deliver data (snd kv))) users.

(** The responses that broadcast writes, in the order of the registry. *)
Definition broadcast_replies (data : message) (exclude : option string)
  (users : Obj.t User.t) : list (nat * reply) :=
  flat_map (fun kv => if excluded exclude (fst kv) then []
                      else delivery data (snd kv)) users.

(** ** The public projection of a user *)

(** [{ name: user.name }] *)
Definition public (user : User.t) : publicUser :=
  mkPublicUser (User.name user) None.

(** What [generatePublicUser] answers for a registered id. *)
Definition public_at (users : Obj.t User.t) (user_id : string) : publicUser :=
  match Obj.get user_id users with
  | Some user => public user
  | None => mkPublicUser EmptyString None
  end.

(** ** A registration, read off the request and the registry *)

(** [name.trim()] *)
Definition register_name (connection : Connection.t) : option string :=
  option_map Js.trim (Obj.get "register" (Connection.query connection)).

(** [id || uuidv4()] *)
Definition register_id (connection : Connection.t) : string :=
  match Obj.get "id" (Connection.query connection) with
  | Some id => if Js.truthy id then id else Connection.uuid connection
  | None => Connection.uuid connection
  end.

(** Somebody with another id holds [name]. *)
Definition name_in_use (id name : string) (users : Obj.t User.t) : bool :=
  existsb (fun kv => (User.name (snd kv) =? name) && negb (id =? fst kv)) users.

Section Register.
Variables (connection : Connection.t) (name : string) (users : Obj.t User.t).

Let id : string := register_id connection.

(** The record stored under [id]. *)
Definition registered_record : User.t :=
  match Obj.get id users with
  | Some user => User.assign user name (Connection.time connection)
  | None => User.mk id name (Connection.time connection) [] None
  end.

(** [old_name], when it is set and not empty. *)
Definition register_old_name : option string :=
  match Obj.get id users with
  | Some user =>
      if Js.truthy (User.name user) then Some (User.name user) else None
  | None => None
  end.

(** [publicUser] *)
Definition register_self : publicUser :=
  mkPublicUser name register_old_name.

(** [publicUsers] *)
Definition register_listing : list publicUser :=
  sortUsersByName
    (map (fun kv => public (snd kv))
       (filter (fun kv => negb (id =? fst kv)) users)
     ++ [register_self]).

(** [privateData] *)
Definition register_reply : reply :=
  Registered (mkPrivateUser id name register_old_name) register_listing.

(** [publicData] *)
Definition register_event : message :=
  RegisterMsg register_self register_listing.

(** [!old_name || old_name != name] *)
Definition register_announces : bool :=
  match Obj.get id users with
  | Some user =>
      negb (Js.truthy (User.name user)) || negb (User.name user =? name)
  | None => true
  end.

(** The registry after the request. *)
Definition register_users : Obj.t User.t :=
  let users1 := Obj.set id registered_record users in
  if register_announces
  then broadcast register_event (Some id) users1
  else users1.

(** The responses the request writes. *)
Definition register_written : list (nat * reply) :=
  (Connection.response connection, register_reply)
  :: (if register_announces
      then broadcast_replies register_event (Some id)
             (Obj.set id registered_record users)
      else []).

End Register.

(** ** Leaving and polling *)

(** The payload of the broadcast that follows the removal of [user]. *)
Definition unregister_event (id : string) (user : User.t)
  (users : Obj.t User.t) : message :=
  UnregisterMsg (public user) (map public (Obj.values (Obj.delete id users))).

(** What a response parked on [user] is sent when it is given up. *)
Definition released (user : User.t) : list (nat * reply) :=
  match User.connection user with
  | Some connection => [(Connection.response connection, Empty)]
  | None => []
  end.

(** ** The registry between two requests *)

(** What holds of every record of the registry between two requests: it is
    stored under its own id, it has a name, and its queue and its parked
    response are not both in use. *)
Definition sound (kv : string * User.t) : Prop :=
  User.id (snd kv) = fst kv /\
  User.name (snd kv) <> EmptyString /\
  (User.connection (snd kv) = None \/ User.queue (snd kv) = []).

(** The names in use, in the order of the registry. *)
Definition names (users : Obj.t User.t) : list string :=
  map User.name (Obj.values users).

Record well_formed (users : Obj.t User.t) : Prop := {
  wf_keys : NoDup (Obj.keys users);
  wf_names : NoDup (names users);
  wf_sound : Forall sound users
}.

(** The ways one request changes the registry. *)
Inductive transition (users : Obj.t User.t) : Obj.t User.t -> Prop :=
| t_none :
    transition users users
| t_relay user_id data :
    transition users (Obj.modify user_id (deliver data) users)
| t_drain id :
    transition users (Obj.modify id (User.set_queue []) users)
| t_park id user connection :
    Obj.get id users = Some user -> User.queue user = [] ->
    transition users (Obj.modify id (User.set_connection (Some connection)) users)
| t_unregister id user :
    Obj.get id users = Some user ->
    transition users
      (broadcast (unregister_event id user users) None (Obj.delete id users))
| t_register connection name :
    name <> EmptyString ->
    name_in_use (register_id connection) name users = false ->
    transition users (register_users connection name users).

(** A route that fails leaves the world as it found it; one that succeeds
    makes one transition. *)
Definition clean (route : Connection.t -> M unit) : Prop :=
  forall connection w,
    NoDup (Obj.keys (users_ w)) ->
    (exists e, route connection w = (Thrown e, w)) \/
    (exists w', route connection w = (Ok tt, w') /\
                transition (users_ w) (users_ w')).

(** The world after a run of [sendMessage]s to one user. *)
Definition sendAll (id : string) (batch : list message) (w : world) : world :=
  fold_left (fun w data => exec (sendMessage id data) w) batch w.

(** ** Concrete requests *)

Definition alice_joins : Connection.t := request 1 "u1" [("register", "alice")].
Definition bob_joins : Connection.t := request 2 "u2" [("register", "bob")].
Definition alice_renames : Connection.t :=
  request 3 "u3" [("register", "alicia"); ("id", "u1")].
Definition bob_renames : Connection.t :=
  request 3 "u3" [("register", "bobby"); ("id", "u2")].
Definition bob_registers_again : Connection.t :=
  request 3 "u3" [("register", "bob"); ("id", "u2")].
Definition bob_takes_alice : Connection.t :=
  request 3 "u3" [("register", "alice"); ("id", "u2")].
Definition alice_waits (response : nat) : Connection.t :=
  request response EmptyString [("wait", "u1")].

(** Alice, then Bob, have registered and nobody has polled yet. *)
Definition alice_and_bob : world :=
  serve Server.serverHandler [alice_joins; bob_joins] empty_world.

Definition queue_of (id : string) (w : world) : option (list message) :=
  option_map User.queue (Obj.get id (users_ w)).

Definition name_of (id : string) (w : world) : option string :=
  option_map User.name (Obj.get id (users_ w)).

Definition renamed : message :=
  RegisterMsg (mkPublicUser "alicia" (Some "alice"))
    [mkPublicUser "alicia" (Some "alice"); mkPublicUser "bob" None].

(** Closes [NoDup] of a list of distinct string literals. *)
Ltac distinct :=
  repeat (constructor; [cbn; intuition discriminate|]); constructor.

(** Alice has polled twice: the first poll took the news of Bob's
    registration, the second is parked on response 4. *)
Definition alice_parked : world :=
  serve Server.serverHandler
    [alice_joins; bob_joins; alice_waits 3; alice_waits 4] empty_world.

Definition bob_leaves : Connection.t :=
  request 3 EmptyString [("unregister", "u2")].


(** ** The registry around one id *)

(** The users [for ... in] visits before it comes to [id]. *)
Fixpoint users_before (id : string) (users : Obj.t User.t) : Obj.t User.t :=
  match users with
  | [] => []
  | (k, u) :: rest => if k =? id then [] else (k, u) :: users_before id rest
  end.

(** The user stored under [id] and the users visited after it. *)
Fixpoint users_from (id : string) (users : Obj.t User.t) : Obj.t User.t :=
  match users with
  | [] => []
  | (k, u) :: rest => if k =? id then users else users_from id rest
  end.

(** The names of two users are the same up to case. *)
Definition same_name (a b : publicUser) : bool :=
  Js.toUpperCase (pub_name a) =? Js.toUpperCase (pub_name b).


(** ** [uuidv4] *)

(** [v.toString(16)], for the values below 16 that [uuidv4] prints. *)
Definition toString16 (v : N) : ascii :=
  nth (N.to_nat v)
    (list_ascii_of_string "0123456789abcdef") "?"%char.

(** The callback of [replace]: [r] is [Math.random() * 16 | 0]. *)
Definition uuid_digit (c : ascii) (r : N) : ascii :=
  let v := if (c =? "x")%char then r else N.lor (N.land r 3) 8 in
  toString16 v.

(** [template.replace(/[xy]/g, c => ...)]; [random i] is what
    [Math.random() * 16 | 0] gives at the call number [i]. *)
Fixpoint replace_xy (template : string) (random : nat -> N) (i : nat) : string :=
  match template with
  | EmptyString => EmptyString
  | String c rest =>
      if ((c =? "x") || (c =? "y"))%char
      then String (uuid_digit c (random i)) (replace_xy rest random (S i))
      else String c (replace_xy rest random i)
  end.

(** The string [uuidv4()] returns. *)
Definition uuidv4_string (random : nat -> N) : string :=
  replace_xy "xxxxxxxx-xxxx-4xxx-yxxx-xxxxxxxxxxxx" random 0.

Definition is_hex (c : ascii) : bool :=
  existsb (Ascii.eqb c) (list_ascii_of_string "0123456789abcdef").

(** ** Regular expressions

    The constructs [assetRegex] is made of, with the language each one
    stands for; [search] is what [String.prototype.match] finds: a match
    anywhere in the string. *)

Inductive regex : Type :=
| Nothing                         (* matches no string *)
| Eps                             (* the empty string *)
| Char (c : ascii)                (* a literal character *)
| Dot                             (* . *)
| NotIn (cs : list ascii)         (* [^...] *)
| Cat (r s : regex)
| Alt (r s : regex)
| Star (r : regex).

(** The line terminators [.] does not match. *)
Definition line_terminator (c : ascii) : bool :=
  ((c =? "010") || (c =? "013"))%char.

Inductive matches : regex -> list ascii -> Prop :=
| m_eps : matches Eps []
| m_char c : matches (Char c) [c]
| m_dot c : line_terminator c = false -> matches Dot [c]
| m_notin cs c : existsb (Ascii.eqb c) cs = false -> matches (NotIn cs) [c]
| m_cat r s u v : matches r u -> matches s v -> matches (Cat r s) (u ++ v)
| m_alt_l r s u : matches r u -> matches (Alt r s) u
| m_alt_r r s u : matches s u -> matches (Alt r s) u
| m_star_nil r : matches (Star r) []
| m_star_app r u v :
    matches r u -> matches (Star r) v -> matches (Star r) (u ++ v).

Fixpoint nullable (r : regex) : bool :=
  match r with
  | Nothing | Char _ | Dot | NotIn _ => false
  | Eps | Star _ => true
  | Cat r s => nullable r && nullable s
  | Alt r s => nullable r || nullable s
  end.

(** What is left of [r] once it has read [a]. *)
Fixpoint deriv (a : ascii) (r : regex) : regex :=
  match r with
  | Nothing | Eps => Nothing
  | Char c => if (a =? c)%char then Eps else Nothing
  | Dot => if line_terminator a then Nothing else Eps
  | NotIn cs => if existsb (Ascii.eqb a) cs then Nothing else Eps
  | Cat r s =>
      if nullable r
      then Alt (Cat (deriv a r) s) (deriv a s)
      else Cat (deriv a r) s
  | Alt r s => Alt (deriv a r) (deriv a s)
  | Star r => Cat (deriv a r) (Star r)
  end.

Fixpoint accepts (r : regex) (s : list ascii) : bool :=
  match s with
  | [] => nullable r
  | a :: s' => accepts (deriv a r) s'
  end.

(** [s.match(r)] is not [null]. *)
Definition search (r : regex) (s : string) : bool :=
  accepts (Cat (Star (NotIn [])) (Cat r (Star (NotIn []))))
    (list_ascii_of_string s).

Definition literal (s : string) : regex :=
  fold_right (fun c r => Cat (Char c) r) Eps (list_ascii_of_string s).

(** [new RegExp('/assets/[^./]*.png')] *)
Definition assetRegex : regex :=
  Cat (literal "/assets/")
    (Cat (Star (NotIn ["."%char; "/"%char]))
       (Cat Dot (literal "png"))).

(** ** From the request to the route *)

(** [Object.assign(target, source)] for a [target] made by [{}] and
    values that are strings: each own property of the source is assigned
    to the target in turn; the assignment to [__proto__] runs the setter of
    [Object.prototype], which ignores a string, so that parameter is
    dropped. *)
Definition Object_assign {V : Type} (target source : Obj.t V) : Obj.t V :=
  fold_left (fun o kv => if fst kv =? "__proto__" then o
                         else Obj.set (fst kv) (snd kv) o) source target.

Module Http.

(** What the handlers read of a request: its method, the [pathname] and
    the query of its URL as [url.parse] gives them, and the chunks of its
    body in the order of the ['data'] events. *)
Record request : Type := mkRequest {
  method : string;
  pathname : string;
  get : Obj.t string;
  body : list string
}.

Section Handlers.

(** [querystring.parse] *)
Variable parse : string -> Obj.t string.

(** The routes that serve files and pages. *)
Variables jsonLoaderRoute intercomRoute serverRoute assetRoute
  : Connection.t -> M unit.

(** [onData] on each chunk, then [onEnd]. [queryData.length] counts the
    UTF-16 units of the text the chunks decode to; the model counts the
    bytes, which is the same number for chunks of ASCII characters, as a
    URL-encoded body is made of. *)
Fixpoint receive (queryData : string) (chunks : list string)
  : error + string :=
  match chunks with
  | [] => inr queryData
  | data :: chunks' =>
      let queryData := (queryData ++ data)%string in
      if (1000000 <? N.of_nat (String.length queryData))%N
      then inl (errorWithCode 413 "Request Entity Too Large")
      else receive queryData chunks'
  end.

Definition parsePostQuery (r : request) : error + Obj.t string :=
  if negb (method r =? "POST") then inr []
  else match receive EmptyString (body r) with
       | inl e => inl e
       | inr queryData => inr (parse queryData)
       end.

(** [time] is [new Date().getTime()], [uuid] the draw of the request. *)
Definition createConnectionObject (time : Z) (uuid : string)
  (r : request) (response : nat) : error + Connection.t :=
  match parsePostQuery r with
  | inl e => inl e
  | inr post =>
      inr (Connection.mk time response
             (Object_assign (Object_assign [] post) (get r)) uuid)
  end.

Definition routes_ : list (string * (Connection.t -> M unit)) :=
  [ ("/", Server.rootRoute);
    ("/jsonLoader", jsonLoaderRoute);
    ("/intercom", intercomRoute);
    ("/server", serverRoute) ].

Definition routeRequest (time : Z) (uuid : string)
  (r : request) (response : nat) : M unit :=
  match createConnectionObject time uuid r response with
  | inl e => throw e
  | inr connection =>
      match Obj.get (pathname r) routes_ with
      | Some route => route connection
      | None =>
          if search assetRegex (pathname r) then assetRoute connection
          else throw (errorWithCode 404 "page not found")
      end
  end.

Definition serverHandler (time : Z) (uuid : string)
  (r : request) (response : nat) : M unit :=
  catch (routeRequest time uuid r response)
    (fun error =>
       writeErrorResponse response
         (match code error with
          | Some c => if (c =? 0)%Z then 500%Z else c
          | None => 500%Z
          end)
         (message_of error)).

End Handlers.

End Http.

(** Every byte of [s] is an ASCII character. *)
Definition is_ascii (s : string) : bool :=
  forallb (fun c => (nat_of_ascii c <? 128)%nat) (list_ascii_of_string s).

(** The chunks of a body, put together. *)
Definition joined (chunks : list string) : string :=
  fold_right String.append EmptyString chunks.

(** ** More concrete requests *)

Definition alice_offers : Connection.t :=
  request 3 "u3" [("id", "u1"); ("offer", "sdp"); ("name", "bob")].
Definition blank_joins : Connection.t :=
  request 3 "u3" [("register", "   ")].
Definition carol_joins : Connection.t :=
  request 3 "u3" [("register", "carol")].

Definition an_offer : message := OfferMsg "sdp" "alice".


(** A POST to the root path with a parameter in the URL and in the body. *)
Definition root_post : Http.request :=
  Http.mkRequest "POST" "/" [("wait", "u1")] ["wait=u2&id=u7"].

(** What [querystring.parse] makes of the bodies above. *)
Definition parse_examples (body : string) : Obj.t string :=
  if body =? "wait=u2&id=u7" then [("wait", "u2"); ("id", "u7")]
  else if body =? "register=eve" then [("register", "eve")]
  else [].

Definition no_page (connection : Connection.t) : M unit := ret tt.

(** A body of 1001 chunks of 1000 characters. *)
Definition long_post : Http.request :=
  Http.mkRequest "POST" "/"
    [] (repeat (string_of_list_ascii (repeat "a"%char 1000)) 1001).

(** The draws 0, 1, 2, ... taken modulo 16. *)
Definition counting (i : nat) : N := N.of_nat (i mod 16).

Definition eve_joins : Connection.t :=
  Connection.mk 3 3 [("register", "eve")] (uuidv4_string counting).

(** [unregister=] with nothing after the sign. *)
Definition nobody_leaves : Connection.t :=
  request 3 EmptyString [("unregister", EmptyString)].

(** * [users_] with what it inherits

    [users_] is made by [{}], and so is [connection.query]: a property
    that is not their own is looked up in [Object.prototype].  For an id
    such as [constructor], [users_[id]] is a function, not [undefined],
    and a key named [hasOwnProperty] hides the method of that name.
    [Plain] follows [server.js] once more, statement by statement, with
    these lookups and with the [TypeError]s they lead to.  The modules
    above are this one restricted to the ids and parameters that name no
    property of [Object.prototype]; the section on the two readings proves
    it. *)

Module Plain.

(** [{ name }] or [{ name, old_name }], where [name] is [user.name]:
    [undefined] when [user] is not a record and has no such property. *)
Record publicUser : Type := mkPublicUser {
  pub_name : option string;
  pub_old_name : option string
}.

Inductive message : Type :=
| RegisterMsg (register : publicUser) (users : list publicUser)
| UnregisterMsg (unregister : publicUser) (users : list publicUser)
| OfferMsg (offer : string) (name : option string)
| AnswerMsg (answer : string) (name : option string)
| RejectMsg (name : option string).

Inductive reply : Type :=
| Empty
| Registered (register : privateUser) (users : list publicUser)
| Messages (messages : list message)
| Failure (code : Z) (description : string)
| ServerError.
    (* writeErrorResponse(response, 500, error.message) for a TypeError,
       whose message is the engine's *)

Module User.
(** [{ id, name, time, queue, connection }] *)
Record t : Type := mk {
  id : string;
  name : string;
  time : Z;
  queue : list message;
  connection : option Connection.t
}.

Definition set_queue (q : list message) (user : t) : t :=
  mk (id user) (name user) (time user) q (connection user).

Definition set_connection (c : option Connection.t) (user : t) : t :=
  mk (id user) (name user) (time user) (queue user) c.

Definition assign (user : t) (name : string) (time : Z) : t :=
  mk (id user) name time (queue user) (connection user).
End User.

(** The objects [registerRoute] stores: [{ id, name, time, queue,
    connection }], or [{ name, time }] when it copied a value that had no
    record's properties. *)
Inductive record : Type :=
| Full (user : User.t)
| Bare (name : string) (time : Z).

Definition record_name (r : record) : string :=
  match r with
  | Full user => User.name user
  | Bare name _ => name
  end.

(** [record.id] *)
Definition record_id (r : record) : option string :=
  match r with
  | Full user => Some (User.id user)
  | Bare _ _ => None
  end.

Definition on_full (f : User.t -> User.t) (r : record) : record :=
  match r with
  | Full user => Full (f user)
  | Bare _ _ => r
  end.

(** What is thrown: [errorWithCode(code, message)], [new Error(message)],
    or the [TypeError] of the engine. *)
Inductive error : Type :=
| errorWithCode (code : Z) (message : string)
| Error (message : string)
| TypeError.

(** [users_] has its own properties and a prototype: [Object.prototype]
    ([None]), or the record [{ name, time }] that an assignment to
    [users_['__proto__']] put in its place. *)
Record world : Type := mkWorld {
  users_ : Obj.t record;
  prototype : option (string * Z);
  written : list (nat * reply)
}.

Definition empty_world : world := mkWorld [] None [].

Inductive outcome (A : Type) : Type :=
| Ok (a : A)
| Thrown (e : error).
Arguments Ok {A} a.
Arguments Thrown {A} e.

Definition M (A : Type) : Type := world -> outcome A * world.

Definition ret {A} (a : A) : M A := fun w => (Ok a, w).

Definition bind {A B} (m : M A) (f : A -> M B) : M B :=
  fun w =>
    match m w with
    | (Ok a, w') => f a w'
    | (Thrown e, w') => (Thrown e, w')
    end.

Definition throw {A} (e : error) : M A := fun w => (Thrown e, w).

Definition catch {A} (m : M A) (h : error -> M A) : M A :=
  fun w =>
    match m w with
    | (Ok a, w') => (Ok a, w')
    | (Thrown e, w') => h e w'
    end.

Declare Scope plain_scope.
Delimit Scope plain_scope with plain.
Notation "x <- m ;; k" := (bind m (fun x => k))
  (at level 61, m at next level, right associativity) : plain_scope.
Notation "m ;; k" := (bind m (fun _ => k))
  (at level 61, right associativity) : plain_scope.
Local Open Scope plain_scope.

Definition get_world : M world := fun w => (Ok w, w).

Definition write (response : nat) (r : reply) : M unit :=
  fun w =>
    (Ok tt, mkWorld (users_ w) (prototype w) (written w ++ [(response, r)])).

(** In-place mutation of the record stored under [id]. *)
Definition modify_user (id : string) (f : User.t -> User.t) : M unit :=
  fun w =>
    (Ok tt, mkWorld (Obj.modify id (on_full f) (users_ w)) (prototype w)
              (written w)).

Definition when (b : bool) (m : M unit) : M unit := if b then m else ret tt.

Fixpoint mapM {A B} (f : A -> M B) (l : list A) : M (list B) :=
  match l with
  | [] => ret []
  | a :: l' => b <- f a ;; bs <- mapM f l' ;; ret (b :: bs)
  end.

Fixpoint forEach {A} (l : list A) (body : A -> M bool) : M unit :=
  match l with
  | [] => ret tt
  | a :: l' => go <- body a ;; if go then forEach l' body else ret tt
  end.

Definition exec {A} (m : M A) (w : world) : world := snd (m w).
Definition result {A} (m : M A) (w : world) : outcome A := fst (m w).

(** ** Property lookup *)

(** What [users_[k]] can be. *)
Inductive value : Type :=
| Undefined
| Object (r : record)           (* a record *)
| Fn (name : string)            (* a function whose [name] is [name] *)
| ObjectPrototype               (* Object.prototype itself *)
| Str (s : string)
| Num (n : Z).

(** The methods of [Object.prototype]; it also has [constructor] and the
    accessor [__proto__]. None of them is enumerable. *)
Definition methods : list string :=
  [ "__defineGetter__"; "__defineSetter__"; "hasOwnProperty";
    "__lookupGetter__"; "__lookupSetter__"; "isPrototypeOf";
    "propertyIsEnumerable"; "toString"; "valueOf"; "toLocaleString" ].

(** [Object.prototype[k]], the accessor apart. *)
Definition Object_prototype (k : string) : value :=
  if k =? "constructor" then Fn "Object"
  else if existsb (String.eqb k) methods then Fn k
  else Undefined.

(** [users_[k]]: the getter of [__proto__] answers the prototype; any
    other key is an own property, or a property of the record [users_]
    inherits from, or a property of [Object.prototype]. *)
Definition lookup (k : string) (w : world) : value :=
  if k =? "__proto__" then
    match prototype w with
    | Some (name, time) => Object (Bare name time)
    | None => ObjectPrototype
    end
  else
    match Obj.get k (users_ w) with
    | Some r => Object r
    | None =>
        match prototype w with
        | Some (name, time) =>
            if k =? "name" then Str name
            else if k =? "time" then Num time
            else Object_prototype k
        | None => Object_prototype k
        end
    end.

(** [!!v] *)
Definition truthy (v : value) : bool :=
  match v with
  | Undefined => false
  | Str s => Js.truthy s
  | Num n => negb (n =? 0)%Z
  | Object _ | Fn _ | ObjectPrototype => true
  end.

(** [v.name], for a [v] that is not [undefined] *)
Definition name_of (v : value) : option string :=
  match v with
  | Object r => Some (record_name r)
  | Fn name => Some name
  | Undefined | ObjectPrototype | Str _ | Num _ => None
  end.

(** [v.connection] *)
Definition connection_of (v : value) : option Connection.t :=
  match v with
  | Object (Full user) => User.connection user
  | _ => None
  end.

(** An id names an inherited property when [users_[id]] is something even
    in the registry that has no user. *)
Definition inherited (k : string) : bool := truthy (lookup k empty_world).

(** The keys [for (let k in users_)] visits: the own ones, then the
    enumerable ones of the record inherited from that no own key hides. *)
Definition for_in (w : world) : list string :=
  Obj.keys (users_ w)
  ++ match prototype w with
     | Some _ =>
         filter (fun k => negb (Obj.has k (users_ w))) ["name"; "time"]
     | None => []
     end.

(** [users_.hasOwnProperty(k)]: a call of whatever [users_.hasOwnProperty]
    is. *)
Definition hasOwnProperty (k : string) : M bool :=
  w <- get_world ;;
  match lookup "hasOwnProperty" w with
  | Fn _ => ret (Obj.has k (users_ w))
  | _ => throw TypeError
  end.

(** A property key made of a value that may be [undefined]. *)
Definition property_key (v : option string) : string :=
  match v with
  | Some s => s
  | None => "undefined"
  end.

(** ** The code of [server.js] *)

Definition writeJsonResponse (response : nat) (obj : option reply) : M unit :=
  write response (match obj with Some r => r | None => Empty end).

Definition writeErrorResponse (response : nat) (e : error) : M unit :=
  write response
    (match e with
     | errorWithCode c description =>
         Failure (if (c =? 0)%Z then 500%Z else c) description
     | Error description => Failure 500 description
     | TypeError => ServerError
     end).

Definition uuidv4 (connection : Connection.t) : M string :=
  ret (Connection.uuid connection).

Definition generatePublicUser (user_id : string) : M publicUser :=
  w <- get_world ;;
  let user := lookup user_id w in
  if truthy user then ret (mkPublicUser (name_of user) None)
  else throw (errorWithCode 400 "user not found").

Definition generatePublicUsers (user_ids : list string) : M (list publicUser) :=
  mapM generatePublicUser user_ids.

Definition has_name (a : publicUser) : bool :=
  match pub_name a with Some _ => true | None => false end.

(** The comparator, on users that have a name. *)
Definition name_le (a b : publicUser) : bool :=
  match pub_name a, pub_name b with
  | Some x, Some y => String.leb (Js.toUpperCase x) (Js.toUpperCase y)
  | _, _ => true
  end.

Fixpoint insert_sorted (a : publicUser) (l : list publicUser) : list publicUser :=
  match l with
  | [] => [a]
  | b :: l' => if name_le a b then a :: l else b :: insert_sorted a l'
  end.

(** [users.sort(...)]: with two elements or more every one of them is
    handed to the comparator, where [a.name.toUpperCase()] is a
    [TypeError] for a name that is [undefined]. *)
Definition sortUsersByName (users : list publicUser) : M (list publicUser) :=
  match users with
  | [] | [_] => ret users
  | _ =>
      if forallb has_name users then ret (fold_right insert_sorted [] users)
      else throw TypeError
  end.

(** [Object.keys] gives own keys: the user found is a record. *)
Definition findUserByName (name : string) : M (option record) :=
  w <- get_world ;;
  ret (option_map snd
         (find (fun kv => record_name (snd kv) =? name) (users_ w))).

Definition enqueueMessage (user_id : string) (data : message) : M unit :=
  w <- get_world ;;
  let user := lookup user_id w in
  if truthy user then
    match user with
    | Object (Full _) =>
        modify_user user_id
          (fun user => User.set_queue (User.queue user ++ [data]) user)
    | _ => throw TypeError                  (* user.queue is undefined *)
    end
  else throw (Error "enqueueMessage: unknown user").

Definition sendQueue (user_id : string) : M unit :=
  w <- get_world ;;
  let user := lookup user_id w in
  if truthy user then
    match user with
    | Object (Full u) =>
        match User.connection u, User.queue u with
        | Some connection, _ :: _ =>
            writeJsonResponse (Connection.response connection)
              (Some (Messages (User.queue u))) ;;
            modify_user user_id
              (fun user => User.set_connection None (User.set_queue [] user))
        | _, _ => ret tt
        end
    | _ => ret tt                           (* user.connection is undefined *)
    end
  else throw (Error "sendQueue: unknown user").

(** [.catch(console.error)] *)
Definition sendMessage (user_id : string) (data : message) : M unit :=
  catch (enqueueMessage user_id data ;; sendQueue user_id) (fun _ => ret tt).

Definition sendMessageToAll (data : message) (exclude_user_id : option string)
  : M unit :=
  w <- get_world ;;
  forEach (for_in w) (fun user_id =>
    own <- hasOwnProperty user_id ;;
    if own then
      if excluded exclude_user_id user_id then ret true      (* continue *)
      else sendMessage user_id data ;; ret true
    else ret true).

(** A call nobody awaits: when it throws, no handler sees it. *)
Definition detached (m : M unit) : M unit := catch m (fun _ => ret tt).

Definition required (v : option string) (msg : string) : M string :=
  match v with
  | Some s => if Js.truthy s then ret s else throw (errorWithCode 400 msg)
  | None => throw (errorWithCode 400 msg)
  end.

(** [Object.assign({}, user, { name, time })]: the own enumerable
    properties of [user], then [name] and [time]. A function, a number and
    [Object.prototype] have none; a string has its characters, under the
    indices, which nothing reads. *)
Definition assign (user : value) (name : string) (time : Z) : record :=
  match user with
  | Object (Full u) => Full (User.assign u name time)
  | _ => Bare name time
  end.

(** [users_[id] = user]. For [id = '__proto__'] this is the setter of
    [Object.prototype]: [users_] gets no own property and inherits from
    [user] from then on; there [user] is [{ name, time }], as the lookup
    before found [Object.prototype] or the record inherited from. *)
Definition assign_user (id : string) (user : record) : M unit :=
  fun w =>
    if id =? "__proto__"
    then (Ok tt, mkWorld (users_ w) (Some (record_name user,
                                           match user with
                                           | Full u => User.time u
                                           | Bare _ time => time
                                           end)) (written w))
    else (Ok tt, mkWorld (Obj.set id user (users_ w)) (prototype w)
                   (written w)).

(** [delete users_[id]] removes an own property. *)
Definition delete_user (id : string) : M unit :=
  fun w =>
    (Ok tt, mkWorld (Obj.delete id (users_ w)) (prototype w) (written w)).

(** [if (user.connection) writeJsonResponse(user.connection.response)] *)
Definition release (user : value) : M unit :=
  match connection_of user with
  | Some connection => writeJsonResponse (Connection.response connection) None
  | None => ret tt
  end.

Definition same_name (v : option string) (name : string) : bool :=
  match v with
  | Some s => s =? name
  | None => false
  end.

Definition registerRoute (connection : Connection.t) : M unit :=
  let query := Connection.query connection in
  name <- required (option_map Js.trim (Obj.get "register" query))
            "user name required" ;;
  id <- match Obj.get "id" query with
        | Some id => if Js.truthy id then ret id else uuidv4 connection
        | None => uuidv4 connection
        end ;;
  let time := Connection.time connection in
  w <- get_world ;;
  let user := lookup id w in
  if existsb (fun user_id =>
                same_name (name_of (lookup user_id w)) name
                && negb (id =? user_id)) (for_in w)
  then throw (errorWithCode 400 "user name already in use")
  else
    let old_name := if truthy user then name_of user else None in
    let user := if truthy user then assign user name time
                else Full (User.mk id name time [] None) in
    let shown_old_name := if Js.truthy_opt old_name then old_name else None in
    let privateUser := mkPrivateUser id name shown_old_name in
    let publicUser := mkPublicUser (Some name) shown_old_name in
    let otherUserIds :=
      filter (fun user_id => negb (id =? user_id)) (Obj.keys (users_ w)) in
    others <- generatePublicUsers otherUserIds ;;
    publicUsers <- sortUsersByName (others ++ [publicUser]) ;;
    writeJsonResponse (Connection.response connection)
      (Some (Registered privateUser publicUsers)) ;;
    assign_user id user ;;
    when (negb (Js.truthy_opt old_name)
          || negb (same_name old_name name))
      (detached
         (sendMessageToAll (RegisterMsg publicUser publicUsers) (Some id))).

Definition unregisterRoute (connection : Connection.t) : M unit :=
  let query := Connection.query connection in
  id <- required (Obj.get "unregister" query) "user id required" ;;
  w <- get_world ;;
  let user := lookup id w in
  (if truthy user then
     unregister <- generatePublicUser id ;;
     delete_user id ;;
     w <- get_world ;;
     all <- generatePublicUsers (Obj.keys (users_ w)) ;;
     release user ;;
     sendMessageToAll (UnregisterMsg unregister all) (Some id)
   else ret tt) ;;
  writeJsonResponse (Connection.response connection) None.

(** The sender may be anything [users_[id]] finds; the target is a record,
    and [toUser.id] is [undefined] for one that has no id. *)
Definition relay (id name : string) (payload : option string -> message)
  : M unit :=
  w <- get_world ;;
  let fromUser := lookup id w in
  if truthy fromUser then
    toUser <- findUserByName name ;;
    match toUser with
    | None => throw (errorWithCode 400 "user name not found")
    | Some toUser =>
        sendMessage (property_key (record_id toUser))
          (payload (name_of fromUser))
    end
  else throw (errorWithCode 400 "user id not found").

Definition offerRoute (connection : Connection.t) : M unit :=
  let query := Connection.query connection in
  id <- required (Obj.get "id" query) "user id required" ;;
  offer <- required (Obj.get "offer" query) "offer required" ;;
  name <- required (Obj.get "name" query) "user name required" ;;
  relay id name (fun from => OfferMsg offer from) ;;
  writeJsonResponse (Connection.response connection) None.

Definition answerRoute (connection : Connection.t) : M unit :=
  let query := Connection.query connection in
  id <- required (Obj.get "id" query) "user id required" ;;
  answer <- required (Obj.get "answer" query) "answer required" ;;
  name <- required (Obj.get "name" query) "user name required" ;;
  relay id name (fun from => AnswerMsg answer from) ;;
  writeJsonResponse (Connection.response connection) None.

Definition rejectRoute (connection : Connection.t) : M unit :=
  let query := Connection.query connection in
  id <- required (Obj.get "id" query) "user id required" ;;
  name <- required (Obj.get "reject" query) "user name required" ;;
  relay id name (fun from => RejectMsg from) ;;
  writeJsonResponse (Connection.response connection) None.

Definition waitRoute (connection : Connection.t) : M unit :=
  let query := Connection.query connection in
  id <- required (Obj.get "wait" query) "user id required" ;;
  w <- get_world ;;
  let user := lookup id w in
  if truthy user then
    match user with
    | Object (Full u) =>
        match User.queue u with
        | _ :: _ =>
            writeJsonResponse (Connection.response connection)
              (Some (Messages (User.queue u))) ;;
            modify_user id (User.set_queue [])
        | [] =>
            release user ;;
            modify_user id (User.set_connection (Some connection))
        end
    | _ => throw TypeError                  (* user.queue is undefined *)
    end
  else throw (errorWithCode 400 "user not found").

(** [connection.query.hasOwnProperty(key)]: a parameter named
    [hasOwnProperty] is what the call finds. *)
Definition query_hasOwnProperty (connection : Connection.t) (key : string)
  : M bool :=
  let query := Connection.query connection in
  if Obj.has "hasOwnProperty" query then throw TypeError
  else ret (Obj.has key query).

Fixpoint dispatch (routes : list (string * (Connection.t -> M unit)))
  (connection : Connection.t) : M unit :=
  match routes with
  | [] => throw (errorWithCode 400 "unknown request parameters")
  | (key, route) :: routes' =>
      own <- query_hasOwnProperty connection key ;;
      if own then route connection else dispatch routes' connection
  end.

Definition dataRoutes_ : list (string * (Connection.t -> M unit)) :=
  [ ("register", registerRoute);
    ("unregister", unregisterRoute);
    ("offer", offerRoute);
    ("answer", answerRoute);
    ("reject", rejectRoute);
    ("wait", waitRoute) ].

Definition rootRoute : Connection.t -> M unit := dispatch dataRoutes_.

(** [routeRequest(request, response).catch(error =>
       writeErrorResponse(response, error.code || 500, error.message))] *)
Definition serverHandler (connection : Connection.t) : M unit :=
  catch (rootRoute connection)
    (writeErrorResponse (Connection.response connection)).

Definition serve (requests : list Connection.t) (w : world) : world :=
  fold_left (fun w connection => exec (serverHandler connection) w) requests w.

Inductive reachable : world -> Prop :=
| reachable_start : reachable empty_world
| reachable_serve w connection :
    reachable w -> reachable (exec (serverHandler connection) w).

End Plain.

(** ** The two readings side by side *)

Definition lift_public (p : publicUser) : Plain.publicUser :=
  Plain.mkPublicUser (Some (pub_name p)) (pub_old_name p).

Definition lift_message (m : message) : Plain.message :=
  match m with
  | RegisterMsg register users =>
      Plain.RegisterMsg (lift_public register) (map lift_public users)
  | UnregisterMsg unregister users =>
      Plain.UnregisterMsg (lift_public unregister) (map lift_public users)
  | OfferMsg offer name => Plain.OfferMsg offer (Some name)
  | AnswerMsg answer name => Plain.AnswerMsg answer (Some name)
  | RejectMsg name => Plain.RejectMsg (Some name)
  end.

Definition lift_reply (r : reply) : Plain.reply :=
  match r with
  | Empty => Plain.Empty
  | Registered register users => Plain.Registered register (map lift_public users)
  | Messages messages => Plain.Messages (map lift_message messages)
  | Failure c description => Plain.Failure c description
  end.

Definition lift_user (user : User.t) : Plain.User.t :=
  Plain.User.mk (User.id user) (User.name user) (User.time user)
    (map lift_message (User.queue user)) (User.connection user).

Definition lift_users (users : Obj.t User.t) : Obj.t Plain.record :=
  map (fun kv => (fst kv, Plain.Full (lift_user (snd kv)))) users.

Definition lift_world (w : world) : Plain.world :=
  Plain.mkWorld (lift_users (users_ w)) None
    (map (fun r => (fst r, lift_reply (snd r))) (written w)).

(** The ids and keys the two readings treat alike. *)
Definition ordinary (k : string) : bool := negb (Plain.inherited k).

(** A registry whose keys and ids name nothing inherited, each record under
    its own id. *)
Definition ordinary_registry (users : Obj.t User.t) : Prop :=
  NoDup (Obj.keys users) /\
  Forall (fun kv => ordinary (fst kv) = true /\ User.id (snd kv) = fst kv) users.

(** A request none of whose parameters is named [hasOwnProperty] and whose
    ids name nothing inherited. *)
Definition ordinary_request (connection : Connection.t) : Prop :=
  let query := Connection.query connection in
  Obj.has "hasOwnProperty" query = false /\
  ordinary (Connection.uuid connection) = true /\
  Forall (fun key => match Obj.get key query with
                     | Some id => ordinary id = true
                     | None => True
                     end) ["id"; "unregister"; "wait"].

Definition lift_error (e : error) : Plain.error :=
  match code e with
  | Some c => Plain.errorWithCode c (message_of e)
  | None => Plain.Error (message_of e)
  end.

Definition lift_outcome {A B} (f : A -> B) (o : outcome A) : Plain.outcome B :=
  match o with
  | Ok a => Plain.Ok (f a)
  | Thrown e => Plain.Thrown (lift_error e)
  end.

Definition lift_result {A B} (f : A -> B) (r : outcome A * world)
  : Plain.outcome B * Plain.world :=
  (lift_outcome f (fst r), lift_world (snd r)).

(** In the world [w], [pm] does what [m] does, and [m] leaves an ordinary
    registry. *)
Definition agree_at {A B} (w : world) (f : A -> B) (m : M A) (pm : Plain.M B)
  : Prop :=
  pm (lift_world w) = lift_result f (m w) /\
  ordinary_registry (users_ (snd (m w))).

(** ** The registry of [Plain] between two requests *)

(** The keys under which [users_[k]] can be something that is not a record
    of the registry: the names [Object.prototype] has, and the two of the
    record inherited from. *)
Definition shadowing (k : string) : bool :=
  Plain.inherited k || (k =? "name") || (k =? "time").

(** A record with an id is stored under it; one without sits under a
    shadowing key; both have a name. *)
Definition kept (kv : string * Plain.record) : Prop :=
  match snd kv with
  | Plain.Full user => Plain.User.id user = fst kv
  | Plain.Bare _ _ => shadowing (fst kv) = true
  end /\
  Plain.record_name (snd kv) <> EmptyString.

Definition well_kept (w : Plain.world) : Prop :=
  NoDup (Obj.keys (Plain.users_ w)) /\
  Obj.get "__proto__" (Plain.users_ w) = None /\
  Forall kept (Plain.users_ w).

(** [m] leaves a registry that is well kept as it found it, however it
    ends. *)
Definition keeps {A} (m : Plain.M A) : Prop :=
  forall w, well_kept w -> well_kept (snd (m w)).

Create HintDb keeps.

(** The queue of the record stored under [id]. *)
Definition plain_queue (id : string) (w : Plain.world)
  : option (list Plain.message) :=
  match Obj.get id (Plain.users_ w) with
  | Some (Plain.Full user) => Some (Plain.User.queue user)
  | _ => None
  end.

(** ** Requests that name an inherited property *)

(** [unregister=constructor] *)
Definition constructor_leaves : Connection.t :=
  request 3 EmptyString [("unregister", "constructor")].

(** [unregister=u9], an id nobody has. *)
Definition nobody_known_leaves : Connection.t :=
  request 3 EmptyString [("unregister", "u9")].

(** [register=carol&hasOwnProperty=1] *)
Definition carol_joins_oddly : Connection.t :=
  request 3 "u3" [("register", "carol"); ("hasOwnProperty", "1")].

(** [hasOwnProperty=1] *)
Definition odd_request : Connection.t :=
  request 3 "u3" [("hasOwnProperty", "1")].

(** [colour=red] *)
Definition unknown_request : Connection.t :=
  request 3 "u3" [("colour", "red")].

(** [wait=u1&register=carol]: two operations in one request. *)
Definition carol_joins_and_waits : Connection.t :=
  request 3 "u3" [("wait", "u1"); ("register", "carol")].

(** [wait=toString] *)
Definition toString_waits : Connection.t :=
  request 3 EmptyString [("wait", "toString")].

(** Alice, then Bob, have registered, in the reading of [Plain]. *)
Definition plain_alice_and_bob : Plain.world :=
  Plain.serve [alice_joins; bob_joins] Plain.empty_world.

(** [{ unregister: { name: 'Object' }, users: [alice, bob] }] *)
Definition object_left : Plain.message :=
  Plain.UnregisterMsg (Plain.mkPublicUser (Some "Object") None)
    [ Plain.mkPublicUser (Some "alice") None;
      Plain.mkPublicUser (Some "bob") None ].

(** ** Requests whose names differ in case *)



(** [register=eve&id=constructor] *)
Definition eve_joins_as_constructor : Connection.t :=
  request 2 "u2" [("register", "eve"); ("id", "constructor")].

(** * The JavaScript primitives on examples *)

Example trim_alice : Js.trim "  alice smith " = "alice smith".
Proof. reflexivity. Qed.

Example trim_blank : Js.truthy (Js.trim "   ") = false.
Proof. reflexivity. Qed.

Example toUpperCase_bob : Js.toUpperCase "bob-7" = "BOB-7".
Proof. reflexivity. Qed.

Example array_index_10 : Obj.array_index "10" = Some 10%N.
Proof. reflexivity. Qed.

Example array_index_leading_zero : Obj.array_index "01" = None.
Proof. reflexivity. Qed.

Example array_index_uuid :
  Obj.array_index "3f2b8c1e-7a4d-4c1b-9e2f-5d6a7b8c9d0e" = None.
Proof. reflexivity. Qed.

Example array_index_limit :
  Obj.array_index "4294967294" = Some 4294967294%N /\
  Obj.array_index "4294967295" = None.
Proof. split; reflexivity. Qed.

(** [o = {}; o.b = 1; o["2"] = 2; o["1"] = 3; o.a = 4; o.b = 5] *)
Example keys_order :
  Obj.keys (Obj.set "b" 5 (Obj.set "a" 4 (Obj.set "1" 3 (Obj.set "2" 2
              (Obj.set "b" 1 [])))))
  = ["1"; "2"; "b"; "a"].
Proof. reflexivity. Qed.

Example sortUsersByName_mixed_case :
  map pub_name
    (sortUsersByName
       [mkPublicUser "bob" None; mkPublicUser "Carol" None;
        mkPublicUser "alice" None; mkPublicUser "BOB" None])
  = ["alice"; "bob"; "BOB"; "Carol"].
Proof. reflexivity. Qed.

(** * Facts about objects *)

Section ObjFacts.
Context {V : Type}.
Implicit Types (o : Obj.t V) (k : string) (v : V).

Lemma get_In_keys k o : In k (Obj.keys o) <-> Obj.get k o <> None.
Proof.
  induction o as [|[k' v'] o IH]; cbn.
  - split; [tauto | congruence].
  - destruct (String.eqb_spec k' k) as [->|Hne].
    + split; [congruence | auto].
    + rewrite <- IH. split; [intros [?|?]; [contradiction | assumption] | auto].
Qed.

Lemma get_None_keys k o : Obj.get k o = None <-> ~ In k (Obj.keys o).
Proof.
  rewrite get_In_keys. destruct (Obj.get k o) as [v|].
  - split; [discriminate | intros H; exfalso; apply H; discriminate].
  - split; [intros _ H; now apply H | reflexivity].
Qed.

Lemma get_In k v o : Obj.get k o = Some v -> In (k, v) o.
Proof.
  induction o as [|[k' v'] o IH]; cbn; [congruence|].
  destruct (String.eqb_spec k' k) as [->|Hne]; intros H.
  - left. congruence.
  - right. auto.
Qed.

Lemma In_get k v o : NoDup (Obj.keys o) -> In (k, v) o -> Obj.get k o = Some v.
Proof.
  induction o as [|[k' v'] o IH]; cbn; [tauto|].
  intros Hnd [Heq|Hin]; inversion Hnd as [|? ? Hnotin Hnd']; subst.
  - inversion Heq; subst. now rewrite String.eqb_refl.
  - destruct (String.eqb_spec k' k) as [->|Hne]; [|auto].
    exfalso. apply Hnotin. change k with (fst (k, v)). now apply in_map.
Qed.

Lemma get_app_fresh k o1 o2 :
  ~ In k (Obj.keys o1) -> Obj.get k (o1 ++ o2) = Obj.get k o2.
Proof.
  induction o1 as [|[k' v'] o1 IH]; cbn; [reflexivity|].
  intros Hn. destruct (String.eqb_spec k' k) as [->|Hne]; [tauto|].
  apply IH. tauto.
Qed.

Lemma keys_app o1 o2 : Obj.keys (o1 ++ o2) = Obj.keys o1 ++ Obj.keys o2.
Proof. apply map_app. Qed.

Lemma keys_modify k f o : Obj.keys (Obj.modify k f o) = Obj.keys o.
Proof.
  induction o as [|[k' v'] o IH]; cbn; [reflexivity|].
  destruct (k' =? k); cbn; [reflexivity | f_equal; exact IH].
Qed.

Lemma get_modify_same k f o :
  Obj.get k (Obj.modify k f o) = option_map f (Obj.get k o).
Proof.
  induction o as [|[k' v'] o IH]; cbn; [reflexivity|].
  destruct (String.eqb_spec k' k) as [->|Hne]; cbn.
  - now rewrite String.eqb_refl.
  - destruct (String.eqb_spec k' k); [contradiction | exact IH].
Qed.

Lemma get_modify_other k k' f o :
  k <> k' -> Obj.get k' (Obj.modify k f o) = Obj.get k' o.
Proof.
  intros Hne. induction o as [|[k0 v0] o IH]; cbn; [reflexivity|].
  destruct (String.eqb_spec k0 k) as [->|Hne0]; cbn.
  - destruct (String.eqb_spec k k'); [contradiction | reflexivity].
  - now rewrite IH.
Qed.

Lemma modify_absent k f o : Obj.get k o = None -> Obj.modify k f o = o.
Proof.
  induction o as [|[k' v'] o IH]; cbn; [reflexivity|].
  destruct (k' =? k); [congruence|]. intros H. now rewrite IH.
Qed.

Lemma modify_at k f g v o :
  Obj.get k o = Some v -> f v = g v -> Obj.modify k f o = Obj.modify k g o.
Proof.
  induction o as [|[k' v'] o IH]; cbn; [reflexivity|].
  destruct (k' =? k); intros H E.
  - inversion H; subst. now rewrite E.
  - now rewrite IH.
Qed.

Lemma modify_modify k f g o :
  Obj.modify k g (Obj.modify k f o) = Obj.modify k (fun v => g (f v)) o.
Proof.
  induction o as [|[k' v'] o IH]; cbn; [reflexivity|].
  destruct (String.eqb_spec k' k) as [->|Hne]; cbn.
  - now rewrite String.eqb_refl.
  - destruct (String.eqb_spec k' k); [contradiction | now rewrite IH].
Qed.

Lemma modify_app_fresh k f o1 o2 :
  ~ In k (Obj.keys o1) ->
  Obj.modify k f (o1 ++ o2) = o1 ++ Obj.modify k f o2.
Proof.
  induction o1 as [|[k' v'] o1 IH]; cbn; [reflexivity|].
  intros Hn. destruct (String.eqb_spec k' k) as [->|Hne]; [tauto|].
  rewrite IH; tauto.
Qed.

(** Under distinct keys, [modify] touches the one entry with that key. *)
Lemma modify_map k f o :
  NoDup (Obj.keys o) ->
  Obj.modify k f o =
  map (fun kv => if fst kv =? k then (fst kv, f (snd kv)) else kv) o.
Proof.
  induction o as [|[k' v'] o IH]; cbn; [reflexivity|].
  intros Hnd. inversion Hnd as [|? ? Hnotin Hnd']; subst.
  destruct (String.eqb_spec k' k) as [->|Hne]; cbn.
  - f_equal. rewrite <- IH by assumption. symmetry. apply modify_absent.
    now apply get_None_keys.
  - now rewrite IH.
Qed.

Lemma delete_filter k o :
  NoDup (Obj.keys o) ->
  Obj.delete k o = filter (fun kv => negb (fst kv =? k)) o.
Proof.
  induction o as [|[k' v'] o IH]; cbn; [reflexivity|].
  intros Hnd. inversion Hnd as [|? ? Hnotin Hnd']; subst.
  destruct (String.eqb_spec k' k) as [->|Hne]; cbn.
  - symmetry. apply forallb_filter_id. apply forallb_forall.
    intros [k0 v0] Hin. cbn. destruct (String.eqb_spec k0 k) as [->|]; [|reflexivity].
    exfalso. apply Hnotin. change k with (fst (k, v0)). now apply in_map.
  - now rewrite IH.
Qed.

Lemma In_delete kv k o : In kv (Obj.delete k o) -> In kv o.
Proof.
  induction o as [|[k' v'] o IH]; cbn; [tauto|].
  destruct (k' =? k); cbn; [tauto|]. intros [?|?]; auto.
Qed.

Lemma keys_delete_incl k k' o :
  In k' (Obj.keys (Obj.delete k o)) -> In k' (Obj.keys o).
Proof.
  unfold Obj.keys. rewrite !in_map_iff.
  intros [kv [E Hin]]. exists kv. split; [assumption|]. eapply In_delete; eauto.
Qed.

Lemma NoDup_keys_delete k o :
  NoDup (Obj.keys o) -> NoDup (Obj.keys (Obj.delete k o)).
Proof.
  induction o as [|[k' v'] o IH]; cbn; [auto|].
  intros Hnd. inversion Hnd as [|? ? Hnotin Hnd']; subst.
  destruct (k' =? k); cbn; [assumption|].
  constructor; [|auto]. intros Hin. apply Hnotin.
  eapply keys_delete_incl; eauto.
Qed.

Lemma get_delete_same k o :
  NoDup (Obj.keys o) -> Obj.get k (Obj.delete k o) = None.
Proof.
  intros Hnd. apply get_None_keys. rewrite delete_filter by assumption.
  unfold Obj.keys. rewrite in_map_iff. intros [[k0 v0] [E Hin]].
  cbn in E; subst. apply filter_In in Hin. cbn in Hin.
  rewrite String.eqb_refl in Hin. destruct Hin; discriminate.
Qed.

Lemma get_delete_other k k' o :
  k <> k' -> Obj.get k' (Obj.delete k o) = Obj.get k' o.
Proof.
  intros Hne. induction o as [|[k0 v0] o IH]; cbn; [reflexivity|].
  destruct (String.eqb_spec k0 k) as [->|Hne0]; cbn.
  - destruct (String.eqb_spec k k'); [contradiction | reflexivity].
  - now rewrite IH.
Qed.

(** An assignment to a missing key adds one entry and keeps the others in
    their order. *)
Lemma insert_index_split n k v o :
  exists o1 o2, o = o1 ++ o2 /\ Obj.insert_index n k v o = o1 ++ (k, v) :: o2.
Proof.
  induction o as [|[k' v'] o IH]; cbn.
  - exists [], []. auto.
  - destruct (Obj.array_index k') as [n'|].
    + destruct (n' <? n)%N.
      * destruct IH as (o1 & o2 & E1 & E2).
        exists ((k', v') :: o1), o2. cbn. now rewrite E2, <- E1.
      * exists [], ((k', v') :: o). auto.
    + exists [], ((k', v') :: o). auto.
Qed.

Lemma set_fresh_split k v o :
  Obj.get k o = None ->
  exists o1 o2, o = o1 ++ o2 /\ Obj.set k v o = o1 ++ (k, v) :: o2.
Proof.
  intros H. unfold Obj.set, Obj.has. rewrite H.
  destruct (Obj.array_index k) as [n|].
  - apply insert_index_split.
  - exists o, []. rewrite app_nil_r. auto.
Qed.

Lemma set_present k v v0 o :
  Obj.get k o = Some v0 -> Obj.set k v o = Obj.modify k (fun _ => v) o.
Proof. intros H. unfold Obj.set, Obj.has. now rewrite H. Qed.

(** A key that is not an array index goes last: creation order. *)
Lemma set_fresh_last k v o :
  Obj.get k o = None -> Obj.array_index k = None ->
  Obj.set k v o = o ++ [(k, v)].
Proof. intros H1 H2. unfold Obj.set, Obj.has. now rewrite H1, H2. Qed.

Lemma get_set_same k v o : Obj.get k (Obj.set k v o) = Some v.
Proof.
  destruct (Obj.get k o) as [v0|] eqn:E.
  - rewrite (set_present _ _ _ _ E), get_modify_same, E. reflexivity.
  - destruct (set_fresh_split k v o E) as (o1 & o2 & E1 & ->).
    rewrite get_app_fresh; cbn.
    + now rewrite String.eqb_refl.
    + apply get_None_keys in E. rewrite E1, keys_app, in_app_iff in E. tauto.
Qed.

Lemma get_set_other k k' v o :
  k <> k' -> Obj.get k' (Obj.set k v o) = Obj.get k' o.
Proof.
  intros Hne. destruct (Obj.get k o) as [v0|] eqn:E.
  - rewrite (set_present _ _ _ _ E). now apply get_modify_other.
  - destruct (set_fresh_split k v o E) as (o1 & o2 & E1 & ->). subst o.
    clear E. induction o1 as [|[k0 v0] o1 IH]; cbn.
    + destruct (String.eqb_spec k k'); [contradiction | reflexivity].
    + now rewrite IH.
Qed.

Lemma NoDup_keys_set k v o :
  NoDup (Obj.keys o) -> NoDup (Obj.keys (Obj.set k v o)).
Proof.
  intros Hnd. destruct (Obj.get k o) as [v0|] eqn:E.
  - now rewrite (set_present _ _ _ _ E), keys_modify.
  - destruct (set_fresh_split k v o E) as (o1 & o2 & E1 & ->).
    apply get_None_keys in E. subst o.
    rewrite keys_app in *. cbn.
    apply NoDup_Add with (a := k) (l := Obj.keys o1 ++ Obj.keys o2).
    + apply Add_app.
    + constructor; assumption.
Qed.

End ObjFacts.

(** * What the relay does *)

Lemma world_eta w : mkWorld (users_ w) (written w) = w.
Proof. now destruct w. Qed.

Lemma sendMessage_known user_id data user w :
  Obj.get user_id (users_ w) = Some user ->
  sendMessage user_id data w =
  (Ok tt, mkWorld (Obj.modify user_id (deliver data) (users_ w))
                  (written w ++ delivery data user)).
Proof.
  intros Hget.
  unfold sendMessage, catch, enqueueMessage, sendQueue, bind, get_users,
    put_users, writeJsonResponse, write, ret, deliver, delivery.
  cbn. rewrite Hget. cbn. rewrite get_modify_same, Hget. cbn.
  destruct (User.connection user) as [connection|] eqn:Hc.
  - destruct (User.queue user ++ [data]) as [|m q] eqn:Hq.
    + destruct (User.queue user); discriminate.
    + cbn. rewrite modify_modify. f_equal. f_equal.
      apply modify_at with (v := user); [assumption|].
      now rewrite Hc.
  - cbn. rewrite app_nil_r. f_equal. f_equal.
    apply modify_at with (v := user); [assumption|].
    now rewrite Hc.
Qed.

Lemma sendMessage_unknown user_id data w :
  Obj.get user_id (users_ w) = None ->
  sendMessage user_id data w = (Ok tt, w).
Proof.
  intros Hget.
  unfold sendMessage, catch, enqueueMessage, bind, get_users, throw,
    console_error, ret.
  cbn. now rewrite Hget.
Qed.

Lemma deliver_connection data user : User.connection (deliver data user) = None.
Proof. unfold deliver. destruct (User.connection user) eqn:E; cbn; auto. Qed.

Lemma deliver_name data user : User.name (deliver data user) = User.name user.
Proof. unfold deliver. now destruct (User.connection user). Qed.

Lemma deliver_id data user : User.id (deliver data user) = User.id user.
Proof. unfold deliver. now destruct (User.connection user). Qed.

Lemma keys_broadcast data exclude users :
  Obj.keys (broadcast data exclude users) = Obj.keys users.
Proof.
  unfold broadcast, Obj.keys. rewrite map_map. apply map_ext.
  intros [k u]; cbn. now destruct (excluded exclude k).
Qed.

Lemma broadcast_app data exclude o1 o2 :
  broadcast data exclude (o1 ++ o2) =
  broadcast data exclude o1 ++ broadcast data exclude o2.
Proof. apply map_app. Qed.

Lemma broadcast_replies_app data exclude o1 o2 :
  broadcast_replies data exclude (o1 ++ o2) =
  broadcast_replies data exclude o1 ++ broadcast_replies data exclude o2.
Proof. apply flat_map_app. Qed.

Lemma get_broadcast data exclude user_id users :
  Obj.get user_id (broadcast data exclude users) =
  option_map (fun user => if excluded exclude user_id then user
                          else deliver data user)
    (Obj.get user_id users).
Proof.
  induction users as [|[k u] users IH]; cbn; [reflexivity|].
  destruct (excluded exclude k) eqn:Hex; cbn;
    (destruct (String.eqb_spec k user_id) as [->|Hne]; cbn;
     [now rewrite Hex | exact IH]).
Qed.

Module ServerFacts.
Import Server.

(** The loop of [sendMessageToAll], entered with the users [done] behind
    it and the users [todo] ahead. *)
Lemma sendMessageToAll_loop data exclude todo : forall done out,
  NoDup (Obj.keys (done ++ todo)) ->
  forEach (Obj.keys todo) (fun user_id =>
    users <- get_users ;;
    if Obj.has user_id users then
      match exclude with
      | Some ex =>
          if user_id =? ex then ret true
          else sendMessage user_id data ;; ret true
      | None => sendMessage user_id data ;; ret true
      end
    else ret true)
    (mkWorld (done ++ todo) out) =
  (Ok tt, mkWorld (done ++ broadcast data exclude todo)
                  (out ++ broadcast_replies data exclude todo)).
Proof.
  induction todo as [|[k u] todo IH]; intros done out Hnd.
  - cbn. now rewrite !app_nil_r.
  - assert (Hfresh : ~ In k (Obj.keys done)).
    { rewrite keys_app in Hnd. cbn in Hnd.
      apply NoDup_remove_2 in Hnd. rewrite in_app_iff in Hnd. tauto. }
    assert (Hget : Obj.get k (done ++ (k, u) :: todo) = Some u).
    { rewrite get_app_fresh by assumption. cbn. now rewrite String.eqb_refl. }
    assert (Hnd' : NoDup (Obj.keys ((done ++ [(k, u)]) ++ todo))).
    { now rewrite <- app_assoc. }
    cbn [Obj.keys map fst forEach].
    unfold bind at 1. unfold bind at 1. unfold get_users at 1.
    cbn [users_]. unfold Obj.has. rewrite Hget.
    assert (Hsend :
      (sendMessage k data ;; ret true) (mkWorld (done ++ (k, u) :: todo) out)
      = (Ok true, mkWorld ((done ++ [(k, deliver data u)]) ++ todo)
                          (out ++ delivery data u))).
    { unfold bind. rewrite (sendMessage_known k data u) by exact Hget.
      cbn. rewrite modify_app_fresh by assumption. cbn.
      rewrite String.eqb_refl. now rewrite <- app_assoc. }
    assert (Hnd'' : NoDup (Obj.keys ((done ++ [(k, deliver data u)]) ++ todo))).
    { rewrite <- app_assoc. cbn. rewrite keys_app in *. exact Hnd. }
    destruct exclude as [ex|]; cbn [excluded].
    + destruct (String.eqb_spec k ex) as [->|Hne].
      * cbn [ret]. change (done ++ (ex, u) :: todo)
          with (done ++ [(ex, u)] ++ todo).
        rewrite app_assoc. rewrite (IH _ _ Hnd').
        cbn [broadcast map fst snd excluded broadcast_replies flat_map].
        rewrite String.eqb_refl. cbn. now rewrite <- app_assoc.
      * rewrite Hsend. rewrite (IH _ _ Hnd'').
        cbn [broadcast map fst snd excluded broadcast_replies flat_map].
        destruct (String.eqb_spec k ex); [contradiction|].
        now rewrite <- !app_assoc.
    + rewrite Hsend. rewrite (IH _ _ Hnd'').
      cbn [broadcast map fst snd excluded broadcast_replies flat_map].
      now rewrite <- !app_assoc.
Qed.

(** [sendMessageToAll]: every user but the excluded one gets the payload
    enqueued and a delivery attempt. *)
Lemma sendMessageToAll_spec data exclude w :
  NoDup (Obj.keys (users_ w)) ->
  sendMessageToAll data exclude w =
  (Ok tt, mkWorld (broadcast data exclude (users_ w))
                  (written w ++ broadcast_replies data exclude (users_ w))).
Proof.
  intros Hnd. unfold sendMessageToAll.
  unfold bind at 1. unfold get_users at 1.
  destruct w as [users out]. cbn [users_ written] in *.
  exact (sendMessageToAll_loop data exclude users [] out Hnd).
Qed.

End ServerFacts.

(** * The public user list *)

Lemma generatePublicUser_known user_id user w :
  Obj.get user_id (users_ w) = Some user ->
  generatePublicUser user_id w = (Ok (public user), w).
Proof.
  intros H. unfold generatePublicUser, bind, get_users. now rewrite H.
Qed.

Lemma generatePublicUsers_known user_ids w :
  (forall k, In k user_ids -> Obj.get k (users_ w) <> None) ->
  generatePublicUsers user_ids w = (Ok (map (public_at (users_ w)) user_ids), w).
Proof.
  unfold generatePublicUsers.
  induction user_ids as [|k ids IH]; intros Hin; cbn; [reflexivity|].
  unfold bind at 1.
  destruct (Obj.get k (users_ w)) as [user|] eqn:Hget.
  - rewrite (generatePublicUser_known k user w Hget).
    unfold bind at 1. rewrite IH by (intros; apply Hin; now right).
    unfold ret, public_at. now rewrite Hget.
  - exfalso. now apply (Hin k); [left|].
Qed.

Lemma public_at_entries (p : string -> bool) users :
  NoDup (Obj.keys users) ->
  map (public_at users) (filter p (Obj.keys users)) =
  map (fun kv => public (snd kv)) (filter (fun kv => p (fst kv)) users).
Proof.
  induction users as [|[k u] users IH]; intros Hnd; [reflexivity|].
  inversion Hnd as [|? ? Hnotin Hnd']; subst.
  assert (Hext : map (public_at ((k, u) :: users)) (filter p (Obj.keys users))
                 = map (public_at users) (filter p (Obj.keys users))).
  { apply map_ext_in. intros k' Hin. apply filter_In in Hin. destruct Hin as [Hin _].
    unfold public_at. cbn.
    destruct (String.eqb_spec k k') as [->|]; [contradiction | reflexivity]. }
  specialize (IH Hnd'). unfold Obj.keys in *.
  cbn [map fst filter snd]. destruct (p k); cbn [map snd].
  - rewrite Hext, IH. unfold public_at at 1. cbn.
    now rewrite String.eqb_refl.
  - now rewrite Hext, IH.
Qed.

Lemma generatePublicUsers_filter (p : string -> bool) w :
  NoDup (Obj.keys (users_ w)) ->
  generatePublicUsers (filter p (Obj.keys (users_ w))) w =
  (Ok (map (fun kv => public (snd kv))
         (filter (fun kv => p (fst kv)) (users_ w))), w).
Proof.
  intros Hnd. rewrite generatePublicUsers_known.
  - now rewrite public_at_entries.
  - intros k Hin. apply filter_In in Hin. now apply get_In_keys.
Qed.

Lemma generatePublicUsers_all w :
  NoDup (Obj.keys (users_ w)) ->
  generatePublicUsers (Obj.keys (users_ w)) w =
  (Ok (map public (Obj.values (users_ w))), w).
Proof.
  intros Hnd.
  pose proof (generatePublicUsers_filter (fun _ => true) w Hnd) as H.
  rewrite !forallb_filter_id in H by (apply forallb_forall; reflexivity).
  rewrite H. unfold Obj.values. now rewrite map_map.
Qed.

(** ** [sortUsersByName] sorts, and only reorders *)

Lemma insert_sorted_perm a l : Permutation (a :: l) (insert_sorted a l).
Proof.
  induction l as [|b l IH]; cbn; [reflexivity|].
  destruct (name_le a b); [reflexivity|].
  rewrite perm_swap. now constructor.
Qed.

Lemma sortUsersByName_perm users : Permutation users (sortUsersByName users).
Proof.
  induction users as [|a l IH]; cbn; [constructor|].
  rewrite <- insert_sorted_perm. now constructor.
Qed.

Lemma name_le_total a b : name_le a b = false -> name_le b a = true.
Proof.
  unfold name_le. intros H.
  destruct (String.leb_total (Js.toUpperCase (pub_name a))
              (Js.toUpperCase (pub_name b))) as [E|E]; congruence.
Qed.

Lemma insert_sorted_sorted a l :
  Sorted (fun x y => name_le x y = true) l ->
  Sorted (fun x y => name_le x y = true) (insert_sorted a l).
Proof.
  induction l as [|b l IH]; cbn; intros Hs.
  - repeat constructor.
  - destruct (name_le a b) eqn:E.
    + constructor; [assumption | now constructor].
    + inversion Hs as [|? ? Hs' Hhd]; subst.
      constructor; [now apply IH|].
      destruct l as [|c l]; cbn.
      * constructor. now apply name_le_total.
      * destruct (name_le a c); constructor.
        -- now apply name_le_total.
        -- now inversion Hhd.
  Qed.

Lemma sortUsersByName_sorted users :
  Sorted (fun x y => name_le x y = true) (sortUsersByName users).
Proof.
  induction users as [|a l IH]; cbn; [constructor|].
  now apply insert_sorted_sorted.
Qed.

(** * Running handlers *)

Lemma bind_ok {A B} (m : M A) (f : A -> M B) w a w' :
  m w = (Ok a, w') -> (x <- m ;; f x) w = f a w'.
Proof. intros H. unfold bind. now rewrite H. Qed.

Lemma bind_thrown {A B} (m : M A) (f : A -> M B) w e w' :
  m w = (Thrown e, w') -> (x <- m ;; f x) w = (Thrown e, w').
Proof. intros H. unfold bind. now rewrite H. Qed.

Lemma required_ok v s msg w :
  v = Some s -> s <> EmptyString -> required v msg w = (Ok s, w).
Proof.
  intros -> Hs. unfold required, Js.truthy.
  destruct (String.eqb_spec s EmptyString); [contradiction | reflexivity].
Qed.

Lemma required_missing v msg w :
  Js.truthy_opt v = false ->
  required v msg w = (Thrown (errorWithCode 400 msg), w).
Proof.
  unfold required, Js.truthy_opt. destruct v as [s|]; [|reflexivity].
  now intros ->.
Qed.

Lemma required_cases v msg w :
  (exists s, v = Some s /\ s <> EmptyString /\ required v msg w = (Ok s, w)) \/
  (Js.truthy_opt v = false /\
   required v msg w = (Thrown (errorWithCode 400 msg), w)).
Proof.
  destruct (Js.truthy_opt v) eqn:E.
  - left. destruct v as [s|]; [|discriminate]. exists s.
    assert (s <> EmptyString).
    { intros ->. discriminate. }
    auto using required_ok.
  - right. auto using required_missing.
Qed.

Lemma writeJsonResponse_run response obj w :
  writeJsonResponse response obj w =
  (Ok tt, mkWorld (users_ w)
            (written w ++ [(response, match obj with
                                      | Some r => r
                                      | None => Empty
                                      end)])).
Proof. reflexivity. Qed.

Lemma assign_user_run id user w :
  assign_user id user w = (Ok tt, mkWorld (Obj.set id user (users_ w)) (written w)).
Proof. reflexivity. Qed.

Lemma delete_user_run id w :
  delete_user id w = (Ok tt, mkWorld (Obj.delete id (users_ w)) (written w)).
Proof. reflexivity. Qed.

Lemma release_run user w :
  release user w =
  (Ok tt, mkWorld (users_ w)
            (written w ++ match User.connection user with
                          | Some connection =>
                              [(Connection.response connection, Empty)]
                          | None => []
                          end)).
Proof.
  unfold release. destruct (User.connection user); [reflexivity|].
  unfold ret. now rewrite app_nil_r, world_eta.
Qed.

(** ** [registerRoute] of [server.js] *)

Module RegisterFacts.
Import Server.

Lemma register_id_run connection w :
  match Obj.get "id" (Connection.query connection) with
  | Some id => if Js.truthy id then ret id else uuidv4 connection
  | None => uuidv4 connection
  end w = (Ok (register_id connection), w).
Proof.
  unfold register_id, uuidv4, ret.
  destruct (Obj.get "id" (Connection.query connection)) as [i|]; [|reflexivity].
  now destruct (Js.truthy i).
Qed.

Lemma registerRoute_rejects connection name w :
  register_name connection = Some name -> name <> EmptyString ->
  name_in_use (register_id connection) name (users_ w) = true ->
  registerRoute connection w =
  (Thrown (errorWithCode 400 "user name already in use"), w).
Proof.
  intros Hname Hne Huse. unfold registerRoute.
  rewrite (bind_ok _ _ _ _ _ (required_ok _ _ _ w Hname Hne)).
  rewrite (bind_ok _ _ _ _ _ (register_id_run connection w)).
  unfold bind at 1, get_users at 1.
  unfold name_in_use in Huse. now rewrite Huse.
Qed.

Lemma registerRoute_accepts connection name w :
  NoDup (Obj.keys (users_ w)) ->
  register_name connection = Some name -> name <> EmptyString ->
  name_in_use (register_id connection) name (users_ w) = false ->
  registerRoute connection w =
  (Ok tt, mkWorld (register_users connection name (users_ w))
                  (written w ++ register_written connection name (users_ w))).
Proof.
  intros Hnd Hname Hne Huse. unfold registerRoute.
  rewrite (bind_ok _ _ _ _ _ (required_ok _ _ _ w Hname Hne)).
  rewrite (bind_ok _ _ _ _ _ (register_id_run connection w)).
  unfold bind at 1, get_users at 1.
  unfold name_in_use in Huse. rewrite Huse.
  rewrite (bind_ok _ _ _ _ _
             (generatePublicUsers_filter
                (fun user_id => negb (register_id connection =? user_id)) w Hnd)).
  rewrite (bind_ok _ _ _ _ _ (writeJsonResponse_run _ _ _)).
  rewrite (bind_ok _ _ _ _ _ (assign_user_run _ _ _)).
  unfold register_users, register_written, register_announces,
    register_reply, register_event, register_listing, register_self,
    register_old_name, registered_record.
  destruct (Obj.get (register_id connection) (users_ w)) as [user|] eqn:Hget;
    cbn [Js.truthy_opt].
  - destruct (Js.truthy (User.name user)) eqn:Ht; cbn [negb orb].
    + destruct (User.name user =? name) eqn:Hsame; cbn [negb when].
      * reflexivity.
      * rewrite ServerFacts.sendMessageToAll_spec
          by (cbn [users_]; now apply NoDup_keys_set).
        cbn [users_ written]. now rewrite <- app_assoc.
    + cbn [when].
      rewrite ServerFacts.sendMessageToAll_spec
        by (cbn [users_]; now apply NoDup_keys_set).
      cbn [users_ written]. now rewrite <- app_assoc.
  - cbn [negb orb when].
    rewrite ServerFacts.sendMessageToAll_spec
      by (cbn [users_]; now apply NoDup_keys_set).
    cbn [users_ written]. now rewrite <- app_assoc.
Qed.

End RegisterFacts.

(** ** The other routes of [server.js] *)

Lemma sendMessage_run user_id data w :
  sendMessage user_id data w =
  (Ok tt, mkWorld (Obj.modify user_id (deliver data) (users_ w))
            (written w ++ match Obj.get user_id (users_ w) with
                          | Some user => delivery data user
                          | None => []
                          end)).
Proof.
  destruct (Obj.get user_id (users_ w)) as [user|] eqn:Hget.
  - now apply sendMessage_known.
  - rewrite sendMessage_unknown, modify_absent, app_nil_r, world_eta; auto.
Qed.

Lemma broadcast_absent data id users :
  ~ In id (Obj.keys users) ->
  broadcast data (Some id) users = broadcast data None users /\
  broadcast_replies data (Some id) users = broadcast_replies data None users.
Proof.
  intros Hn.
  assert (Hk : forall kv, In kv users -> excluded (Some id) (fst kv) = false).
  { intros [k u] Hin. cbn. destruct (String.eqb_spec k id) as [->|]; [|reflexivity].
    exfalso. apply Hn. change id with (fst (id, u)). now apply in_map. }
  split.
  - unfold broadcast. apply map_ext_in. intros kv Hin. now rewrite (Hk kv Hin).
  - unfold broadcast_replies. rewrite !flat_map_concat_map. f_equal.
    apply map_ext_in. intros kv Hin. now rewrite (Hk kv Hin).
Qed.

Module RouteFacts.
Import Server.

Lemma unregisterRoute_unknown connection id w :
  Obj.get "unregister" (Connection.query connection) = Some id -> id <> EmptyString ->
  Obj.get id (users_ w) = None ->
  unregisterRoute connection w =
  (Ok tt, mkWorld (users_ w)
            (written w ++ [(Connection.response connection, Empty)])).
Proof.
  intros Hq Hid Hget. unfold unregisterRoute.
  rewrite (bind_ok _ _ _ _ _ (required_ok _ _ _ w Hq Hid)).
  unfold bind at 1, get_users at 1. rewrite Hget. reflexivity.
Qed.

Lemma unregisterRoute_known connection id user w :
  NoDup (Obj.keys (users_ w)) ->
  Obj.get "unregister" (Connection.query connection) = Some id -> id <> EmptyString ->
  Obj.get id (users_ w) = Some user ->
  unregisterRoute connection w =
  (Ok tt,
   mkWorld
     (broadcast (unregister_event id user (users_ w)) None
        (Obj.delete id (users_ w)))
     (written w ++ released user
      ++ broadcast_replies (unregister_event id user (users_ w)) None
           (Obj.delete id (users_ w))
      ++ [(Connection.response connection, Empty)])).
Proof.
  intros Hnd Hq Hid Hget. unfold unregisterRoute.
  rewrite (bind_ok _ _ _ _ _ (required_ok _ _ _ w Hq Hid)).
  unfold bind at 1, get_users at 1. rewrite Hget.
  assert (Hnd' : NoDup (Obj.keys (Obj.delete id (users_ w))))
    by now apply NoDup_keys_delete.
  assert (Hgone : ~ In id (Obj.keys (Obj.delete id (users_ w)))).
  { apply get_None_keys. now apply get_delete_same. }
  unfold bind at 1.
  rewrite (bind_ok _ _ _ _ _ (generatePublicUser_known _ _ _ Hget)).
  rewrite (bind_ok _ _ _ _ _ (delete_user_run _ _)).
  unfold bind at 1, get_users at 1. cbn [users_].
  rewrite (bind_ok _ _ _ _ _
             (generatePublicUsers_all
                (mkWorld (Obj.delete id (users_ w)) (written w)) Hnd')).
  rewrite (bind_ok _ _ _ _ _ (release_run _ _)).
  rewrite ServerFacts.sendMessageToAll_spec by exact Hnd'.
  cbn [users_ written].
  destruct (broadcast_absent
              (UnregisterMsg (public user)
                 (map public (Obj.values (Obj.delete id (users_ w)))))
              id _ Hgone) as [-> ->].
  rewrite writeJsonResponse_run. cbn [users_ written].
  unfold unregister_event, released. now rewrite <- !app_assoc.
Qed.

Lemma waitRoute_unknown connection id w :
  Obj.get "wait" (Connection.query connection) = Some id -> id <> EmptyString ->
  Obj.get id (users_ w) = None ->
  waitRoute connection w = (Thrown (errorWithCode 400 "user not found"), w).
Proof.
  intros Hq Hid Hget. unfold waitRoute.
  rewrite (bind_ok _ _ _ _ _ (required_ok _ _ _ w Hq Hid)).
  unfold bind at 1, get_users at 1. now rewrite Hget.
Qed.

(** A queue with messages is handed over at once. *)
Lemma waitRoute_drains connection id user w :
  Obj.get "wait" (Connection.query connection) = Some id -> id <> EmptyString ->
  Obj.get id (users_ w) = Some user -> User.queue user <> [] ->
  waitRoute connection w =
  (Ok tt, mkWorld (Obj.modify id (User.set_queue []) (users_ w))
            (written w ++ [(Connection.response connection,
                            Messages (User.queue user))])).
Proof.
  intros Hq Hid Hget Hqueue. unfold waitRoute.
  rewrite (bind_ok _ _ _ _ _ (required_ok _ _ _ w Hq Hid)).
  unfold bind at 1, get_users at 1. rewrite Hget.
  destruct (User.queue user) as [|m q] eqn:E; [contradiction|].
  rewrite (bind_ok _ _ _ _ _ (writeJsonResponse_run _ _ _)). reflexivity.
Qed.

(** With an empty queue the response is parked, and the response parked
    before it is given up. *)
Lemma waitRoute_parks connection id user w :
  Obj.get "wait" (Connection.query connection) = Some id -> id <> EmptyString ->
  Obj.get id (users_ w) = Some user -> User.queue user = [] ->
  waitRoute connection w =
  (Ok tt,
   mkWorld (Obj.modify id (User.set_connection (Some connection)) (users_ w))
     (written w ++ released user)).
Proof.
  intros Hq Hid Hget Hqueue. unfold waitRoute.
  rewrite (bind_ok _ _ _ _ _ (required_ok _ _ _ w Hq Hid)).
  unfold bind at 1, get_users at 1. rewrite Hget, Hqueue.
  rewrite (bind_ok _ _ _ _ _ (release_run _ _)). reflexivity.
Qed.

(** [relay] either fails without a trace or is one [sendMessage]. *)
Lemma relay_outcome id name payload w :
  (exists e, relay id name payload w = (Thrown e, w)) \/
  (exists from to,
      Obj.get id (users_ w) = Some from /\
      In to (Obj.values (users_ w)) /\ User.name to = name /\
      relay id name payload w =
      sendMessage (User.id to) (payload (User.name from)) w).
Proof.
  assert (Hrun : relay id name payload w =
    match Obj.get id (users_ w) with
    | None => (Thrown (errorWithCode 400 "user id not found"), w)
    | Some from =>
        match find (fun kv => User.name (snd kv) =? name) (users_ w) with
        | Some kv => sendMessage (User.id (snd kv)) (payload (User.name from)) w
        | None => (Thrown (errorWithCode 400 "user name not found"), w)
        end
    end).
  { unfold relay, findUserByName, bind, get_users, ret.
    destruct (Obj.get id (users_ w)); [|reflexivity].
    destruct (find _ (users_ w)) as [[k to]|]; reflexivity. }
  rewrite Hrun.
  destruct (Obj.get id (users_ w)) as [from|] eqn:Hfrom;
    [|left; eexists; reflexivity].
  destruct (find (fun kv => User.name (snd kv) =? name) (users_ w))
    as [[k to]|] eqn:Hfind; cbn [snd].
  - right. exists from, to. apply find_some in Hfind.
    destruct Hfind as [Hin Hname]. cbn in Hname.
    apply String.eqb_eq in Hname.
    repeat split; auto.
    unfold Obj.values. change to with (snd (k, to)). now apply in_map.
  - left. eexists; reflexivity.
Qed.

End RouteFacts.

(** * The registry invariant *)

Section Preservation.
Variable P : string * User.t -> Prop.

Lemma Forall_modify k f users :
  Forall P users ->
  (forall v, Obj.get k users = Some v -> P (k, v) -> P (k, f v)) ->
  Forall P (Obj.modify k f users).
Proof.
  induction users as [|[k' v'] users IH]; cbn; intros HP Hf; [constructor|].
  inversion HP as [|? ? Hhd Htl]; subst.
  destruct (String.eqb_spec k' k) as [->|Hne].
  - constructor; [|assumption]. now apply Hf.
  - constructor; [assumption|]. now apply IH.
Qed.

Lemma Forall_broadcast data exclude users :
  Forall P users ->
  (forall k v, P (k, v) -> P (k, deliver data v)) ->
  Forall P (broadcast data exclude users).
Proof.
  intros HP Hf. unfold broadcast. apply Forall_map.
  eapply Forall_impl; [|exact HP].
  intros [k v] H; cbn. destruct (excluded exclude k); auto.
Qed.

Lemma Forall_delete k users : Forall P users -> Forall P (Obj.delete k users).
Proof.
  rewrite !Forall_forall. intros HP kv Hin. apply HP.
  eapply In_delete; eauto.
Qed.

Lemma Forall_set k v users :
  Forall P users -> P (k, v) -> Forall P (Obj.set k v users).
Proof.
  intros HP Hv. destruct (Obj.get k users) as [v0|] eqn:E.
  - rewrite (set_present _ _ _ _ E). apply Forall_modify; auto.
  - destruct (set_fresh_split k v users E) as (o1 & o2 & E1 & ->). subst users.
    apply Forall_app in HP. destruct HP as [H1 H2].
    apply Forall_app. split; [assumption | now constructor].
Qed.

End Preservation.

Lemma names_modify k f users :
  (forall v, User.name (f v) = User.name v) ->
  names (Obj.modify k f users) = names users.
Proof.
  intros Hf. unfold names, Obj.values.
  induction users as [|[k' v'] users IH]; cbn; [reflexivity|].
  destruct (k' =? k); cbn; [now rewrite Hf | now rewrite IH].
Qed.

Lemma names_broadcast data exclude users :
  names (broadcast data exclude users) = names users.
Proof.
  unfold names, Obj.values, broadcast. rewrite !map_map.
  apply map_ext. intros [k v]; cbn.
  destruct (excluded exclude k); cbn; [reflexivity | apply deliver_name].
Qed.

Lemma names_delete k users :
  NoDup (names users) -> NoDup (names (Obj.delete k users)).
Proof.
  unfold names, Obj.values.
  induction users as [|[k' v'] users IH]; cbn; intros Hnd; [constructor|].
  inversion Hnd as [|? ? Hnotin Hnd']; subst.
  destruct (k' =? k); cbn; [assumption|].
  constructor; [|auto].
  intros Hin. apply Hnotin. rewrite map_map in *.
  apply in_map_iff in Hin. destruct Hin as [kv [E Hin]].
  apply in_map_iff. exists kv. split; [assumption|]. eapply In_delete; eauto.
Qed.

(** No entry stored under another id carries [name]. *)
Lemma name_in_use_false id name users :
  name_in_use id name users = false <->
  (forall k u, In (k, u) users -> User.name u = name -> k = id).
Proof.
  unfold name_in_use. split.
  - intros H k u Hin Hname.
    destruct (String.eqb_spec id k) as [->|Hne]; [reflexivity|].
    assert (existsb (fun kv => (User.name (snd kv) =? name)
                               && negb (id =? fst kv)) users = true).
    { apply existsb_exists. exists (k, u). split; [assumption|]. cbn.
      rewrite Hname, String.eqb_refl. cbn.
      destruct (String.eqb_spec id k); [contradiction | reflexivity]. }
    congruence.
  - intros H. destruct (existsb _ users) eqn:E; [|reflexivity].
    apply existsb_exists in E. destruct E as [[k u] [Hin Hb]]. cbn in Hb.
    apply andb_prop in Hb. destruct Hb as [Hn Hk].
    apply String.eqb_eq in Hn. rewrite (H k u Hin Hn), String.eqb_refl in Hk.
    discriminate.
Qed.


Lemma In_names name users :
  In name (names users) <-> exists k u, In (k, u) users /\ User.name u = name.
Proof.
  unfold names, Obj.values. rewrite map_map, in_map_iff. split.
  - intros [[k u] [E Hin]]. exists k, u. auto.
  - intros (k & u & Hin & E). exists (k, u). auto.
Qed.

Lemma names_app o1 o2 : names (o1 ++ o2) = names o1 ++ names o2.
Proof. unfold names, Obj.values. now rewrite !map_app. Qed.

(** Assigning a record whose name nobody else holds keeps names distinct. *)
Lemma names_set id record users :
  NoDup (Obj.keys users) -> NoDup (names users) ->
  name_in_use id (User.name record) users = false ->
  NoDup (names (Obj.set id record users)).
Proof.
  intros Hkeys Hnames Huse. rewrite name_in_use_false in Huse.
  destruct (Obj.get id users) as [v0|] eqn:E.
  - rewrite (set_present _ _ _ _ E). clear E.
    induction users as [|[k u] users IH]; cbn; [constructor|].
    inversion Hkeys as [|? ? Hk Hkeys']; subst.
    unfold names, Obj.values in Hnames. cbn in Hnames.
    inversion Hnames as [|? ? Hn Hnames']; subst.
    destruct (String.eqb_spec k id) as [->|Hne].
    + unfold names, Obj.values. cbn. constructor; [|assumption].
      intros Hin. apply (In_names (User.name record) users) in Hin.
      destruct Hin as (k' & u' & Hin & Hname).
      assert (k' = id) by (eapply Huse; [right; exact Hin | exact Hname]).
      subst k'. apply Hk. change id with (fst (id, u')). now apply in_map.
    + assert (IH' : NoDup (names (Obj.modify id (fun _ => record) users))).
      { apply IH; auto. intros k' u' Hin. apply Huse. now right. }
      unfold names, Obj.values in *. cbn. constructor; [|assumption].
      intros Hin. apply (In_names (User.name u) (Obj.modify id _ users)) in Hin.
      destruct Hin as (k' & u' & Hin & Hname).
      assert (Hcases : In (k', u') users \/ u' = record).
      { clear - Hin. induction users as [|[k0 u0] users IHu]; cbn in *; [tauto|].
        destruct (k0 =? id); cbn in Hin.
        - destruct Hin as [Heq|Hin]; [inversion Heq; auto | auto].
        - destruct Hin as [Heq|Hin]; [auto | destruct (IHu Hin); auto]. }
      destruct Hcases as [Hin' | ->].
      * apply Hn. rewrite <- Hname. rewrite map_map.
        apply in_map_iff. exists (k', u'). auto.
      * apply Hne. eapply Huse; [left; reflexivity | now symmetry].
  - destruct (set_fresh_split id record users E) as (o1 & o2 & E1 & ->).
    subst users. rewrite names_app in *. cbn.
    apply NoDup_Add with (a := User.name record) (l := names o1 ++ names o2).
    + apply Add_app.
    + split; [assumption|].
      rewrite <- names_app. intros Hin. apply In_names in Hin.
      destruct Hin as (k' & u' & Hin & Hname).
      assert (k' = id) by (eapply Huse; eauto). subst k'.
      apply get_None_keys in E. apply E.
      change id with (fst (id, u')). now apply in_map.
Qed.

Lemma sound_deliver data k v : sound (k, v) -> sound (k, deliver data v).
Proof.
  unfold sound; cbn. intros (Hid & Hname & _).
  rewrite deliver_id, deliver_name, deliver_connection. auto.
Qed.

Lemma registered_record_name connection name users :
  User.name (registered_record connection name users) = name.
Proof.
  unfold registered_record.
  now destruct (Obj.get (register_id connection) users).
Qed.

Lemma transition_well_formed users users' :
  well_formed users -> transition users users' -> well_formed users'.
Proof.
  intros [Hkeys Hnames Hsound] Ht.
  destruct Ht as [ | user_id data | id | id user connection Hget Hq
                 | id user Hget | connection name Hname Huse ].
  - now constructor.
  - constructor.
    + now rewrite keys_modify.
    + rewrite names_modify; [assumption | apply deliver_name].
    + apply Forall_modify; [assumption|]. intros v _. apply sound_deliver.
  - constructor.
    + now rewrite keys_modify.
    + rewrite names_modify; [assumption | reflexivity].
    + apply Forall_modify; [assumption|].
      unfold sound; cbn. intros v _ (Hid & Hn & _). auto.
  - constructor.
    + now rewrite keys_modify.
    + rewrite names_modify; [assumption | reflexivity].
    + apply Forall_modify; [assumption|].
      unfold sound; cbn. intros v Hv (Hid & Hn & _).
      assert (v = user) by congruence. subst v. auto.
  - constructor.
    + rewrite keys_broadcast. now apply NoDup_keys_delete.
    + rewrite names_broadcast. now apply names_delete.
    + apply Forall_broadcast; [now apply Forall_delete|].
      intros k v. apply sound_deliver.
  - assert (Hset : well_formed
              (Obj.set (register_id connection)
                 (registered_record connection name users) users)).
    { constructor.
      - now apply NoDup_keys_set.
      - apply names_set; auto. now rewrite registered_record_name.
      - apply Forall_set; [assumption|].
        unfold registered_record.
        destruct (Obj.get (register_id connection) users) as [user|] eqn:Hget.
        + apply get_In in Hget. rewrite Forall_forall in Hsound.
          destruct (Hsound _ Hget) as (Hid & _ & Hst). cbn in Hid, Hst.
          unfold sound; cbn. auto.
        + unfold sound; cbn. auto. }
    unfold register_users. destruct (register_announces connection name users);
      [|assumption].
    destruct Hset as [Hk Hn Hs]. constructor.
    + now rewrite keys_broadcast.
    + now rewrite names_broadcast.
    + apply Forall_broadcast; [assumption|]. intros k v. apply sound_deliver.
Qed.

(** ** Every route fails cleanly or makes one transition *)

Module Outcomes.
Import Server.

Lemma registerRoute_clean : clean registerRoute.
Proof.
  intros connection w Hnd.
  destruct (required_cases (register_name connection) "user name required" w)
    as [(name & Hname & Hne & Hrun) | [_ Hrun]].
  - destruct (name_in_use (register_id connection) name (users_ w)) eqn:Huse.
    + left. eexists. now apply RegisterFacts.registerRoute_rejects with name.
    + right. eexists. split.
      * exact (RegisterFacts.registerRoute_accepts _ _ _ Hnd Hname Hne Huse).
      * cbn [users_]. now apply t_register.
  - left. eexists. unfold registerRoute. exact (bind_thrown _ _ _ _ _ Hrun).
Qed.

Lemma unregisterRoute_clean : clean unregisterRoute.
Proof.
  intros connection w Hnd.
  destruct (required_cases (Obj.get "unregister" (Connection.query connection))
              "user id required" w)
    as [(id & Hq & Hne & Hrun) | [_ Hrun]].
  - right. destruct (Obj.get id (users_ w)) as [user|] eqn:Hget.
    + eexists. split.
      * exact (RouteFacts.unregisterRoute_known _ _ _ _ Hnd Hq Hne Hget).
      * cbn [users_]. now apply t_unregister.
    + eexists. split.
      * exact (RouteFacts.unregisterRoute_unknown _ _ _ Hq Hne Hget).
      * cbn [users_]. apply t_none.
  - left. eexists. unfold unregisterRoute. exact (bind_thrown _ _ _ _ _ Hrun).
Qed.

Lemma waitRoute_clean : clean waitRoute.
Proof.
  intros connection w Hnd.
  destruct (required_cases (Obj.get "wait" (Connection.query connection))
              "user id required" w)
    as [(id & Hq & Hne & Hrun) | [_ Hrun]].
  - destruct (Obj.get id (users_ w)) as [user|] eqn:Hget.
    + right. destruct (User.queue user) as [|m q] eqn:Hqueue.
      * eexists. split.
        -- exact (RouteFacts.waitRoute_parks _ _ _ _ Hq Hne Hget Hqueue).
        -- cbn [users_]. now apply t_park with user.
      * eexists. split.
        -- apply (RouteFacts.waitRoute_drains _ _ _ _ Hq Hne Hget).
           congruence.
        -- cbn [users_]. apply t_drain.
    + left. eexists. now apply RouteFacts.waitRoute_unknown with id.
  - left. eexists. unfold waitRoute. exact (bind_thrown _ _ _ _ _ Hrun).
Qed.

(** The tail shared by the three signalling routes. *)
Lemma relay_clean id name payload response w :
  (exists e,
      (relay id name payload ;; writeJsonResponse response None) w
      = (Thrown e, w)) \/
  (exists w',
      (relay id name payload ;; writeJsonResponse response None) w
      = (Ok tt, w') /\ transition (users_ w) (users_ w')).
Proof.
  destruct (RouteFacts.relay_outcome id name payload w)
    as [[e He] | (from & to & _ & _ & _ & Hrun)].
  - left. exists e. exact (bind_thrown _ _ _ _ _ He).
  - right. rewrite sendMessage_run in Hrun.
    rewrite (bind_ok _ _ _ _ _ Hrun), writeJsonResponse_run.
    eexists. split; [reflexivity|]. cbn [users_]. apply t_relay.
Qed.

Lemma offerRoute_clean : clean offerRoute.
Proof.
  intros connection w _. unfold offerRoute.
  destruct (required_cases (Obj.get "id" (Connection.query connection))
              "user id required" w)
    as [(id & _ & _ & Hid) | [_ Hid]];
    [rewrite (bind_ok _ _ _ _ _ Hid)
    | left; eexists; exact (bind_thrown _ _ _ _ _ Hid)].
  destruct (required_cases (Obj.get "offer" (Connection.query connection))
              "offer required" w)
    as [(offer & _ & _ & Hoffer) | [_ Hoffer]];
    [rewrite (bind_ok _ _ _ _ _ Hoffer)
    | left; eexists; exact (bind_thrown _ _ _ _ _ Hoffer)].
  destruct (required_cases (Obj.get "name" (Connection.query connection))
              "user name required" w)
    as [(name & _ & _ & Hname) | [_ Hname]];
    [rewrite (bind_ok _ _ _ _ _ Hname)
    | left; eexists; exact (bind_thrown _ _ _ _ _ Hname)].
  apply relay_clean.
Qed.

Lemma answerRoute_clean : clean answerRoute.
Proof.
  intros connection w _. unfold answerRoute.
  destruct (required_cases (Obj.get "id" (Connection.query connection))
              "user id required" w)
    as [(id & _ & _ & Hid) | [_ Hid]];
    [rewrite (bind_ok _ _ _ _ _ Hid)
    | left; eexists; exact (bind_thrown _ _ _ _ _ Hid)].
  destruct (required_cases (Obj.get "answer" (Connection.query connection))
              "answer required" w)
    as [(answer & _ & _ & Hanswer) | [_ Hanswer]];
    [rewrite (bind_ok _ _ _ _ _ Hanswer)
    | left; eexists; exact (bind_thrown _ _ _ _ _ Hanswer)].
  destruct (required_cases (Obj.get "name" (Connection.query connection))
              "user name required" w)
    as [(name & _ & _ & Hname) | [_ Hname]];
    [rewrite (bind_ok _ _ _ _ _ Hname)
    | left; eexists; exact (bind_thrown _ _ _ _ _ Hname)].
  apply relay_clean.
Qed.

Lemma rejectRoute_clean : clean rejectRoute.
Proof.
  intros connection w _. unfold rejectRoute.
  destruct (required_cases (Obj.get "id" (Connection.query connection))
              "user id required" w)
    as [(id & _ & _ & Hid) | [_ Hid]];
    [rewrite (bind_ok _ _ _ _ _ Hid)
    | left; eexists; exact (bind_thrown _ _ _ _ _ Hid)].
  destruct (required_cases (Obj.get "reject" (Connection.query connection))
              "user name required" w)
    as [(name & _ & _ & Hname) | [_ Hname]];
    [rewrite (bind_ok _ _ _ _ _ Hname)
    | left; eexists; exact (bind_thrown _ _ _ _ _ Hname)].
  apply relay_clean.
Qed.

Lemma rootRoute_clean : clean rootRoute.
Proof.
  intros connection w Hnd. unfold rootRoute, dataRoutes_, dispatch.
  destruct (Obj.has "register" _); [now apply registerRoute_clean|].
  destruct (Obj.has "unregister" _); [now apply unregisterRoute_clean|].
  destruct (Obj.has "offer" _); [now apply offerRoute_clean|].
  destruct (Obj.has "answer" _); [now apply answerRoute_clean|].
  destruct (Obj.has "reject" _); [now apply rejectRoute_clean|].
  destruct (Obj.has "wait" _); [now apply waitRoute_clean|].
  left. eexists. reflexivity.
Qed.

Lemma serverHandler_transition connection w :
  NoDup (Obj.keys (users_ w)) ->
  transition (users_ w) (users_ (exec (serverHandler connection) w)).
Proof.
  intros Hnd. unfold exec, serverHandler, handle, catch.
  destruct (rootRoute_clean connection w Hnd) as [[e ->] | (w' & -> & Ht)].
  - cbn. apply t_none.
  - exact Ht.
Qed.

Lemma reachable_well_formed w : reachable w -> well_formed (users_ w).
Proof.
  induction 1 as [|w connection _ IH].
  - repeat constructor.
  - eapply transition_well_formed; [exact IH|].
    apply serverHandler_transition. apply IH.
Qed.

End Outcomes.

(** * Failures *)


(** * The long poll *)

Lemma get_sound id user users :
  well_formed users -> Obj.get id users = Some user -> sound (id, user).
Proof.
  intros [_ _ Hs] Hget. rewrite Forall_forall in Hs.
  apply Hs. now apply get_In.
Qed.

(** C4: between two requests no user has both queued messages and a parked
    response; and a payload sent to a user whose response is parked goes
    out on that response with the whole queue, after which the queue is
    empty and no response is parked. *)
Theorem queue_and_parked_response_exclude w :
  Server.reachable w ->
  (forall id user,
      Obj.get id (users_ w) = Some user ->
      User.connection user = None \/ User.queue user = []) /\
  (forall id user connection data,
      Obj.get id (users_ w) = Some user ->
      User.connection user = Some connection ->
      sendMessage id data w =
      (Ok tt,
       mkWorld
         (Obj.modify id
            (fun user => User.set_connection None (User.set_queue [] user))
            (users_ w))
         (written w ++ [(Connection.response connection,
                         Messages (User.queue user ++ [data]))]))).
Proof.
  intros Hreach. apply Outcomes.reachable_well_formed in Hreach. split.
  - intros id user Hget. now destruct (get_sound _ _ _ Hreach Hget) as (_ & _ & H).
  - intros id user connection data Hget Hc.
    rewrite (sendMessage_known id data user w Hget).
    unfold delivery. rewrite Hc. f_equal. f_equal.
    apply modify_at with (v := user); [assumption|].
    unfold deliver. now rewrite Hc.
Qed.

Lemma sendAll_queues id batch : forall user w,
  Obj.get id (users_ w) = Some user -> User.connection user = None ->
  Obj.get id (users_ (sendAll id batch w)) =
  Some (User.set_queue (User.queue user ++ batch) user).
Proof.
  induction batch as [|data batch IH]; intros user w Hget Hc; cbn.
  - rewrite app_nil_r, Hget. now destruct user.
  - unfold sendAll in IH.
    rewrite (IH (User.set_queue (User.queue user ++ [data]) user)).
    + cbn. now rewrite <- app_assoc.
    + unfold exec. rewrite sendMessage_run. cbn.
      rewrite get_modify_same, Hget. cbn. unfold deliver. now rewrite Hc.
    + exact Hc.
Qed.

(** C5: [wait] for a user with queued messages answers at once with exactly
    the queue, in the order the messages were sent, and empties it; the next
    [wait] for that user is parked and gets no messages. *)
Theorem wait_hands_over_the_queue first second id user w :
  Obj.get "wait" (Connection.query first) = Some id ->
  Obj.get "wait" (Connection.query second) = Some id ->
  id <> EmptyString ->
  Obj.get id (users_ w) = Some user ->
  User.queue user <> [] ->
  let w1 := exec (Server.waitRoute first) w in
  let w2 := exec (Server.waitRoute second) w1 in
  result (Server.waitRoute first) w = Ok tt /\
  written w1 =
    written w ++ [(Connection.response first, Messages (User.queue user))] /\
  Obj.get id (users_ w1) = Some (User.set_queue [] user) /\
  result (Server.waitRoute second) w1 = Ok tt /\
  written w2 = written w1 ++ released user /\
  Obj.get id (users_ w2) =
    Some (User.set_connection (Some second) (User.set_queue [] user)) /\
  (forall batch w0 user0,
      Obj.get id (users_ w0) = Some user0 ->
      User.connection user0 = None ->
      User.queue user0 ++ batch <> [] ->
      written (exec (Server.waitRoute first) (sendAll id batch w0)) =
      written (sendAll id batch w0)
      ++ [(Connection.response first, Messages (User.queue user0 ++ batch))]).
Proof.
  intros Hq1 Hq2 Hid Hget Hqueue w1 w2.
  assert (H1 := RouteFacts.waitRoute_drains first id user w Hq1 Hid Hget Hqueue).
  assert (Hget1 : Obj.get id (users_ w1) = Some (User.set_queue [] user)).
  { subst w1. unfold exec. rewrite H1. cbn. now rewrite get_modify_same, Hget. }
  assert (H2 := RouteFacts.waitRoute_parks second id _ w1 Hq2 Hid Hget1 eq_refl).
  repeat split.
  - unfold result. now rewrite H1.
  - subst w1. unfold exec. now rewrite H1.
  - exact Hget1.
  - unfold result. now rewrite H2.
  - subst w2. unfold exec. now rewrite H2.
  - subst w2. unfold exec. rewrite H2. cbn.
    now rewrite get_modify_same, Hget1.
  - intros batch w0 user0 Hget0 Hc0 Hne.
    pose proof (sendAll_queues id batch user0 w0 Hget0 Hc0) as Hq.
    unfold exec at 1.
    rewrite (RouteFacts.waitRoute_drains first id _ _ Hq1 Hid Hq); [reflexivity|].
    exact Hne.
Qed.

(** * Leaving *)





(** * What [server.js] guarantees where the earlier version does not *)

Module ServerGuarantees.
Import Server.



(** A second [wait] answers the parked one with an empty body and takes
    its place. *)
Lemma wait_supersedes second id user parked w :
  Obj.get "wait" (Connection.query second) = Some id -> id <> EmptyString ->
  Obj.get id (users_ w) = Some user ->
  User.queue user = [] -> User.connection user = Some parked ->
  waitRoute second w =
  (Ok tt,
   mkWorld (Obj.modify id (User.set_connection (Some second)) (users_ w))
     (written w ++ [(Connection.response parked, Empty)])).
Proof.
  intros Hq Hid Hget Hqueue Hparked.
  rewrite (RouteFacts.waitRoute_parks _ _ _ _ Hq Hid Hget Hqueue).
  unfold released. now rewrite Hparked.
Qed.

(** Names stay distinct. *)
Lemma names_unique w : reachable w -> NoDup (names (users_ w)).
Proof. intros H. now destruct (Outcomes.reachable_well_formed w H). Qed.


End ServerGuarantees.

(** * The earlier version, [intercom_server.js], on concrete requests *)

(** C1: in [intercom_server.js] the loop of [sendMessageToAll] returns at
    the excluded id instead of skipping it: with Alice registered before
    Bob, a broadcast that excludes Alice never reaches Bob, neither when
    called on that registry nor when Alice renames herself; the loop of
    [server.js] reaches him in both cases. The third version has the loop
    of [intercom_server.js]. *)
Theorem intercom_broadcast_stops_at_excluded :
  Obj.keys (users_ alice_and_bob) = ["u1"; "u2"] /\
  queue_of "u2" alice_and_bob = Some [] /\
  queue_of "u2"
    (exec (IntercomServer.sendMessageToAll renamed (Some "u1")) alice_and_bob)
    = Some [] /\
  queue_of "u2"
    (exec (Server.sendMessageToAll renamed (Some "u1")) alice_and_bob)
    = Some [renamed] /\
  serve IntercomServer.serverHandler [alice_joins; bob_joins] empty_world
    = alice_and_bob /\
  queue_of "u2" (exec (IntercomServer.serverHandler alice_renames) alice_and_bob)
    = Some [] /\
  queue_of "u2" (exec (Server.serverHandler alice_renames) alice_and_bob)
    = Some [renamed] /\
  serve LoaderServer.serverHandler [alice_joins; bob_joins] empty_world
    = alice_and_bob /\
  queue_of "u2" (exec (LoaderServer.serverHandler alice_renames) alice_and_bob)
    = Some [].
Proof. repeat split; vm_compute; reflexivity. Qed.

(** C2: in [intercom_server.js] a second [wait] replaces the parked
    response without answering it: after Alice polls on response 2 and
    again on response 3, response 3 is parked and response 2 has received
    nothing and never will; [server.js] answers response 2 with an empty
    body. *)
Theorem intercom_wait_forgets_parked_response :
  let requests := [alice_joins; alice_waits 2; alice_waits 3] in
  let old := serve IntercomServer.serverHandler requests empty_world in
  let new := serve Server.serverHandler requests empty_world in
  option_map User.connection (Obj.get "u1" (users_ old))
    = Some (Some (alice_waits 3)) /\
  map fst (written old) = [1%nat] /\
  users_ new = users_ old /\
  written new = written old ++ [(2%nat, Empty)].
Proof. repeat split; vm_compute; reflexivity. Qed.

(** C3: [intercom_server.js] checks the name only when the id is new:
    Bob can register again under Alice's name, and the registry then holds
    two users called "alice" (in the third version too); [server.js]
    refuses the request and changes nothing. *)
Theorem intercom_rename_takes_a_held_name :
  let old := exec (IntercomServer.serverHandler bob_takes_alice) alice_and_bob in
  let mid := exec (LoaderServer.serverHandler bob_takes_alice) alice_and_bob in
  let new := exec (Server.serverHandler bob_takes_alice) alice_and_bob in
  name_of "u1" old = Some "alice" /\
  name_of "u2" old = Some "alice" /\
  names (users_ old) = ["alice"; "alice"] /\
  names (users_ mid) = ["alice"; "alice"] /\
  users_ new = users_ alice_and_bob /\
  written new =
    written alice_and_bob ++ [(3%nat, Failure 400 "user name already in use")].
Proof. repeat split; vm_compute; reflexivity. Qed.

(** C7: [intercom_server.js] has no [old_name]: when Bob renames himself
    neither the answer nor the payload sent to Alice carries it; and it
    broadcasts on every registration, also when Bob registers again under
    his unchanged name. [server.js] puts [old_name] in both, and sends
    nothing for the unchanged name. *)
Theorem intercom_rename_omits_old_name :
  let listing_old :=
    [mkPublicUser "alice" None; mkPublicUser "bob" None;
     mkPublicUser "bobby" None] in
  let listing_new :=
    [mkPublicUser "alice" None; mkPublicUser "bobby" (Some "bob")] in
  let old := exec (IntercomServer.serverHandler bob_renames) alice_and_bob in
  let new := exec (Server.serverHandler bob_renames) alice_and_bob in
  let old_again :=
    exec (IntercomServer.serverHandler bob_registers_again) alice_and_bob in
  let new_again :=
    exec (Server.serverHandler bob_registers_again) alice_and_bob in
  written old =
    written alice_and_bob
    ++ [(3%nat, Registered (mkPrivateUser "u2" "bobby" None) listing_old)] /\
  queue_of "u1" old =
    option_map (fun q => q ++ [RegisterMsg (mkPublicUser "bobby" None) listing_old])
      (queue_of "u1" alice_and_bob) /\
  written new =
    written alice_and_bob
    ++ [(3%nat, Registered (mkPrivateUser "u2" "bobby" (Some "bob")) listing_new)] /\
  queue_of "u1" new =
    option_map
      (fun q => q ++ [RegisterMsg (mkPublicUser "bobby" (Some "bob")) listing_new])
      (queue_of "u1" alice_and_bob) /\
  option_map (@List.length message) (queue_of "u1" alice_and_bob) = Some 1%nat /\
  option_map (@List.length message) (queue_of "u1" old_again) = Some 2%nat /\
  queue_of "u1" new_again = queue_of "u1" alice_and_bob.
Proof. repeat split; vm_compute; reflexivity. Qed.

(** * The theorems at concrete requests *)

Lemma queue_and_parked_response_exclude_witness :
  Server.reachable alice_parked /\
  written (exec (sendMessage "u1" (OfferMsg "sdp" "bob")) alice_parked) =
  written alice_parked ++ [(4%nat, Messages [OfferMsg "sdp" "bob"])].
Proof.
  assert (Hreach : Server.reachable alice_parked).
  { repeat apply Server.reachable_serve. apply Server.reachable_start. }
  split; [exact Hreach|].
  destruct (queue_and_parked_response_exclude alice_parked Hreach) as [_ Hsend].
  unfold exec.
  rewrite (Hsend "u1"
             (User.mk "u1" "alice" 1 [] (Some (alice_waits 4)))
             (alice_waits 4) (OfferMsg "sdp" "bob") eq_refl eq_refl).
  reflexivity.
Defined.

Lemma wait_hands_over_the_queue_witness :
  let news := RegisterMsg (mkPublicUser "bob" None)
                [mkPublicUser "alice" None; mkPublicUser "bob" None] in
  let w1 := exec (Server.waitRoute (alice_waits 3)) alice_and_bob in
  let w2 := exec (Server.waitRoute (alice_waits 4)) w1 in
  queue_of "u1" alice_and_bob = Some [news] /\
  written w1 = written alice_and_bob ++ [(3%nat, Messages [news])] /\
  queue_of "u1" w1 = Some [] /\
  written w2 = written w1 /\
  option_map User.connection (Obj.get "u1" (users_ w2))
    = Some (Some (alice_waits 4)).
Proof.
  intros news w1 w2.
  pose (alice := User.mk "u1" "alice" 1 [news] None).
  assert (Hne : "u1" <> EmptyString) by discriminate.
  assert (Hqueue : User.queue alice <> []) by discriminate.
  destruct (wait_hands_over_the_queue (alice_waits 3) (alice_waits 4) "u1"
              alice alice_and_bob eq_refl eq_refl Hne eq_refl Hqueue)
    as (_ & Hw1 & Hq1 & _ & Hw2 & Hq2 & _).
  fold w1 in Hw1, Hq1, Hw2, Hq2. fold w2 in Hw2, Hq2.
  split; [reflexivity|]. split; [exact Hw1|].
  split; [unfold queue_of; now rewrite Hq1|].
  split; [rewrite Hw2; apply app_nil_r|].
  now rewrite Hq2.
Defined.



(** * Signalling: [offerRoute], [answerRoute], [rejectRoute] *)

(** With distinct names, the scan of [findUserByName] stops at the one
    user who holds the name. *)
Lemma find_holder id user users :
  NoDup (names users) -> Obj.get id users = Some user ->
  find (fun kv => User.name (snd kv) =? User.name user) users = Some (id, user).
Proof.
  unfold names, Obj.values.
  induction users as [|[k u] users IH]; cbn; [discriminate|].
  intros Hnd Hget. inversion Hnd as [|? ? Hnotin Hnd']; subst.
  destruct (String.eqb_spec k id) as [->|Hk].
  - inversion Hget; subst. now rewrite String.eqb_refl.
  - destruct (String.eqb_spec (User.name u) (User.name user)) as [Heq|Hne].
    + exfalso. apply Hnotin. rewrite Heq, map_map.
      apply in_map_iff. exists (id, user). split; [reflexivity|].
      now apply get_In.
    + now apply IH.
Qed.

Lemma relay_delivers id sender target_id target payload w :
  well_formed (users_ w) ->
  Obj.get id (users_ w) = Some sender ->
  Obj.get target_id (users_ w) = Some target ->
  relay id (User.name target) payload w =
  (Ok tt,
   mkWorld
     (Obj.modify target_id (deliver (payload (User.name sender))) (users_ w))
     (written w ++ delivery (payload (User.name sender)) target)).
Proof.
  intros Hwf Hsender Htarget.
  destruct (get_sound _ _ _ Hwf Htarget) as (Hid & _). cbn in Hid.
  unfold relay, findUserByName, bind, get_users, ret.
  rewrite Hsender, (find_holder _ _ _ (wf_names _ Hwf) Htarget).
  cbn [option_map snd]. rewrite Hid.
  now apply sendMessage_known.
Qed.


(** A signalling request from a registered sender to a registered name
    puts one payload, tagged with the sender's current name, in front of
    the target (on its parked response or at the end of its queue) and
    answers the sender with an empty success. *)
Theorem signalling_routes_deliver connection id sender target_id target w :
  well_formed (users_ w) ->
  Obj.get "id" (Connection.query connection) = Some id -> id <> EmptyString ->
  Obj.get id (users_ w) = Some sender ->
  Obj.get target_id (users_ w) = Some target ->
  let query := Connection.query connection in
  let sent route payload :=
    route connection w =
    (Ok tt,
     mkWorld (Obj.modify target_id (deliver payload) (users_ w))
       (written w ++ delivery payload target
        ++ [(Connection.response connection, Empty)])) in
  (forall offer,
      Obj.get "offer" query = Some offer -> offer <> EmptyString ->
      Obj.get "name" query = Some (User.name target) ->
      sent offerRoute (OfferMsg offer (User.name sender))) /\
  (forall answer,
      Obj.get "answer" query = Some answer -> answer <> EmptyString ->
      Obj.get "name" query = Some (User.name target) ->
      sent answerRoute (AnswerMsg answer (User.name sender))) /\
  (Obj.get "reject" query = Some (User.name target) ->
   sent rejectRoute (RejectMsg (User.name sender))).
Proof.
  intros Hwf Hid Hne Hsender Htarget query sent. subst query sent. cbn beta.
  destruct (get_sound _ _ _ Hwf Htarget) as (_ & Hnamed & _). cbn in Hnamed.
  unfold offerRoute, answerRoute, rejectRoute.
  repeat split; intros;
    repeat match goal with
      | H : Obj.get ?key _ = Some ?v
        |- context [required (Obj.get ?key _) ?msg] =>
          rewrite (bind_ok _ _ _ _ _ (required_ok _ _ msg w H ltac:(assumption)))
      end;
    (erewrite bind_ok by
       (apply relay_delivers with (target_id := target_id); eassumption));
    rewrite writeJsonResponse_run; cbn [users_ written];
    now rewrite <- app_assoc.
Qed.


(** * Lookups *)

(** [findUserByName] reads only: it answers the first user of the registry
    with that exact name, and [undefined] exactly when nobody has it; with
    distinct names it answers the one holder. *)
Theorem findUserByName_finds name w :
  exists found,
    findUserByName name w = (Ok found, w) /\
    (found = None <-> ~ In name (names (users_ w))) /\
    (forall user,
        found = Some user ->
        User.name user = name /\
        exists before id after,
          users_ w = before ++ (id, user) :: after /\
          ~ In name (names before)) /\
    (forall id user,
        NoDup (names (users_ w)) ->
        Obj.get id (users_ w) = Some user -> User.name user = name ->
        found = Some user).
Proof.
  unfold findUserByName, bind, get_users, ret.
  eexists. split; [reflexivity|].
  destruct (find (fun kv => User.name (snd kv) =? name) (users_ w))
    as [[k u]|] eqn:Hfind; cbn [option_map snd].
  - split; [|split].
    + split; [discriminate|]. intros Hn. exfalso. apply Hn.
      apply find_some in Hfind. destruct Hfind as [Hin Hname].
      apply String.eqb_eq in Hname. apply In_names. eauto.
    + intros user Huser. inversion Huser; subst u. clear Huser.
      revert Hfind. generalize (users_ w) as users.
      induction users as [|[k0 u0] users IH]; cbn; [discriminate|].
      destruct (String.eqb_spec (User.name u0) name) as [Heq|Hne].
      * intros H. inversion H; subst. split; [reflexivity|].
        exists [], k, users. auto.
      * intros H. destruct (IH H) as (Hname & before & id & after & E & Hn).
        split; [assumption|].
        exists ((k0, u0) :: before), id, after. split; [now rewrite E|].
        unfold names, Obj.values in *. cbn. intros [?|?]; auto.
    + intros id user Hnd Hget Hname. subst name.
      rewrite (find_holder _ _ _ Hnd Hget) in Hfind. congruence.
  - split; [|split].
    + split; [|reflexivity]. intros _ Hin. apply In_names in Hin.
      destruct Hin as (k & u & Hin & Hname).
      apply (find_none _ _ Hfind) in Hin. cbn in Hin.
      rewrite Hname, String.eqb_refl in Hin. discriminate.
    + discriminate.
    + intros id user Hnd Hget Hname. subst name.
      rewrite (find_holder _ _ _ Hnd Hget) in Hfind. discriminate.
Qed.

(** * [sortUsersByName] *)

Lemma leb_refl s : String.leb s s = true.
Proof. destruct (String.leb_total s s); assumption. Qed.

Lemma insert_sorted_stable key a l :
  filter (same_name key) (insert_sorted a l) =
  filter (same_name key) (a :: l).
Proof.
  induction l as [|b l IH]; [reflexivity|].
  cbn [insert_sorted]. destruct (name_le a b) eqn:Hle; [reflexivity|].
  cbn [filter] in *. rewrite IH.
  destruct (same_name key a) eqn:Ha; [|reflexivity].
  destruct (same_name key b) eqn:Hb; [|reflexivity].
  exfalso. unfold same_name in Ha, Hb.
  apply String.eqb_eq in Ha. apply String.eqb_eq in Hb.
  unfold name_le in Hle. rewrite <- Ha, <- Hb, leb_refl in Hle. discriminate.
Qed.

(** [sortUsersByName] only reorders the list, orders it by upper-cased
    name, and keeps users whose names differ in case only in the order
    they came in. *)
Theorem sortUsersByName_sorts users :
  Permutation users (sortUsersByName users) /\
  Sorted (fun a b =>
            String.leb (Js.toUpperCase (pub_name a))
              (Js.toUpperCase (pub_name b)) = true)
    (sortUsersByName users) /\
  (forall key,
      filter (same_name key) (sortUsersByName users) =
      filter (same_name key) users).
Proof.
  split; [apply sortUsersByName_perm|].
  split; [apply sortUsersByName_sorted|].
  intros key. induction users as [|a l IH]; [reflexivity|].
  cbn [sortUsersByName fold_right]. rewrite insert_sorted_stable.
  cbn [filter]. fold (sortUsersByName l). now rewrite IH.
Qed.

(** * Registration *)

Lemma trimStart_blank s :
  forallb Js.is_space (list_ascii_of_string s) = true ->
  Js.trimStart s = EmptyString.
Proof.
  induction s as [|c s IH]; cbn; [reflexivity|].
  intros H. apply andb_prop in H. destruct H as [Hc Hs].
  rewrite Hc. now apply IH.
Qed.

Lemma trim_all_space s :
  forallb Js.is_space (list_ascii_of_string s) = true ->
  Js.trim s = EmptyString.
Proof.
  intros H. unfold Js.trim. now rewrite (trimStart_blank s H).
Qed.

(** A registration without a name, or with a name of white space only,
    is refused with 400 "user name required" and has no effect, whatever
    else the request carries. *)
Theorem register_needs_a_name connection w :
  match Obj.get "register" (Connection.query connection) with
  | Some name => forallb Js.is_space (list_ascii_of_string name) = true
  | None => True
  end ->
  Server.registerRoute connection w =
  (Thrown (errorWithCode 400 "user name required"), w).
Proof.
  intros H. unfold Server.registerRoute. apply bind_thrown.
  apply required_missing.
  destruct (Obj.get "register" (Connection.query connection)) as [name|];
    [|reflexivity].
  cbn. now rewrite (trim_all_space name H).
Qed.

Lemma names_set_perm id record users :
  NoDup (Obj.keys users) ->
  Permutation (names (Obj.set id record users))
    (User.name record
     :: names (filter (fun kv => negb (id =? fst kv)) users)).
Proof.
  intros Hnd. destruct (Obj.get id users) as [v0|] eqn:E.
  - rewrite (set_present _ _ _ _ E).
    assert (Hin : In id (Obj.keys users)).
    { apply get_In_keys. congruence. }
    clear E. unfold names, Obj.values.
    induction users as [|[k u] users IH]; [contradiction|].
    inversion Hnd as [|? ? Hnotin Hnd']; subst. cbn [Obj.modify filter fst].
    destruct (String.eqb_spec k id) as [->|Hne].
    + rewrite String.eqb_refl. cbn [negb map snd].
      rewrite forallb_filter_id; [reflexivity|].
      apply forallb_forall. intros [k0 u0] Hin0. cbn.
      destruct (String.eqb_spec id k0) as [->|]; [|reflexivity].
      exfalso. apply Hnotin. change k0 with (fst (k0, u0)). now apply in_map.
    + destruct (String.eqb_spec id k) as [->|_]; [contradiction|].
      cbn [negb map snd]. rewrite perm_swap. constructor.
      apply IH; [assumption|]. destruct Hin as [?|?]; [contradiction|assumption].
  - destruct (set_fresh_split id record users E) as (o1 & o2 & E1 & ->).
    rewrite forallb_filter_id.
    + subst users. rewrite !names_app. cbn.
      symmetry. apply Permutation_middle.
    + apply forallb_forall. intros [k0 u0] Hin0. cbn.
      destruct (String.eqb_spec id k0) as [->|]; [|reflexivity].
      exfalso. apply get_None_keys in E. apply E.
      change k0 with (fst (k0, u0)). now apply in_map.
Qed.

(** The answer to an accepted registration, under an id that names nothing
    [users_] inherits, carries the id the record is stored under and names
    exactly the users registered once the request is done, the caller
    included and nobody twice. *)
Theorem register_answer_lists_the_registry connection name w :
  ordinary (register_id connection) = true ->
  well_formed (users_ w) ->
  register_name connection = Some name -> name <> EmptyString ->
  name_in_use (register_id connection) name (users_ w) = false ->
  let w' := exec (Server.registerRoute connection) w in
  exists old_name listing rest,
    written w' =
      written w
      ++ (Connection.response connection,
          Registered (mkPrivateUser (register_id connection) name old_name)
            listing)
      :: rest /\
    option_map User.name (Obj.get (register_id connection) (users_ w'))
      = Some name /\
    Permutation (map pub_name listing) (names (users_ w')) /\
    NoDup (map pub_name listing).
Proof.
  intros _ Hwf Hname Hne Huse w'. subst w'. unfold exec.
  rewrite (RegisterFacts.registerRoute_accepts _ _ _ (wf_keys _ Hwf)
             Hname Hne Huse).
  cbn [snd users_ written]. unfold register_written, register_reply.
  do 3 eexists. split; [reflexivity|].
  assert (Hnames : names (register_users connection name (users_ w))
                   = names (Obj.set (register_id connection)
                              (registered_record connection name (users_ w))
                              (users_ w))).
  { unfold register_users.
    destruct (register_announces connection name (users_ w));
      [apply names_broadcast | reflexivity]. }
  assert (Hperm : Permutation
            (map pub_name (register_listing connection name (users_ w)))
            (names (register_users connection name (users_ w)))).
  { rewrite Hnames, names_set_perm by apply (wf_keys _ Hwf).
    rewrite registered_record_name. unfold register_listing.
    rewrite <- sortUsersByName_perm, map_app, map_map. cbn.
    rewrite <- Permutation_cons_append. constructor.
    unfold names, Obj.values. now rewrite map_map. }
  split; [|split].
  - unfold register_users.
    destruct (register_announces connection name (users_ w)).
    + rewrite get_broadcast, get_set_same. cbn.
      rewrite String.eqb_refl. cbn. now rewrite registered_record_name.
    + rewrite get_set_same. cbn. now rewrite registered_record_name.
  - exact Hperm.
  - eapply Permutation_NoDup; [symmetry; exact Hperm|].
    rewrite Hnames. apply names_set; try apply Hwf.
    now rewrite registered_record_name.
Qed.


(** * Records, failures and messages *)


(** * Joining and leaving again *)



Lemma broadcast_cons data exclude k u users :
  broadcast data exclude ((k, u) :: users) =
  (k, if excluded exclude k then u else deliver data u)
  :: broadcast data exclude users.
Proof. unfold broadcast. cbn. now destruct (excluded exclude k). Qed.




(** * The broadcast of the earlier versions *)

Module EarlierFacts.

(** The loop of [intercom_server.js], entered with the users [done]
    behind it and the users [todo] ahead. *)
Lemma earlier_loop data id todo : forall done out,
  NoDup (Obj.keys (done ++ todo)) ->
  forEach (Obj.keys todo) (fun user_id =>
    users <- get_users ;;
    if Obj.has user_id users then
      if user_id =? id then ret false
      else sendMessage user_id data ;; ret true
    else ret true)
    (mkWorld (done ++ todo) out) =
  (Ok tt,
   mkWorld (done ++ broadcast data None (users_before id todo)
            ++ users_from id todo)
     (out ++ broadcast_replies data None (users_before id todo))).
Proof.
  induction todo as [|[k u] todo IH]; intros done out Hnd.
  - cbn. now rewrite !app_nil_r.
  - assert (Hfresh : ~ In k (Obj.keys done)).
    { rewrite keys_app in Hnd. cbn in Hnd.
      apply NoDup_remove_2 in Hnd. rewrite in_app_iff in Hnd. tauto. }
    assert (Hget : Obj.get k (done ++ (k, u) :: todo) = Some u).
    { rewrite get_app_fresh by assumption. cbn. now rewrite String.eqb_refl. }
    cbn [Obj.keys map fst forEach users_before users_from].
    unfold bind at 1. unfold bind at 1. unfold get_users at 1.
    cbn [users_]. unfold Obj.has. rewrite Hget.
    destruct (String.eqb_spec k id) as [->|Hne].
    + cbn. now rewrite app_nil_r.
    + assert (Hsend :
        (sendMessage k data ;; ret true) (mkWorld (done ++ (k, u) :: todo) out)
        = (Ok true, mkWorld ((done ++ [(k, deliver data u)]) ++ todo)
                            (out ++ delivery data u))).
      { unfold bind. rewrite (sendMessage_known k data u) by exact Hget.
        cbn. rewrite modify_app_fresh by assumption. cbn.
        rewrite String.eqb_refl. now rewrite <- app_assoc. }
      assert (Hnd' : NoDup (Obj.keys ((done ++ [(k, deliver data u)]) ++ todo))).
      { rewrite <- app_assoc. cbn. rewrite keys_app in *. exact Hnd. }
      rewrite Hsend, (IH _ _ Hnd').
      rewrite broadcast_cons. cbn [excluded broadcast_replies flat_map fst snd].
      now rewrite <- !app_assoc.
Qed.

Lemma sendMessageToAll_run data id w :
  NoDup (Obj.keys (users_ w)) ->
  IntercomServer.sendMessageToAll data (Some id) w =
  (Ok tt,
   mkWorld (broadcast data None (users_before id (users_ w))
            ++ users_from id (users_ w))
     (written w ++ broadcast_replies data None (users_before id (users_ w)))).
Proof.
  intros Hnd. unfold IntercomServer.sendMessageToAll.
  unfold bind at 1. unfold get_users at 1.
  destruct w as [users out]. cbn [users_ written] in *.
  exact (earlier_loop data id users [] out Hnd).
Qed.

Lemma users_before_absent id users :
  ~ In id (Obj.keys users) ->
  users_before id users = users /\ users_from id users = [].
Proof.
  induction users as [|[k u] users IH]; cbn; [auto|].
  intros Hn. destruct (String.eqb_spec k id) as [->|]; [tauto|].
  destruct IH as [-> ->]; tauto.
Qed.

Lemma users_before_last id user users :
  ~ In id (Obj.keys users) ->
  users_before id (users ++ [(id, user)]) = users /\
  users_from id (users ++ [(id, user)]) = [(id, user)].
Proof.
  induction users as [|[k u] users IH]; cbn.
  - now rewrite String.eqb_refl.
  - intros Hn. destruct (String.eqb_spec k id) as [->|]; [tauto|].
    destruct IH as [-> ->]; tauto.
Qed.


Lemma sendMessageToAll_agrees data id w :
  NoDup (Obj.keys (users_ w)) ->
  (~ In id (Obj.keys (users_ w)) \/
   exists users user, users_ w = users ++ [(id, user)]) ->
  IntercomServer.sendMessageToAll data (Some id) w =
  Server.sendMessageToAll data (Some id) w.
Proof.
  intros Hnd Hcase.
  rewrite (sendMessageToAll_run data id w Hnd).
  rewrite (ServerFacts.sendMessageToAll_spec data (Some id) w Hnd).
  destruct Hcase as [Habsent | (users & user & E)].
  - destruct (users_before_absent id _ Habsent) as [-> ->].
    destruct (broadcast_absent data id _ Habsent) as [-> ->].
    now rewrite app_nil_r.
  - assert (Hfresh : ~ In id (Obj.keys users)).
    { rewrite E, keys_app in Hnd. cbn in Hnd.
      apply NoDup_remove_2 in Hnd. now rewrite app_nil_r in Hnd. }
    rewrite E.
    destruct (users_before_last id user users Hfresh) as [-> ->].
    rewrite broadcast_app, broadcast_replies_app.
    destruct (broadcast_absent data id _ Hfresh) as [-> ->].
    cbn. rewrite String.eqb_refl. now rewrite app_nil_r.
Qed.

End EarlierFacts.


(** * Where the versions agree *)



(** A request that leaves is handled alike by the three versions: the
    user is deleted before the broadcast, so the loop meets no id to stop
    at. *)
Theorem versions_agree_on_unregister connection w :
  NoDup (Obj.keys (users_ w)) ->
  IntercomServer.unregisterRoute connection w =
    Server.unregisterRoute connection w /\
  LoaderServer.unregisterRoute connection w =
    Server.unregisterRoute connection w.
Proof.
  intros Hnd.
  assert (H : IntercomServer.unregisterRoute connection w
              = Server.unregisterRoute connection w).
  { destruct (required_cases
                (Obj.get "unregister" (Connection.query connection))
                "user id required" w)
      as [(id & Hq & Hne & Hrun) | [_ Hrun]].
    - destruct (Obj.get id (users_ w)) as [user|] eqn:Hget.
      + rewrite (RouteFacts.unregisterRoute_known _ _ _ _ Hnd Hq Hne Hget).
        unfold IntercomServer.unregisterRoute.
        rewrite (bind_ok _ _ _ _ _ Hrun).
        unfold bind at 1, get_users at 1. rewrite Hget.
        assert (Hnd' : NoDup (Obj.keys (Obj.delete id (users_ w))))
          by now apply NoDup_keys_delete.
        assert (Hgone : ~ In id (Obj.keys (Obj.delete id (users_ w)))).
        { apply get_None_keys. now apply get_delete_same. }
        unfold bind at 1.
        rewrite (bind_ok _ _ _ _ _ (generatePublicUser_known _ _ _ Hget)).
        rewrite (bind_ok _ _ _ _ _ (delete_user_run _ _)).
        unfold bind at 1, get_users at 1. cbn [users_].
        rewrite (bind_ok _ _ _ _ _
                   (generatePublicUsers_all
                      (mkWorld (Obj.delete id (users_ w)) (written w)) Hnd')).
        rewrite (bind_ok _ _ _ _ _ (release_run _ _)).
        rewrite EarlierFacts.sendMessageToAll_agrees
          by (cbn [users_]; auto).
        rewrite ServerFacts.sendMessageToAll_spec by exact Hnd'.
        cbn [users_ written].
        destruct (broadcast_absent
                    (UnregisterMsg (public user)
                       (map public (Obj.values (Obj.delete id (users_ w)))))
                    id _ Hgone) as [-> ->].
        rewrite writeJsonResponse_run. cbn [users_ written].
        unfold unregister_event, released. now rewrite <- !app_assoc.
      + rewrite (RouteFacts.unregisterRoute_unknown _ _ _ Hq Hne Hget).
        unfold IntercomServer.unregisterRoute.
        rewrite (bind_ok _ _ _ _ _ Hrun).
        unfold bind at 1, get_users at 1. rewrite Hget. reflexivity.
    - unfold IntercomServer.unregisterRoute, Server.unregisterRoute.
      now rewrite !(bind_thrown _ _ _ _ _ Hrun). }
  split; [exact H|]. rewrite <- H. reflexivity.
Qed.

Section FirstRegistration.
Variables (connection : Connection.t) (w : world).
Hypothesis Hnd : NoDup (Obj.keys (users_ w)).
Hypothesis Hfresh : Obj.get (register_id connection) (users_ w) = None.
Hypothesis Hindex : Obj.array_index (register_id connection) = None.




End FirstRegistration.


(** * Regular expressions: the matcher decides the language *)

Lemma nullable_matches r : nullable r = true <-> matches r [].
Proof.
  induction r as [ | | c | | cs | r1 IH1 r2 IH2 | r1 IH1 r2 IH2 | r IH]; cbn.
  - split; intros H; [discriminate | inversion H].
  - split; intros H; [constructor | reflexivity].
  - split; intros H; [discriminate | inversion H].
  - split; intros H; [discriminate | inversion H].
  - split; intros H; [discriminate | inversion H].
  - split; intros H.
    + apply andb_prop in H. destruct H as [H1 H2].
      change (@nil ascii) with (@nil ascii ++ []).
      constructor; [now apply IH1 | now apply IH2].
    + inversion H as [| | | |? ? u v Hu Hv| | | |]; subst.
      assert (u = [] /\ v = []) as [-> ->] by now apply app_eq_nil.
      apply andb_true_intro. split; [now apply IH1 | now apply IH2].
  - split; intros H.
    + apply orb_prop in H. destruct H as [H|H];
        [apply m_alt_l; now apply IH1 | apply m_alt_r; now apply IH2].
    + inversion H; subst; apply orb_true_intro;
        [left; now apply IH1 | right; now apply IH2].
  - split; intros H; [constructor | reflexivity].
Qed.

Lemma star_cons r a s :
  matches (Star r) (a :: s) ->
  exists u v, s = u ++ v /\ matches r (a :: u) /\ matches (Star r) v.
Proof.
  intros H. remember (Star r) as r' eqn:Er. remember (a :: s) as t eqn:Et.
  revert s Et. induction H; intros s0 Et; try discriminate.
  inversion Er; subst. destruct u as [|b u].
  - cbn in Et. apply IHmatches2; auto.
  - cbn in Et. inversion Et; subst. exists u, v. auto.
Qed.

Lemma deriv_matches a r : forall s, matches (deriv a r) s <-> matches r (a :: s).
Proof.
  induction r; intros s; cbn.
  - split; intros H; inversion H.
  - split; intros H; inversion H.
  - destruct (Ascii.eqb_spec a c) as [->|Hne]; split; intros H.
    + inversion H; subst. constructor.
    + inversion H; subst. constructor.
    + inversion H.
    + inversion H; subst. contradiction.
  - destruct (line_terminator a) eqn:E; split; intros H.
    + inversion H.
    + inversion H; subst. congruence.
    + inversion H; subst. now constructor.
    + inversion H; subst. constructor.
  - destruct (existsb (Ascii.eqb a) cs) eqn:E; split; intros H.
    + inversion H.
    + inversion H; subst. congruence.
    + inversion H; subst. now constructor.
    + inversion H; subst. constructor.
  - assert (Hcat : forall t, matches (Cat (deriv a r1) r2) t ->
                             matches (Cat r1 r2) (a :: t)).
    { intros t H. inversion H; subst.
      change (a :: u ++ v) with ((a :: u) ++ v).
      constructor; [now apply IHr1 | assumption]. }
    assert (Hsplit : matches (Cat r1 r2) (a :: s) ->
              matches (Cat (deriv a r1) r2) s \/
              (nullable r1 = true /\ matches (deriv a r2) s)).
    { intros H. remember (a :: s) as t eqn:Et.
      inversion H as [| | | |? ? u v Hu Hv| | | |]; subst.
      destruct u as [|b u]; cbn in *.
      - right. subst v. split; [now apply nullable_matches | now apply IHr2].
      - match goal with E : _ :: _ = _ :: _ |- _ => inversion E; subst end.
        left. constructor; [now apply IHr1 | assumption]. }
    destruct (nullable r1) eqn:En; split; intros H.
    + inversion H; subst; [now apply Hcat|].
      change (a :: s) with ([] ++ a :: s).
      constructor; [now apply nullable_matches | now apply IHr2].
    + destruct (Hsplit H) as [H'|[_ H']]; [now apply m_alt_l | now apply m_alt_r].
    + now apply Hcat.
    + destruct (Hsplit H) as [H'|[E _]]; [assumption | discriminate].
  - split; intros H; inversion H; subst.
    + apply m_alt_l. now apply IHr1.
    + apply m_alt_r. now apply IHr2.
    + apply m_alt_l. now apply IHr1.
    + apply m_alt_r. now apply IHr2.
  - split; intros H.
    + inversion H; subst. change (a :: u ++ v) with ((a :: u) ++ v).
      constructor; [now apply IHr | assumption].
    + apply star_cons in H. destruct H as (u & v & -> & Hu & Hv).
      constructor; [now apply IHr | assumption].
Qed.

Lemma accepts_matches s : forall r, accepts r s = true <-> matches r s.
Proof.
  induction s as [|a s IH]; intros r; cbn.
  - apply nullable_matches.
  - rewrite IH. apply deriv_matches.
Qed.

Lemma matches_anything s : matches (Star (NotIn [])) s.
Proof.
  induction s as [|a s IH]; [constructor|].
  change (a :: s) with ([a] ++ s). constructor; [now constructor | assumption].
Qed.

(** [search] finds [r] exactly when some part of the string is in the
    language of [r]. *)
Lemma search_matches r s :
  search r s = true <->
  exists before found after,
    list_ascii_of_string s = before ++ found ++ after /\ matches r found.
Proof.
  unfold search. rewrite accepts_matches. split.
  - intros H. inversion H as [| | | |? ? u v Hu Hv| | | |]; subst.
    inversion Hv as [| | | |? ? u' v' Hu' Hv'| | | |]; subst.
    exists u, u', v'. auto.
  - intros (before & found & after & -> & H).
    constructor; [apply matches_anything|].
    constructor; [assumption | apply matches_anything].
Qed.

Lemma matches_literal l s :
  matches (literal l) s <-> s = list_ascii_of_string l.
Proof.
  unfold literal. revert s.
  induction (list_ascii_of_string l) as [|c cs IH]; intros s; cbn.
  - split; intros H; [now inversion H | subst; constructor].
  - split; intros H.
    + inversion H as [| | | |? ? u v Hu Hv| | | |]; subst.
      inversion Hu; subst. apply IH in Hv. now subst.
    + subst. change (c :: cs) with ([c] ++ cs).
      constructor; [constructor | now apply IH].
Qed.

Lemma matches_star_notin cs s :
  matches (Star (NotIn cs)) s <->
  forallb (fun c => negb (existsb (Ascii.eqb c) cs)) s = true.
Proof.
  split.
  - intros H. remember (Star (NotIn cs)) as r eqn:Er.
    induction H; try discriminate; [reflexivity|].
    inversion Er; subst.
    inversion H as [| | |? ? Hc| | | | |]; subst. cbn.
    rewrite Hc. cbn. now apply IHmatches2.
  - induction s as [|c s IH]; cbn; intros H; [constructor|].
    apply andb_prop in H. destruct H as [Hc Hs].
    change (c :: s) with ([c] ++ s).
    constructor; [|now apply IH].
    constructor. now destruct (existsb (Ascii.eqb c) cs).
Qed.

(** * The route of a request *)

Lemma list_ascii_of_string_app a b :
  list_ascii_of_string (a ++ b)%string
  = list_ascii_of_string a ++ list_ascii_of_string b.
Proof. induction a as [|c a IH]; cbn; [reflexivity | now rewrite IH]. Qed.

Lemma string_of_list_ascii_app a b :
  string_of_list_ascii (a ++ b)
  = (string_of_list_ascii a ++ string_of_list_ascii b)%string.
Proof. induction a as [|c a IH]; cbn; [reflexivity | now rewrite IH]. Qed.

Lemma string_app_assoc (a b c : string) :
  ((a ++ b) ++ c = a ++ (b ++ c))%string.
Proof. induction a as [|x a IH]; cbn; [reflexivity | now rewrite IH]. Qed.

Lemma forallb_pointwise {A} (f g : A -> bool) l :
  (forall x, f x = g x) -> forallb f l = forallb g l.
Proof.
  intros H. induction l as [|x l IH]; cbn; [reflexivity | now rewrite H, IH].
Qed.

Lemma matches_assetRegex found :
  matches assetRegex found <->
  exists name c,
    found = list_ascii_of_string "/assets/" ++ name
            ++ c :: list_ascii_of_string "png" /\
    forallb (fun x => negb (existsb (Ascii.eqb x) ["."%char; "/"%char])) name
      = true /\
    line_terminator c = false.
Proof.
  unfold assetRegex. split.
  - intros H. inversion H as [| | | |? ? u1 v1 Hu1 Hv1| | | |]; subst.
    inversion Hv1 as [| | | |? ? u2 v2 Hu2 Hv2| | | |]; subst.
    inversion Hv2 as [| | | |? ? u3 v3 Hu3 Hv3| | | |]; subst.
    apply matches_literal in Hu1. apply matches_literal in Hv3.
    apply matches_star_notin in Hu2.
    inversion Hu3 as [| |c Hc| | | | | |]; subst.
    exists u2, c. auto.
  - intros (name & c & -> & Hname & Hc).
    constructor; [now apply matches_literal|].
    constructor; [now apply matches_star_notin|].
    change (c :: list_ascii_of_string "png")
      with ([c] ++ list_ascii_of_string "png").
    constructor; [now constructor | now apply matches_literal].
Qed.

(** [assetRegex] is looked for anywhere in the pathname, and its [.] is
    any character: a pathname goes to [assetRoute] exactly when it holds,
    at any place, "/assets/", then characters other than "." and "/",
    then one character that need not be a ".", then "png". *)
Theorem assetRegex_finds pathname :
  search assetRegex pathname = true <->
  exists before name c after,
    pathname = (before ++ "/assets/" ++ name ++ String c "png" ++ after)%string /\
    forallb (fun x => negb ((x =? ".") || (x =? "/"))%char)
      (list_ascii_of_string name) = true /\
    ((c =? "010") || (c =? "013"))%char = false.
Proof.
  rewrite search_matches. split.
  - intros (before & found & after & E & H).
    apply matches_assetRegex in H. destruct H as (name & c & -> & Hname & Hc).
    exists (string_of_list_ascii before), (string_of_list_ascii name), c,
           (string_of_list_ascii after).
    split; [|split].
    + rewrite <- (string_of_list_ascii_of_string pathname), E.
      rewrite !string_of_list_ascii_app. cbn.
      now rewrite string_app_assoc.
    + rewrite list_ascii_of_string_of_list_ascii.
      erewrite forallb_pointwise; [exact Hname|].
      intros x. cbn. now rewrite orb_false_r.
    + exact Hc.
  - intros (before & name & c & after & -> & Hname & Hc).
    exists (list_ascii_of_string before),
           (list_ascii_of_string "/assets/" ++ list_ascii_of_string name
            ++ c :: list_ascii_of_string "png"),
           (list_ascii_of_string after).
    split.
    + rewrite list_ascii_of_string_app.
      change ("/assets/" ++ name ++ String c "png" ++ after)%string
        with ("/assets/" ++ (name ++ (String c "png" ++ after)))%string.
      rewrite !list_ascii_of_string_app. cbn.
      now rewrite <- !app_assoc.
    + apply matches_assetRegex. exists (list_ascii_of_string name), c.
      split; [reflexivity|]. split; [|exact Hc].
      erewrite forallb_pointwise; [exact Hname|].
      intros x. cbn. now rewrite orb_false_r.
Qed.

(** * Reading the request *)

Lemma string_length_app (a b : string) :
  String.length (a ++ b)%string = (String.length a + String.length b)%nat.
Proof. induction a as [|c a IH]; cbn; [reflexivity | now rewrite IH]. Qed.

Lemma string_app_empty_r (a : string) : (a ++ EmptyString)%string = a.
Proof. induction a as [|c a IH]; cbn; [reflexivity | now rewrite IH]. Qed.

Lemma receive_all queryData chunks :
  (N.of_nat (String.length queryData) <= 1000000)%N ->
  Http.receive queryData chunks =
  if (1000000 <? N.of_nat (String.length (queryData ++ joined chunks)%string))%N
  then inl (errorWithCode 413 "Request Entity Too Large")
  else inr (queryData ++ joined chunks)%string.
Proof.
  revert queryData. induction chunks as [|data chunks IH]; intros queryData Hq.
  - cbn. rewrite string_app_empty_r.
    destruct (N.ltb_spec 1000000 (N.of_nat (String.length queryData)));
      [lia | reflexivity].
  - cbn [Http.receive joined fold_right].
    fold (joined chunks). rewrite <- string_app_assoc.
    destruct (N.ltb_spec 1000000
                (N.of_nat (String.length (queryData ++ data)%string)))
      as [Hover|Hfits].
    + destruct (N.ltb_spec 1000000
                  (N.of_nat (String.length
                               ((queryData ++ data) ++ joined chunks)%string)))
        as [_|Hno]; [reflexivity|].
      rewrite string_length_app in Hno. lia.
    + now apply IH.
Qed.

(** A body of ASCII characters is read whole up to 1000000 characters and
    refused with 413 beyond, however it is cut into chunks; a request that
    is not a POST has no body parameters at all, whatever it sends. *)
Theorem parsePostQuery_limit parse r :
  Forall (fun chunk => is_ascii chunk = true) (Http.body r) ->
  Http.parsePostQuery parse r =
  if negb (Http.method r =? "POST") then inr []
  else if (1000000 <? N.of_nat (String.length (joined (Http.body r))))%N
       then inl (errorWithCode 413 "Request Entity Too Large")
       else inr (parse (joined (Http.body r))).
Proof.
  intros _. unfold Http.parsePostQuery.
  destruct (negb (Http.method r =? "POST")); [reflexivity|].
  rewrite receive_all by (cbn; lia). cbn [String.append].
  now destruct (1000000 <? _)%N.
Qed.

Lemma get_Object_assign {V} key (source : Obj.t V) : forall target,
  NoDup (Obj.keys source) -> key <> "__proto__" ->
  Obj.get key (Object_assign target source) =
  match Obj.get key source with
  | Some v => Some v
  | None => Obj.get key target
  end.
Proof.
  unfold Object_assign.
  induction source as [|[k v] source IH]; intros target Hnd Hkey;
    [reflexivity|].
  inversion Hnd as [|? ? Hnotin Hnd']; subst.
  cbn [fold_left fst snd Obj.get]. rewrite IH by assumption.
  destruct (String.eqb_spec k key) as [->|Hne].
  - apply get_None_keys in Hnotin. rewrite Hnotin.
    destruct (String.eqb_spec key "__proto__"); [contradiction|].
    apply get_set_same.
  - destruct (Obj.get key source); [reflexivity|].
    destruct (k =? "__proto__"); [reflexivity|]. now apply get_set_other.
Qed.

(** A parameter named [__proto__] does not reach the target. *)
Lemma get_Object_assign_proto {V} (source : Obj.t V) : forall target,
  Obj.get "__proto__" (Object_assign target source) =
  Obj.get "__proto__" target.
Proof.
  unfold Object_assign.
  induction source as [|[k v] source IH]; intros target; [reflexivity|].
  cbn [fold_left fst snd]. rewrite IH.
  destruct (String.eqb_spec k "__proto__") as [->|Hne]; [reflexivity|].
  now apply get_set_other.
Qed.

Lemma NoDup_Object_assign {V} (source : Obj.t V) : forall target,
  NoDup (Obj.keys target) -> NoDup (Obj.keys (Object_assign target source)).
Proof.
  unfold Object_assign.
  induction source as [|[k v] source IH]; intros target Hnd; [assumption|].
  cbn [fold_left fst snd]. apply IH.
  destruct (k =? "__proto__"); [assumption|]. now apply NoDup_keys_set.
Qed.

(** The query the routes read has every parameter of the URL and of the
    body once, except a parameter named [__proto__], which it never has;
    where both carry a parameter, the one of the URL wins. *)
Theorem query_prefers_the_url parse time uuid r response post :
  Http.parsePostQuery parse r = inr post ->
  NoDup (Obj.keys post) -> NoDup (Obj.keys (Http.get r)) ->
  exists connection,
    Http.createConnectionObject parse time uuid r response = inr connection /\
    Connection.time connection = time /\
    Connection.response connection = response /\
    NoDup (Obj.keys (Connection.query connection)) /\
    Obj.get "__proto__" (Connection.query connection) = None /\
    forall key,
      key <> "__proto__" ->
      Obj.get key (Connection.query connection) =
      match Obj.get key (Http.get r) with
      | Some v => Some v
      | None => Obj.get key post
      end.
Proof.
  intros Hpost Hnd_post Hnd_get. unfold Http.createConnectionObject.
  rewrite Hpost. eexists. split; [reflexivity|]. cbn.
  split; [reflexivity|]. split; [reflexivity|]. split; [|split].
  - apply NoDup_Object_assign, NoDup_Object_assign. constructor.
  - now rewrite !get_Object_assign_proto.
  - intros key Hkey. rewrite !get_Object_assign by assumption.
    destruct (Obj.get key (Http.get r)); [reflexivity|].
    now destruct (Obj.get key post).
Qed.


(** The body is read before anything else: a POST that sends more than
    1000000 ASCII characters is answered 413, whatever its path and
    whatever its parameters, and no user hears of it. *)
Theorem oversized_body_is_refused parse jsonLoaderRoute intercomRoute
  serverRoute assetRoute time uuid r response w :
  Http.method r = "POST" ->
  Forall (fun chunk => is_ascii chunk = true) (Http.body r) ->
  (1000000 < N.of_nat (String.length (joined (Http.body r))))%N ->
  Http.serverHandler parse jsonLoaderRoute intercomRoute serverRoute
    assetRoute time uuid r response w =
  (Ok tt, mkWorld (users_ w)
            (written w ++ [(response, Failure 413 "Request Entity Too Large")])).
Proof.
  intros Hpost _ Hlong.
  unfold Http.serverHandler, Http.routeRequest, Http.createConnectionObject.
  unfold Http.parsePostQuery. rewrite Hpost.
  cbn [String.eqb Ascii.eqb Bool.eqb negb].
  rewrite receive_all by (cbn; lia). cbn [String.append].
  apply N.ltb_lt in Hlong. rewrite Hlong. reflexivity.
Qed.

(** * The ids the server makes *)

Lemma toString16_hex r : (r < 16)%N -> is_hex (toString16 r) = true.
Proof.
  intros H. unfold toString16.
  assert (Hn : (N.to_nat r < 16)%nat) by lia.
  destruct (N.to_nat r) as [|n]; [reflexivity|].
  do 15 (destruct n as [|n]; [reflexivity|]). lia.
Qed.

Lemma variant_digit r :
  In (toString16 (N.lor (N.land r 3) 8))
    ["8"%char; "9"%char; "a"%char; "b"%char].
Proof.
  assert (H : (N.land r 3 < 4)%N).
  { change 3%N with (N.ones 2). rewrite N.land_ones.
    apply N.mod_lt. discriminate. }
  destruct (N.land r 3) as [|[[]|[]|]]; cbn; try lia; tauto.
Qed.

Lemma digits_stops acc s1 c s2 :
  Obj.is_digit c = false -> Obj.digits acc (s1 ++ String c s2)%string = None.
Proof.
  intros Hc. revert acc. induction s1 as [|d s1 IH]; intros acc; cbn.
  - now rewrite Hc.
  - destruct (Obj.is_digit d); [apply IH | reflexivity].
Qed.

Lemma array_index_stops c0 s1 c s2 :
  Obj.is_digit c = false ->
  Obj.array_index (String c0 (s1 ++ String c s2)) = None.
Proof.
  intros Hc. unfold Obj.array_index.
  destruct (c0 =? "0")%char.
  - now destruct s1.
  - change (String c0 (s1 ++ String c s2)%string)
      with (String c0 s1 ++ String c s2)%string.
    now rewrite digits_stops.
Qed.

Lemma uuidv4_index random : Obj.array_index (uuidv4_string random) = None.
Proof.
  unfold uuidv4_string. cbn [replace_xy Ascii.eqb Bool.eqb orb andb].
  apply (array_index_stops _
           (String (uuid_digit "x" (random 1%nat))
              (String (uuid_digit "x" (random 2%nat))
                 (String (uuid_digit "x" (random 3%nat))
                    (String (uuid_digit "x" (random 4%nat))
                       (String (uuid_digit "x" (random 5%nat))
                          (String (uuid_digit "x" (random 6%nat))
                             (String (uuid_digit "x" (random 7%nat))
                                EmptyString)))))))
           "-"%char).
  reflexivity.
Qed.

(** Whatever [Math.random] gives, an id made by [uuidv4] has 36
    characters with "-" at 8, 13, 18 and 23, a "4" at 14 and one of "8",
    "9", "a", "b" at 19; it is not empty and not an array index. With
    draws below 16, as [Math.random() * 16 | 0] are, every other
    character is a lower-case hexadecimal digit. *)
Theorem uuidv4_shape random :
  let id := uuidv4_string random in
  String.length id = 36%nat /\
  (forall i, In i [8; 13; 18; 23]%nat -> String.get i id = Some "-"%char) /\
  String.get 14 id = Some "4"%char /\
  (exists c, String.get 19 id = Some c /\
             In c ["8"%char; "9"%char; "a"%char; "b"%char]) /\
  Js.truthy id = true /\
  Obj.array_index id = None /\
  ((forall i, (random i < 16)%N) ->
   forall i c, ~ In i [8; 13; 18; 23]%nat ->
               String.get i id = Some c -> is_hex c = true).
Proof.
  intros id. subst id. unfold uuidv4_string. cbn [replace_xy Ascii.eqb Bool.eqb orb andb].
  split; [reflexivity|]. split.
  { intros i Hi. cbn in Hi.
    destruct Hi as [<-|[<-|[<-|[<-|[]]]]]; reflexivity. }
  split; [reflexivity|]. split.
  { eexists. split; [reflexivity|]. apply variant_digit. }
  split; [reflexivity|]. split.
  { apply uuidv4_index. }
  intros Hrandom i c Hi Hget.
  assert (Hx : forall j, is_hex (uuid_digit "x" (random j)) = true).
  { intros j. change (uuid_digit "x" (random j)) with (toString16 (random j)).
    apply toString16_hex, Hrandom. }
  assert (Hy : forall j, is_hex (uuid_digit "y" (random j)) = true).
  { intros j.
    change (uuid_digit "y" (random j))
      with (toString16 (N.lor (N.land (random j) 3) 8)).
    destruct (variant_digit (random j)) as [<-|[<-|[<-|[<-|[]]]]]; reflexivity. }
  do 36 (destruct i as [|i];
         [cbn in Hget; inversion Hget; subst;
          first [ apply Hx | apply Hy | reflexivity
                | exfalso; apply Hi; cbn; tauto ] |]).
  cbn in Hget. discriminate.
Qed.

(** A user who registers without an id is stored under the id [uuidv4]
    makes and, that id being new to the registry, comes last in it: the
    registry lists such users in the order they came. *)
Theorem generated_ids_keep_arrival_order connection name random w :
  NoDup (Obj.keys (users_ w)) ->
  register_name connection = Some name -> name <> EmptyString ->
  Js.truthy_opt (Obj.get "id" (Connection.query connection)) = false ->
  Connection.uuid connection = uuidv4_string random ->
  Obj.get (uuidv4_string random) (users_ w) = None ->
  ~ In name (names (users_ w)) ->
  let w' := exec (Server.registerRoute connection) w in
  result (Server.registerRoute connection) w = Ok tt /\
  Obj.keys (users_ w') = Obj.keys (users_ w) ++ [uuidv4_string random] /\
  names (users_ w') = names (users_ w) ++ [name].
Proof.
  intros Hnd Hname Hne Hnoid Huuid Hfresh Hunused w'.
  assert (Hid : register_id connection = uuidv4_string random).
  { unfold register_id, Js.truthy_opt in *.
    destruct (Obj.get "id" (Connection.query connection)) as [i|];
      [now rewrite Hnoid | assumption]. }
  assert (Huse : name_in_use (register_id connection) name (users_ w) = false).
  { apply name_in_use_false. intros k u Hin Hn. exfalso. apply Hunused.
    apply In_names. eauto. }
  assert (Hindex : Obj.array_index (register_id connection) = None).
  { rewrite Hid. apply uuidv4_index. }
  rewrite <- Hid in Hfresh.
  subst w'. unfold exec, result.
  rewrite (RegisterFacts.registerRoute_accepts _ _ _ Hnd Hname Hne Huse).
  cbn [fst snd users_]. split; [reflexivity|].
  unfold register_users, register_announces, registered_record.
  rewrite Hfresh, set_fresh_last by assumption.
  rewrite keys_broadcast, names_broadcast, keys_app, names_app, Hid.
  split; reflexivity.
Qed.

(** * The two readings agree on ordinary requests *)

Module Agreement.

Lemma ordinary_spec k :
  ordinary k = true ->
  (k =? "__proto__") = false /\ Plain.Object_prototype k = Plain.Undefined.
Proof.
  unfold ordinary, Plain.inherited, Plain.lookup. cbn [Plain.prototype
    Plain.users_ Plain.empty_world Obj.get]. intros H.
  destruct (k =? "__proto__"); [discriminate H|].
  unfold Plain.Object_prototype in *.
  destruct (k =? "constructor"); [discriminate H|].
  destruct (existsb (String.eqb k) Plain.methods); [discriminate H|].
  auto.
Qed.

Lemma get_lift_users k users :
  Obj.get k (lift_users users) =
  option_map (fun user => Plain.Full (lift_user user)) (Obj.get k users).
Proof.
  induction users as [|[k' u] users IH]; cbn; [reflexivity|].
  now destruct (k' =? k).
Qed.

Lemma keys_lift_users users : Obj.keys (lift_users users) = Obj.keys users.
Proof. unfold lift_users, Obj.keys. rewrite map_map. reflexivity. Qed.

Lemma has_lift_users k users :
  Obj.has k (lift_users users) = Obj.has k users.
Proof.
  unfold Obj.has. rewrite get_lift_users. now destruct (Obj.get k users).
Qed.

(** [users_[k]] for a key that names nothing inherited: the own record, or
    [undefined]. *)
Lemma lookup_lift k w :
  ordinary k = true ->
  Plain.lookup k (lift_world w) =
  match Obj.get k (users_ w) with
  | Some user => Plain.Object (Plain.Full (lift_user user))
  | None => Plain.Undefined
  end.
Proof.
  intros Hk. destruct (ordinary_spec k Hk) as [Hp Hu].
  unfold Plain.lookup. rewrite Hp. cbn. rewrite get_lift_users.
  destruct (Obj.get k (users_ w)); cbn; [reflexivity | exact Hu].
Qed.

Lemma for_in_lift w : Plain.for_in (lift_world w) = Obj.keys (users_ w).
Proof.
  unfold Plain.for_in, lift_world. cbn [Plain.users_ Plain.prototype].
  rewrite app_nil_r. apply keys_lift_users.
Qed.

Lemma ordinary_key k u users :
  ordinary_registry users -> Obj.get k users = Some u ->
  ordinary k = true /\ User.id u = k.
Proof.
  intros [_ Hall] Hget. apply get_In in Hget.
  rewrite Forall_forall in Hall. exact (Hall _ Hget).
Qed.

Lemma ordinary_keys users :
  ordinary_registry users -> Forall (fun k => ordinary k = true) (Obj.keys users).
Proof.
  intros [_ Hall]. unfold Obj.keys. rewrite Forall_map.
  eapply Forall_impl; [|exact Hall]. now intros kv [H _].
Qed.

Lemma hasOwnProperty_absent users :
  ordinary_registry users -> Obj.get "hasOwnProperty" users = None.
Proof.
  intros Hord. destruct (Obj.get "hasOwnProperty" users) as [u|] eqn:Hget;
    [|reflexivity].
  destruct (ordinary_key _ _ _ Hord Hget) as [H _]. discriminate H.
Qed.

Lemma hasOwnProperty_lift k w :
  ordinary_registry (users_ w) ->
  Plain.hasOwnProperty k (lift_world w) =
  (Plain.Ok (Obj.has k (users_ w)), lift_world w).
Proof.
  intros Hord. unfold Plain.hasOwnProperty, Plain.bind, Plain.get_world.
  unfold Plain.lookup. cbn. rewrite get_lift_users.
  rewrite (hasOwnProperty_absent _ Hord). cbn.
  now rewrite has_lift_users.
Qed.

(** ** How agreement composes *)

Lemma agree_ret {A B} (f : A -> B) a w :
  ordinary_registry (users_ w) -> agree_at w f (ret a) (Plain.ret (f a)).
Proof. intros H. split; [reflexivity | exact H]. Qed.

Lemma agree_throw {A B} (f : A -> B) e w :
  ordinary_registry (users_ w) ->
  agree_at w f (throw e) (Plain.throw (lift_error e)).
Proof. intros H. split; [reflexivity | exact H]. Qed.

Lemma agree_bind {A B C D} (f : A -> B) (g : C -> D) m pm k pk w :
  agree_at w f m pm ->
  (forall a w', m w = (Ok a, w') -> ordinary_registry (users_ w') ->
                agree_at w' g (k a) (pk (f a))) ->
  agree_at w g (bind m k) (Plain.bind pm pk).
Proof.
  intros [Hm Hord] Hk. unfold agree_at, bind, Plain.bind, lift_result in *.
  rewrite Hm. destruct (m w) as [[a|e] w'] eqn:Hmw; cbn in *.
  - exact (Hk a w' eq_refl Hord).
  - split; [reflexivity | exact Hord].
Qed.

Lemma agree_catch {A B} (f : A -> B) m pm h ph w :
  agree_at w f m pm ->
  (forall e w', m w = (Thrown e, w') -> ordinary_registry (users_ w') ->
                agree_at w' f (h e) (ph (lift_error e))) ->
  agree_at w f (catch m h) (Plain.catch pm ph).
Proof.
  intros [Hm Hord] Hh. unfold agree_at, catch, Plain.catch, lift_result in *.
  rewrite Hm. destruct (m w) as [[a|e] w'] eqn:Hmw; cbn in *.
  - split; [reflexivity | exact Hord].
  - exact (Hh e w' eq_refl Hord).
Qed.

Lemma agree_get_users {A B} (g : A -> B) k pk w :
  agree_at w g (k (users_ w)) (pk (lift_world w)) ->
  agree_at w g (bind get_users k) (Plain.bind Plain.get_world pk).
Proof. intros H. exact H. Qed.

Lemma agree_when b m pm w :
  ordinary_registry (users_ w) ->
  (b = true -> agree_at w (fun x : unit => x) m pm) ->
  agree_at w (fun x : unit => x) (when b m) (Plain.when b pm).
Proof.
  intros Hord H. destruct b; cbn; [auto | now apply agree_ret].
Qed.

Lemma agree_mapM {A B C} (f : B -> C) (body : A -> M B) pbody l :
  (forall a w, In a l -> ordinary_registry (users_ w) ->
               agree_at w f (body a) (pbody a)) ->
  forall w, ordinary_registry (users_ w) ->
    agree_at w (map f) (mapM body l) (Plain.mapM pbody l).
Proof.
  induction l as [|a l IH]; intros Hbody w Hord; cbn [mapM Plain.mapM].
  - exact (agree_ret (map f) [] w Hord).
  - apply agree_bind with (f := f); [apply Hbody; [now left | exact Hord]|].
    intros b w1 _ Hord1.
    apply agree_bind with (f := map f).
    + apply IH; [|exact Hord1]. intros; apply Hbody; [now right | assumption].
    + intros bs w2 _ Hord2. exact (agree_ret (map f) (b :: bs) w2 Hord2).
Qed.

Lemma agree_forEach {A} (body : A -> M bool) pbody l :
  (forall a w, In a l -> ordinary_registry (users_ w) ->
               agree_at w (fun b : bool => b) (body a) (pbody a)) ->
  forall w, ordinary_registry (users_ w) ->
    agree_at w (fun x : unit => x) (forEach l body) (Plain.forEach l pbody).
Proof.
  induction l as [|a l IH]; intros Hbody w Hord; cbn [forEach Plain.forEach].
  - exact (agree_ret (fun x : unit => x) tt w Hord).
  - apply agree_bind with (f := fun b : bool => b);
      [apply Hbody; [now left | exact Hord]|].
    intros go w1 _ Hord1. destruct go.
    + apply IH; [|exact Hord1]. intros; apply Hbody; [now right | assumption].
    + exact (agree_ret (fun x : unit => x) tt w1 Hord1).
Qed.

(** ** The registry under the operations on it *)

Lemma lift_users_modify k f pf users :
  (forall user, lift_user (f user) = pf (lift_user user)) ->
  lift_users (Obj.modify k f users) =
  Obj.modify k (Plain.on_full pf) (lift_users users).
Proof.
  intros Hf. induction users as [|[k' u] users IH]; cbn; [reflexivity|].
  destruct (k' =? k); cbn; [now rewrite Hf | f_equal; exact IH].
Qed.

Lemma lift_users_delete k users :
  lift_users (Obj.delete k users) = Obj.delete k (lift_users users).
Proof.
  induction users as [|[k' u] users IH]; cbn; [reflexivity|].
  destruct (k' =? k); cbn; [reflexivity | f_equal; exact IH].
Qed.

Lemma lift_users_insert_index n k u users :
  lift_users (Obj.insert_index n k u users) =
  Obj.insert_index n k (Plain.Full (lift_user u)) (lift_users users).
Proof.
  induction users as [|[k' u'] users IH]; cbn; [reflexivity|].
  destruct (Obj.array_index k') as [n'|]; [|reflexivity].
  destruct (n' <? n)%N; cbn; [f_equal; exact IH | reflexivity].
Qed.

Lemma lift_users_set k u users :
  lift_users (Obj.set k u users) =
  Obj.set k (Plain.Full (lift_user u)) (lift_users users).
Proof.
  unfold Obj.set. rewrite has_lift_users.
  destruct (Obj.has k users).
  - induction users as [|[k' u'] users IH]; cbn; [reflexivity|].
    destruct (k' =? k); cbn; [reflexivity | f_equal; exact IH].
  - destruct (Obj.array_index k) as [n|].
    + apply lift_users_insert_index.
    + unfold lift_users. now rewrite map_app.
Qed.

Lemma ordinary_modify k f users :
  ordinary_registry users -> (forall user, User.id (f user) = User.id user) ->
  ordinary_registry (Obj.modify k f users).
Proof.
  intros [Hnd Hall] Hf. split; [now rewrite keys_modify|].
  apply Forall_modify; [exact Hall|].
  intros v _ [H1 H2]. cbn in *. now rewrite Hf.
Qed.

Lemma ordinary_delete k users :
  ordinary_registry users -> ordinary_registry (Obj.delete k users).
Proof.
  intros [Hnd Hall]. split; [now apply NoDup_keys_delete|].
  now apply Forall_delete.
Qed.

Lemma ordinary_set k u users :
  ordinary_registry users -> ordinary k = true -> User.id u = k ->
  ordinary_registry (Obj.set k u users).
Proof.
  intros [Hnd Hall] Hk Hid. split; [now apply NoDup_keys_set|].
  apply Forall_set; [exact Hall | now split].
Qed.

Lemma lift_world_written users out response r :
  lift_world (mkWorld users (out ++ [(response, r)])) =
  Plain.mkWorld (lift_users users) None
    (map (fun r => (fst r, lift_reply (snd r))) out ++ [(response, lift_reply r)]).
Proof. unfold lift_world. cbn. now rewrite map_app. Qed.

(** ** The functions one by one *)

Lemma agree_modify k f pf w :
  ordinary_registry (users_ w) ->
  (forall user, lift_user (f user) = pf (lift_user user)) ->
  (forall user, User.id (f user) = User.id user) ->
  agree_at w (fun x : unit => x) (put_users (Obj.modify k f (users_ w)))
    (Plain.modify_user k pf).
Proof.
  intros Hord Hf Hid. split; [|now apply ordinary_modify].
  unfold put_users, Plain.modify_user, lift_result, lift_world. cbn.
  f_equal. f_equal. symmetry. now apply lift_users_modify.
Qed.

Lemma agree_writeJsonResponse response obj w :
  ordinary_registry (users_ w) ->
  agree_at w (fun x : unit => x) (writeJsonResponse response obj)
    (Plain.writeJsonResponse response (option_map lift_reply obj)).
Proof.
  intros Hord. split; [|exact Hord].
  unfold writeJsonResponse, write, Plain.writeJsonResponse, Plain.write,
    lift_result, lift_world. cbn. rewrite map_app. cbn. now destruct obj.
Qed.

Lemma agree_generatePublicUser user_id w :
  ordinary_registry (users_ w) -> ordinary user_id = true ->
  agree_at w lift_public (generatePublicUser user_id)
    (Plain.generatePublicUser user_id).
Proof.
  intros Hord Hid. split.
  - unfold generatePublicUser, Plain.generatePublicUser, bind, Plain.bind,
      get_users, Plain.get_world.
    rewrite (lookup_lift _ _ Hid).
    destruct (Obj.get user_id (users_ w)); reflexivity.
  - unfold generatePublicUser, bind, get_users.
    destruct (Obj.get user_id (users_ w)); exact Hord.
Qed.

Lemma agree_generatePublicUsers user_ids w :
  ordinary_registry (users_ w) ->
  Forall (fun k => ordinary k = true) user_ids ->
  agree_at w (map lift_public) (generatePublicUsers user_ids)
    (Plain.generatePublicUsers user_ids).
Proof.
  intros Hord Hids. apply agree_mapM; [|exact Hord].
  intros a w' Hin Hord'. apply agree_generatePublicUser; [exact Hord'|].
  rewrite Forall_forall in Hids. now apply Hids.
Qed.

Lemma name_le_lift a b :
  Plain.name_le (lift_public a) (lift_public b) = name_le a b.
Proof. reflexivity. Qed.

Lemma insert_sorted_lift a l :
  Plain.insert_sorted (lift_public a) (map lift_public l) =
  map lift_public (insert_sorted a l).
Proof.
  induction l as [|b l IH]; cbn [map insert_sorted Plain.insert_sorted];
    [reflexivity|].
  rewrite name_le_lift. destruct (name_le a b); cbn [map]; [reflexivity|].
  now rewrite IH.
Qed.

Lemma sort_lift l :
  fold_right Plain.insert_sorted [] (map lift_public l) =
  map lift_public (sortUsersByName l).
Proof.
  unfold sortUsersByName.
  induction l as [|a l IH]; cbn [map fold_right]; [reflexivity|].
  now rewrite IH, insert_sorted_lift.
Qed.

Lemma has_name_lift l : forallb Plain.has_name (map lift_public l) = true.
Proof. induction l; cbn; auto. Qed.

(** Users that all have a name are sorted without a [TypeError]. *)
Lemma sortUsersByName_lift l w :
  Plain.sortUsersByName (map lift_public l) w =
  (Plain.Ok (map lift_public (sortUsersByName l)), w).
Proof.
  unfold Plain.sortUsersByName.
  destruct l as [|a [|b l]]; [reflexivity | reflexivity |].
  change (lift_public a :: lift_public b :: map lift_public l)
    with (map lift_public (a :: b :: l)).
  rewrite has_name_lift, sort_lift. reflexivity.
Qed.

Lemma agree_findUserByName name w :
  ordinary_registry (users_ w) ->
  agree_at w (option_map (fun user => Plain.Full (lift_user user)))
    (findUserByName name) (Plain.findUserByName name).
Proof.
  intros Hord. split; [|exact Hord].
  unfold findUserByName, Plain.findUserByName, bind, Plain.bind, get_users,
    Plain.get_world, ret, Plain.ret, lift_result. cbn.
  f_equal. f_equal. clear Hord.
  induction (users_ w) as [|[k u] users IH]; cbn; [reflexivity|].
  destruct (User.name u =? name); [reflexivity | exact IH].
Qed.

Lemma agree_enqueueMessage user_id data w :
  ordinary_registry (users_ w) -> ordinary user_id = true ->
  agree_at w (fun x : unit => x) (enqueueMessage user_id data)
    (Plain.enqueueMessage user_id (lift_message data)).
Proof.
  intros Hord Hid.
  unfold agree_at, enqueueMessage, Plain.enqueueMessage, bind, Plain.bind,
    get_users, Plain.get_world.
  rewrite (lookup_lift _ _ Hid).
  destruct (Obj.get user_id (users_ w)) as [u|]; cbn.
  - apply agree_modify; [exact Hord | | reflexivity].
    intros user. unfold lift_user. cbn. now rewrite map_app.
  - split; [reflexivity | exact Hord].
Qed.

Lemma agree_sendQueue user_id w :
  ordinary_registry (users_ w) -> ordinary user_id = true ->
  agree_at w (fun x : unit => x) (sendQueue user_id)
    (Plain.sendQueue user_id).
Proof.
  intros Hord Hid.
  unfold agree_at, sendQueue, Plain.sendQueue, bind, Plain.bind,
    get_users, Plain.get_world.
  rewrite (lookup_lift _ _ Hid).
  destruct (Obj.get user_id (users_ w)) as [u|]; cbn;
    [|split; [reflexivity | exact Hord]].
  destruct (User.connection u) as [c|]; cbn;
    [|split; [reflexivity | exact Hord]].
  destruct (User.queue u) as [|m q] eqn:Hq; cbn;
    [split; [reflexivity | exact Hord]|].
  split; [|now apply ordinary_modify].
  unfold put_users, Plain.modify_user, lift_result, lift_world. cbn.
  rewrite map_app. cbn. f_equal. f_equal. symmetry.
  now apply lift_users_modify.
Qed.

Lemma agree_sendMessage user_id data w :
  ordinary_registry (users_ w) -> ordinary user_id = true ->
  agree_at w (fun x : unit => x) (sendMessage user_id data)
    (Plain.sendMessage user_id (lift_message data)).
Proof.
  intros Hord Hid. unfold sendMessage, Plain.sendMessage.
  apply agree_catch.
  - apply agree_bind with (f := fun x : unit => x).
    + now apply agree_enqueueMessage.
    + intros _ w' _ Hord'. now apply agree_sendQueue.
  - intros e w' _ Hord'. exact (agree_ret (fun x : unit => x) tt w' Hord').
Qed.

Lemma agree_sendMessageToAll data exclude w :
  ordinary_registry (users_ w) ->
  agree_at w (fun x : unit => x) (Server.sendMessageToAll data exclude)
    (Plain.sendMessageToAll (lift_message data) exclude).
Proof.
  intros Hord. unfold Server.sendMessageToAll, Plain.sendMessageToAll.
  apply agree_get_users. rewrite for_in_lift.
  apply agree_forEach; [|exact Hord].
  intros k w1 Hin Hord1.
  assert (Hk : ordinary k = true).
  { pose proof (ordinary_keys _ Hord) as Hall.
    rewrite Forall_forall in Hall. now apply Hall. }
  assert (Hsend :
    agree_at w1 (fun b : bool => b) (sendMessage k data ;; ret true)
      (Plain.bind (Plain.sendMessage k (lift_message data))
         (fun _ => Plain.ret true))).
  { apply agree_bind with (f := fun x : unit => x);
      [now apply agree_sendMessage|].
    intros _ w2 _ Hord2. exact (agree_ret (fun b : bool => b) true w2 Hord2). }
  assert (Hskip : agree_at w1 (fun b : bool => b) (ret true) (Plain.ret true)).
  { exact (agree_ret (fun b : bool => b) true w1 Hord1). }
  set (old := match exclude with
              | Some ex => if k =? ex then ret true
                           else sendMessage k data ;; ret true
              | None => sendMessage k data ;; ret true
              end).
  set (new := if excluded exclude k then Plain.ret true
              else Plain.bind (Plain.sendMessage k (lift_message data))
                     (fun _ => Plain.ret true)).
  assert (Hbody : agree_at w1 (fun b : bool => b) old new).
  { subst old new. destruct exclude as [ex|]; cbn [excluded];
      [destruct (k =? ex)|]; assumption. }
  clearbody old new.
  unfold agree_at, bind, Plain.bind, get_users.
  rewrite (hasOwnProperty_lift _ _ Hord1).
  destruct (Obj.has k (users_ w1)); assumption.
Qed.

(** Both sides may be run a step before they are compared. *)
Lemma agree_eq {A B} w (f : A -> B) m m' pm pm' :
  m w = m' w -> pm (lift_world w) = pm' (lift_world w) ->
  agree_at w f m' pm' -> agree_at w f m pm.
Proof. unfold agree_at. now intros -> ->. Qed.

Lemma agree_required v msg w :
  ordinary_registry (users_ w) ->
  agree_at w (fun s : string => s) (required v msg) (Plain.required v msg).
Proof.
  intros Hord. split.
  - unfold required, Plain.required.
    destruct v as [s|]; [destruct (Js.truthy s)|]; reflexivity.
  - unfold required.
    destruct v as [s|]; [destruct (Js.truthy s)|]; exact Hord.
Qed.

Lemma required_inv v msg w s w' :
  required v msg w = (Ok s, w') -> v = Some s /\ w' = w.
Proof.
  unfold required. destruct v as [s0|]; [destruct (Js.truthy s0)|];
    cbn; intros H; inversion H; auto.
Qed.

Lemma agree_release user w :
  ordinary_registry (users_ w) ->
  agree_at w (fun x : unit => x) (release user)
    (Plain.release (Plain.Object (Plain.Full (lift_user user)))).
Proof.
  intros Hord. unfold release, Plain.release. cbn.
  destruct (User.connection user) as [c|].
  - exact (agree_writeJsonResponse (Connection.response c) None w Hord).
  - exact (agree_ret (fun x : unit => x) tt w Hord).
Qed.

Lemma agree_relay id name payload ppayload w :
  ordinary_registry (users_ w) -> ordinary id = true ->
  (forall from, ppayload (Some from) = lift_message (payload from)) ->
  agree_at w (fun x : unit => x) (relay id name payload)
    (Plain.relay id name ppayload).
Proof.
  intros Hord Hid Hpayload.
  destruct (Obj.get id (users_ w)) as [from|] eqn:Hfrom.
  - eapply agree_eq.
    + unfold relay. unfold bind at 1. unfold get_users at 1.
      cbv beta iota. rewrite Hfrom. reflexivity.
    + unfold Plain.relay. unfold Plain.bind at 1. unfold Plain.get_world at 1.
      cbv beta iota zeta. rewrite (lookup_lift _ _ Hid), Hfrom.
      cbn [Plain.truthy]. reflexivity.
    + apply agree_bind
        with (f := option_map (fun user => Plain.Full (lift_user user)));
        [now apply agree_findUserByName|].
      intros [to|] w' Hfind Hord'; cbn [option_map].
      * cbn [Plain.record_id Plain.property_key Plain.name_of
               Plain.record_name lift_user Plain.User.id Plain.User.name].
        rewrite Hpayload. apply agree_sendMessage; [exact Hord'|].
        unfold findUserByName, bind, get_users, ret in Hfind.
        inversion Hfind; subst w'.
        destruct (find _ (users_ w)) as [[k u]|] eqn:Hf; [|discriminate].
        cbn in *. match goal with H : Some _ = Some _ |- _ =>
          inversion H; subst end.
        apply find_some in Hf. destruct Hf as [Hin _].
        destruct Hord as [Hnd Hall]. rewrite Forall_forall in Hall.
        destruct (Hall _ Hin) as [Hk Hi]. cbn in *. now rewrite Hi.
      * exact (agree_throw (fun x : unit => x)
                 (errorWithCode 400 "user name not found") w' Hord').
  - eapply agree_eq.
    + unfold relay. unfold bind at 1. unfold get_users at 1.
      cbv beta iota. rewrite Hfrom. reflexivity.
    + unfold Plain.relay. unfold Plain.bind at 1. unfold Plain.get_world at 1.
      cbv beta iota zeta. rewrite (lookup_lift _ _ Hid), Hfrom.
      cbn [Plain.truthy]. reflexivity.
    + exact (agree_throw (fun x : unit => x)
               (errorWithCode 400 "user id not found") w Hord).
Qed.

(** The ids a request brings. *)
Lemma ordinary_parameter connection key id :
  ordinary_request connection ->
  In key ["id"; "unregister"; "wait"] ->
  Obj.get key (Connection.query connection) = Some id ->
  ordinary id = true.
Proof.
  intros (_ & _ & Hall) Hin Hget. rewrite Forall_forall in Hall.
  specialize (Hall _ Hin). now rewrite Hget in Hall.
Qed.

Lemma agree_offerRoute connection w :
  ordinary_request connection -> ordinary_registry (users_ w) ->
  agree_at w (fun x : unit => x) (offerRoute connection)
    (Plain.offerRoute connection).
Proof.
  intros Hreq Hord. unfold offerRoute, Plain.offerRoute.
  apply agree_bind with (f := fun s : string => s);
    [now apply agree_required|].
  intros id w1 Hid Hord1. apply required_inv in Hid. destruct Hid as [Hid _].
  apply agree_bind with (f := fun s : string => s);
    [now apply agree_required|].
  intros offer w2 _ Hord2.
  apply agree_bind with (f := fun s : string => s);
    [now apply agree_required|].
  intros name w3 _ Hord3.
  apply agree_bind with (f := fun x : unit => x).
  - apply agree_relay; [exact Hord3 | | reflexivity].
    apply (ordinary_parameter connection "id"); cbn; auto.
  - intros _ w4 _ Hord4.
    exact (agree_writeJsonResponse (Connection.response connection) None w4 Hord4).
Qed.

Lemma agree_answerRoute connection w :
  ordinary_request connection -> ordinary_registry (users_ w) ->
  agree_at w (fun x : unit => x) (answerRoute connection)
    (Plain.answerRoute connection).
Proof.
  intros Hreq Hord. unfold answerRoute, Plain.answerRoute.
  apply agree_bind with (f := fun s : string => s);
    [now apply agree_required|].
  intros id w1 Hid Hord1. apply required_inv in Hid. destruct Hid as [Hid _].
  apply agree_bind with (f := fun s : string => s);
    [now apply agree_required|].
  intros answer w2 _ Hord2.
  apply agree_bind with (f := fun s : string => s);
    [now apply agree_required|].
  intros name w3 _ Hord3.
  apply agree_bind with (f := fun x : unit => x).
  - apply agree_relay; [exact Hord3 | | reflexivity].
    apply (ordinary_parameter connection "id"); cbn; auto.
  - intros _ w4 _ Hord4.
    exact (agree_writeJsonResponse (Connection.response connection) None w4 Hord4).
Qed.

Lemma agree_rejectRoute connection w :
  ordinary_request connection -> ordinary_registry (users_ w) ->
  agree_at w (fun x : unit => x) (rejectRoute connection)
    (Plain.rejectRoute connection).
Proof.
  intros Hreq Hord. unfold rejectRoute, Plain.rejectRoute.
  apply agree_bind with (f := fun s : string => s);
    [now apply agree_required|].
  intros id w1 Hid Hord1. apply required_inv in Hid. destruct Hid as [Hid _].
  apply agree_bind with (f := fun s : string => s);
    [now apply agree_required|].
  intros name w3 _ Hord3.
  apply agree_bind with (f := fun x : unit => x).
  - apply agree_relay; [exact Hord3 | | reflexivity].
    apply (ordinary_parameter connection "id"); cbn; auto.
  - intros _ w4 _ Hord4.
    exact (agree_writeJsonResponse (Connection.response connection) None w4 Hord4).
Qed.

Lemma agree_waitRoute connection w :
  ordinary_request connection -> ordinary_registry (users_ w) ->
  agree_at w (fun x : unit => x) (Server.waitRoute connection)
    (Plain.waitRoute connection).
Proof.
  intros Hreq Hord. unfold Server.waitRoute, Plain.waitRoute.
  apply agree_bind with (f := fun s : string => s);
    [now apply agree_required|].
  intros id w1 Hid Hord1. apply required_inv in Hid. destruct Hid as [Hid _].
  assert (Hk : ordinary id = true).
  { apply (ordinary_parameter connection "wait"); cbn; auto. }
  clear w Hord. rename w1 into w, Hord1 into Hord.
  destruct (Obj.get id (users_ w)) as [user|] eqn:Hget.
  - destruct (User.queue user) as [|m q] eqn:Hq.
    + eapply agree_eq.
      * unfold bind at 1. unfold get_users at 1. cbv beta iota.
        rewrite Hget, Hq. reflexivity.
      * unfold Plain.bind at 1. unfold Plain.get_world at 1.
        cbv beta iota zeta. rewrite (lookup_lift _ _ Hk), Hget.
        cbn [Plain.truthy].
        change (Plain.User.queue (lift_user user))
          with (map lift_message (User.queue user)).
        rewrite Hq. cbn [map]. reflexivity.
      * apply agree_bind with (f := fun x : unit => x);
          [now apply agree_release|].
        intros [] w' Hrel Hord'.
        assert (Husers : users_ w' = users_ w).
        { apply (f_equal snd) in Hrel. unfold release in Hrel.
          destruct (User.connection user); cbn in Hrel; now rewrite <- Hrel. }
        rewrite <- Husers. now apply agree_modify.
    + eapply agree_eq.
      * unfold bind at 1. unfold get_users at 1. cbv beta iota.
        rewrite Hget, Hq. reflexivity.
      * unfold Plain.bind at 1. unfold Plain.get_world at 1.
        cbv beta iota zeta. rewrite (lookup_lift _ _ Hk), Hget.
        cbn [Plain.truthy].
        change (Plain.User.queue (lift_user user))
          with (map lift_message (User.queue user)).
        rewrite Hq. cbn [map]. reflexivity.
      * apply agree_bind with (f := fun x : unit => x).
        -- exact (agree_writeJsonResponse (Connection.response connection)
                    (Some (Messages (m :: q))) w Hord).
        -- intros [] w' Hw Hord'. rewrite writeJsonResponse_run in Hw.
           inversion Hw; subst w'.
           now apply (agree_modify id (User.set_queue [])
                        (Plain.User.set_queue []) (mkWorld (users_ w) _)).
  - eapply agree_eq.
    + unfold bind at 1. unfold get_users at 1. cbv beta iota.
      rewrite Hget. reflexivity.
    + unfold Plain.bind at 1. unfold Plain.get_world at 1.
      cbv beta iota zeta. rewrite (lookup_lift _ _ Hk), Hget.
      cbn [Plain.truthy]. reflexivity.
    + exact (agree_throw (fun x : unit => x)
               (errorWithCode 400 "user not found") w Hord).
Qed.

Lemma agree_delete_user id w :
  ordinary_registry (users_ w) ->
  agree_at w (fun x : unit => x) (delete_user id) (Plain.delete_user id).
Proof.
  intros Hord. split; [|now apply ordinary_delete].
  unfold delete_user, Plain.delete_user, bind, get_users, put_users,
    lift_result, lift_world. cbn. now rewrite lift_users_delete.
Qed.

Lemma agree_assign_user id user w :
  ordinary_registry (users_ w) -> ordinary id = true -> User.id user = id ->
  agree_at w (fun x : unit => x) (assign_user id user)
    (Plain.assign_user id (Plain.Full (lift_user user))).
Proof.
  intros Hord Hid Huser. split; [|now apply ordinary_set].
  destruct (ordinary_spec _ Hid) as [Hp _].
  unfold assign_user, Plain.assign_user, bind, get_users, put_users,
    lift_result, lift_world. rewrite Hp. cbn. now rewrite lift_users_set.
Qed.

(** A call that does not throw is the same awaited or not. *)
Lemma agree_detached m pm w :
  agree_at w (fun x : unit => x) m pm ->
  (exists w', m w = (Ok tt, w')) ->
  agree_at w (fun x : unit => x) m (Plain.detached pm).
Proof.
  intros [Hm Hord] [w' Hw]. split; [|exact Hord].
  unfold Plain.detached, Plain.catch. rewrite Hm, Hw. reflexivity.
Qed.

Lemma existsb_keys {V} (f : string -> bool) (g : string * V -> bool)
  (users : Obj.t V) :
  (forall kv, In kv users -> f (fst kv) = g kv) ->
  existsb f (Obj.keys users) = existsb g users.
Proof.
  induction users as [|kv users IH]; intros H; cbn; [reflexivity|].
  rewrite H by now left. f_equal. apply IH. intros; apply H. now right.
Qed.

(** The loop that looks for the name finds it in the same records. *)
Lemma name_check_lift id name w :
  ordinary_registry (users_ w) ->
  existsb (fun user_id =>
             Plain.same_name
               (Plain.name_of (Plain.lookup user_id (lift_world w))) name
             && negb (id =? user_id)) (Plain.for_in (lift_world w)) =
  existsb (fun kv => (User.name (snd kv) =? name) && negb (id =? fst kv))
    (users_ w).
Proof.
  intros Hord. rewrite for_in_lift. apply existsb_keys.
  intros [k u] Hin. cbn [fst snd].
  destruct Hord as [Hnd Hall]. rewrite Forall_forall in Hall.
  destruct (Hall _ Hin) as [Hk _]. cbn in Hk.
  rewrite (lookup_lift _ _ Hk), (In_get _ _ _ Hnd Hin). reflexivity.
Qed.

Lemma ordinary_register_id connection :
  ordinary_request connection -> ordinary (register_id connection) = true.
Proof.
  intros Hreq. unfold register_id.
  destruct (Obj.get "id" (Connection.query connection)) as [id|] eqn:Hid.
  - destruct (Js.truthy id).
    + apply (ordinary_parameter connection "id"); cbn; auto.
    + now destruct Hreq as (_ & H & _).
  - now destruct Hreq as (_ & H & _).
Qed.

Lemma agree_unregisterRoute connection w :
  ordinary_request connection -> ordinary_registry (users_ w) ->
  agree_at w (fun x : unit => x) (Server.unregisterRoute connection)
    (Plain.unregisterRoute connection).
Proof.
  intros Hreq Hord. unfold Server.unregisterRoute, Plain.unregisterRoute.
  apply agree_bind with (f := fun s : string => s);
    [now apply agree_required|].
  intros id w1 Hid Hord1. apply required_inv in Hid. destruct Hid as [Hid _].
  assert (Hk : ordinary id = true).
  { apply (ordinary_parameter connection "unregister"); cbn; auto. }
  clear w Hord. rename w1 into w, Hord1 into Hord.
  assert (Hend : forall w', ordinary_registry (users_ w') ->
    agree_at w' (fun x : unit => x)
      (writeJsonResponse (Connection.response connection) None)
      (Plain.writeJsonResponse (Connection.response connection) None)).
  { intros w' Hord'.
    exact (agree_writeJsonResponse (Connection.response connection) None w' Hord'). }
  destruct (Obj.get id (users_ w)) as [user|] eqn:Hget.
  - eapply agree_eq.
    + unfold bind at 1. unfold get_users at 1. cbv beta iota.
      rewrite Hget. reflexivity.
    + unfold Plain.bind at 1. unfold Plain.get_world at 1.
      cbv beta iota zeta. rewrite (lookup_lift _ _ Hk), Hget.
      cbn [Plain.truthy]. reflexivity.
    + apply agree_bind with (f := fun x : unit => x); [|intros; now apply Hend].
      apply agree_bind with (f := lift_public);
        [now apply agree_generatePublicUser|].
      intros unregister w1 _ Hord1.
      apply agree_bind with (f := fun x : unit => x);
        [now apply agree_delete_user|].
      intros _ w2 _ Hord2.
      apply agree_get_users. cbv beta.
      change (Plain.users_ (lift_world w2)) with (lift_users (users_ w2)).
      rewrite keys_lift_users.
      apply agree_bind with (f := map lift_public).
      { apply agree_generatePublicUsers; [exact Hord2|].
        now apply ordinary_keys. }
      intros all w3 _ Hord3.
      apply agree_bind with (f := fun x : unit => x);
        [now apply agree_release|].
      intros _ w4 _ Hord4.
      exact (agree_sendMessageToAll (UnregisterMsg unregister all) (Some id)
               w4 Hord4).
  - eapply agree_eq.
    + unfold bind at 1. unfold get_users at 1. cbv beta iota.
      rewrite Hget. reflexivity.
    + unfold Plain.bind at 1. unfold Plain.get_world at 1.
      cbv beta iota zeta. rewrite (lookup_lift _ _ Hk), Hget.
      cbn [Plain.truthy]. reflexivity.
    + apply agree_bind with (f := fun x : unit => x); [|intros; now apply Hend].
      exact (agree_ret (fun x : unit => x) tt w Hord).
Qed.

Lemma agree_register_id connection w :
  ordinary_registry (users_ w) ->
  agree_at w (fun s : string => s)
    (match Obj.get "id" (Connection.query connection) with
     | Some id => if Js.truthy id then ret id else uuidv4 connection
     | None => uuidv4 connection
     end)
    (match Obj.get "id" (Connection.query connection) with
     | Some id => if Js.truthy id then Plain.ret id else Plain.uuidv4 connection
     | None => Plain.uuidv4 connection
     end).
Proof.
  intros Hord.
  destruct (Obj.get "id" (Connection.query connection)) as [id|];
    [destruct (Js.truthy id)|]; split; first [reflexivity | exact Hord].
Qed.

Lemma agree_registerRoute connection w :
  ordinary_request connection -> ordinary_registry (users_ w) ->
  agree_at w (fun x : unit => x) (Server.registerRoute connection)
    (Plain.registerRoute connection).
Proof.
  intros Hreq Hord. unfold Server.registerRoute, Plain.registerRoute.
  apply agree_bind with (f := fun s : string => s);
    [now apply agree_required|].
  intros name w1 _ Hord1.
  apply agree_bind with (f := fun s : string => s);
    [now apply agree_register_id|].
  intros id w2 Hid Hord2.
  rewrite RegisterFacts.register_id_run in Hid.
  injection Hid as <- <-.
  pose proof (ordinary_register_id _ Hreq) as Hk.
  clear w Hord. rename w1 into w, Hord1 into Hord. clear Hord2.
  set (id := register_id connection) in *.
  eapply agree_eq.
  { unfold bind at 1. unfold get_users at 1. cbv beta iota zeta. reflexivity. }
  { unfold Plain.bind at 1. unfold Plain.get_world at 1. cbv beta iota zeta.
    rewrite (name_check_lift id name w Hord), (lookup_lift _ _ Hk).
    change (Plain.users_ (lift_world w)) with (lift_users (users_ w)).
    rewrite keys_lift_users. reflexivity. }
  destruct (existsb _ (users_ w)).
  { exact (agree_throw (fun x : unit => x)
             (errorWithCode 400 "user name already in use") w Hord). }
  assert (Hold_name :
    (if Plain.truthy
          match Obj.get id (users_ w) with
          | Some user => Plain.Object (Plain.Full (lift_user user))
          | None => Plain.Undefined
          end
     then Plain.name_of
            match Obj.get id (users_ w) with
            | Some user => Plain.Object (Plain.Full (lift_user user))
            | None => Plain.Undefined
            end
     else None) =
    match Obj.get id (users_ w) with
    | Some user => Some (User.name user)
    | None => None
    end).
  { now destruct (Obj.get id (users_ w)). }
  assert (Hrecord :
    (if Plain.truthy
          match Obj.get id (users_ w) with
          | Some user => Plain.Object (Plain.Full (lift_user user))
          | None => Plain.Undefined
          end
     then Plain.assign
            match Obj.get id (users_ w) with
            | Some user => Plain.Object (Plain.Full (lift_user user))
            | None => Plain.Undefined
            end name (Connection.time connection)
     else Plain.Full
            (Plain.User.mk id name (Connection.time connection) [] None)) =
    Plain.Full (lift_user
      match Obj.get id (users_ w) with
      | Some user => User.assign user name (Connection.time connection)
      | None => User.mk id name (Connection.time connection) [] None
      end)).
  { now destruct (Obj.get id (users_ w)). }
  rewrite Hold_name, Hrecord. clear Hold_name Hrecord.
  assert (Hid : User.id
      match Obj.get id (users_ w) with
      | Some user => User.assign user name (Connection.time connection)
      | None => User.mk id name (Connection.time connection) [] None
      end = id).
  { destruct (Obj.get id (users_ w)) as [u|] eqn:Hget; [|reflexivity].
    now destruct (ordinary_key _ _ _ Hord Hget). }
  set (old_name := match Obj.get id (users_ w) with
                   | Some user => Some (User.name user)
                   | None => None
                   end).
  set (record := match Obj.get id (users_ w) with
                 | Some user => User.assign user name (Connection.time connection)
                 | None => User.mk id name (Connection.time connection) [] None
                 end) in *.
  set (shown := if Js.truthy_opt old_name then old_name else None).
  clearbody old_name record shown.
  apply agree_bind with (f := map lift_public).
  { apply agree_generatePublicUsers; [exact Hord|].
    pose proof (ordinary_keys _ Hord) as Hall.
    rewrite Forall_forall in *. intros k Hin.
    apply filter_In in Hin. now apply Hall. }
  intros others w1 _ Hord1.
  assert (Hsort :
    Plain.sortUsersByName
      (map lift_public others ++ [Plain.mkPublicUser (Some name) shown])
      (lift_world w1) =
    (Plain.Ok (map lift_public
                 (sortUsersByName (others ++ [mkPublicUser name shown]))),
     lift_world w1)).
  { rewrite <- sortUsersByName_lift. now rewrite map_app. }
  eapply agree_eq.
  { reflexivity. }
  { unfold Plain.bind at 1. rewrite Hsort. cbv beta iota. reflexivity. }
  set (publicUsers := sortUsersByName (others ++ [mkPublicUser name shown])).
  apply agree_bind with (f := fun x : unit => x).
  { exact (agree_writeJsonResponse (Connection.response connection)
             (Some (Registered (mkPrivateUser id name shown) publicUsers))
             w1 Hord1). }
  intros _ w2 _ Hord2.
  apply agree_bind with (f := fun x : unit => x).
  { now apply agree_assign_user. }
  intros _ w3 _ Hord3.
  apply agree_when; [exact Hord3|]. intros _.
  apply agree_detached.
  - exact (agree_sendMessageToAll
             (RegisterMsg (mkPublicUser name shown) publicUsers) (Some id)
             w3 Hord3).
  - eexists. apply ServerFacts.sendMessageToAll_spec. now destruct Hord3.
Qed.

Lemma agree_dispatch connection routes proutes :
  Obj.has "hasOwnProperty" (Connection.query connection) = false ->
  Forall2 (fun r pr =>
             fst r = fst pr /\
             forall w, ordinary_registry (users_ w) ->
               agree_at w (fun x : unit => x) (snd r connection)
                 (snd pr connection)) routes proutes ->
  forall w, ordinary_registry (users_ w) ->
    agree_at w (fun x : unit => x) (dispatch routes connection)
      (Plain.dispatch proutes connection).
Proof.
  intros Hown Hroutes.
  induction Hroutes as [|[key route] [pkey proute] routes proutes [Hkey Hroute] _ IH];
    intros w Hord; cbn [dispatch Plain.dispatch].
  - exact (agree_throw (fun x : unit => x)
             (errorWithCode 400 "unknown request parameters") w Hord).
  - cbn [fst snd] in *. subst pkey.
    eapply agree_eq; [reflexivity| |].
    + unfold Plain.bind at 1, Plain.query_hasOwnProperty. rewrite Hown.
      cbv beta iota. unfold Plain.ret at 1. cbv beta iota. reflexivity.
    + destruct (Obj.has key (Connection.query connection)); auto.
Qed.

Lemma agree_rootRoute connection w :
  ordinary_request connection -> ordinary_registry (users_ w) ->
  agree_at w (fun x : unit => x) (Server.rootRoute connection)
    (Plain.rootRoute connection).
Proof.
  intros Hreq Hord. unfold Server.rootRoute, Plain.rootRoute.
  apply agree_dispatch; [now destruct Hreq | | exact Hord].
  unfold Server.dataRoutes_, Plain.dataRoutes_.
  repeat (constructor; [split; [reflexivity|]; cbn [snd]; intros|]);
    [ now apply agree_registerRoute
    | now apply agree_unregisterRoute
    | now apply agree_offerRoute
    | now apply agree_answerRoute
    | now apply agree_rejectRoute
    | now apply agree_waitRoute
    | constructor ].
Qed.

Lemma agree_serverHandler connection w :
  ordinary_request connection -> ordinary_registry (users_ w) ->
  agree_at w (fun x : unit => x) (Server.serverHandler connection)
    (Plain.serverHandler connection).
Proof.
  intros Hreq Hord. unfold Server.serverHandler, handle, Plain.serverHandler.
  apply agree_catch; [now apply agree_rootRoute|].
  intros e w' _ Hord'. split; [|exact Hord'].
  unfold writeErrorResponse, Plain.writeErrorResponse, write, Plain.write,
    lift_result, lift_world, lift_error. cbn. rewrite map_app. cbn.
  destruct (code e) as [c|]; reflexivity.
Qed.

End Agreement.

(** ** The agreement, request after request *)

Lemma serverHandler_answers connection w :
  result (Server.serverHandler connection) w = Ok tt.
Proof.
  unfold result, Server.serverHandler, handle, catch.
  destruct (Server.rootRoute connection w) as [[[]|e] w']; reflexivity.
Qed.

(** On requests whose ids name nothing [users_] inherits and that have no
    parameter named [hasOwnProperty], served from a registry whose keys are
    such ids, [server.js] read with the prototype chain does exactly what
    it does read with own properties only: the same answers, the same
    registry, request after request. *)
Theorem the_two_readings_agree requests : forall w,
  ordinary_registry (users_ w) -> Forall ordinary_request requests ->
  Plain.serve requests (lift_world w)
    = lift_world (serve Server.serverHandler requests w) /\
  ordinary_registry (users_ (serve Server.serverHandler requests w)) /\
  (forall connection,
      ordinary_request connection ->
      Plain.serverHandler connection (lift_world w)
      = (Plain.Ok tt, lift_world (exec (Server.serverHandler connection) w))).
Proof.
  induction requests as [|connection requests IH]; intros w Hord Hreqs.
  - split; [reflexivity|]. split; [exact Hord|].
    intros connection Hreq.
    destruct (Agreement.agree_serverHandler connection w Hreq Hord)
      as [Hrun _].
    rewrite Hrun. unfold lift_result, exec.
    pose proof (serverHandler_answers connection w) as Hok.
    unfold result in Hok. now rewrite Hok.
  - inversion Hreqs as [|? ? Hreq Hrest]; subst.
    destruct (Agreement.agree_serverHandler connection w Hreq Hord)
      as [Hrun Hord'].
    cbn [Plain.serve serve fold_left].
    assert (Hstep : Plain.exec (Plain.serverHandler connection) (lift_world w)
                    = lift_world (exec (Server.serverHandler connection) w)).
    { unfold Plain.exec, exec. now rewrite Hrun. }
    rewrite Hstep.
    destruct (IH (exec (Server.serverHandler connection) w) Hord' Hrest)
      as (Hserve & Hkept & _).
    split; [exact Hserve|]. split; [exact Hkept|].
    intros connection' Hreq'.
    destruct (Agreement.agree_serverHandler connection' w Hreq' Hord)
      as [Hrun' _].
    rewrite Hrun'. unfold lift_result, exec.
    pose proof (serverHandler_answers connection' w) as Hok.
    unfold result in Hok. now rewrite Hok.
Qed.

(** * What the registry of [Plain] keeps *)

Module Kept.

Lemma keeps_ret {A} (a : A) : keeps (Plain.ret a).
Proof. now intros w H. Qed.

Lemma keeps_throw {A} e : keeps (@Plain.throw A e).
Proof. now intros w H. Qed.

Lemma keeps_bind {A B} (m : Plain.M A) (k : A -> Plain.M B) :
  keeps m -> (forall a, keeps (k a)) -> keeps (Plain.bind m k).
Proof.
  intros Hm Hk w Hw. unfold Plain.bind. specialize (Hm w Hw).
  destruct (m w) as [[a|e] w']; cbn in *; [now apply Hk | exact Hm].
Qed.

Lemma keeps_catch {A} (m : Plain.M A) h :
  keeps m -> (forall e, keeps (h e)) -> keeps (Plain.catch m h).
Proof.
  intros Hm Hh w Hw. unfold Plain.catch. specialize (Hm w Hw).
  destruct (m w) as [[a|e] w']; cbn in *; [exact Hm | now apply Hh].
Qed.

Lemma keeps_get_world : keeps Plain.get_world.
Proof. now intros w H. Qed.

Lemma keeps_write response r : keeps (Plain.write response r).
Proof. now intros w H. Qed.

Lemma keeps_modify_user id f :
  (forall user, Plain.User.id (f user) = Plain.User.id user /\
                Plain.User.name (f user) = Plain.User.name user) ->
  keeps (Plain.modify_user id f).
Proof.
  intros Hf w (Hnd & Hproto & Hall).
  unfold well_kept, Plain.modify_user. cbn [snd Plain.users_].
  split; [|split].
  - now rewrite keys_modify.
  - destruct (String.eqb_spec id "__proto__") as [->|Hne].
    + now rewrite get_modify_same, Hproto.
    + now rewrite get_modify_other by congruence.
  - clear Hnd Hproto.
    induction (Plain.users_ w) as [|[k r] users IH]; cbn; [constructor|].
    inversion Hall as [|? ? Hhd Htl]; subst.
    destruct (k =? id); constructor; auto.
    destruct r as [u|n t]; [|exact Hhd].
    destruct Hhd as [H1 H2]. destruct (Hf u) as [Hi Hn].
    unfold kept in *. cbn [fst snd Plain.on_full Plain.record_name] in *.
    rewrite Hi, Hn. now split.
Qed.

Lemma keeps_delete_user id : keeps (Plain.delete_user id).
Proof.
  intros w (Hnd & Hproto & Hall).
  unfold well_kept, Plain.delete_user. cbn [snd Plain.users_].
  split; [|split].
  - now apply NoDup_keys_delete.
  - destruct (String.eqb_spec id "__proto__") as [->|Hne].
    + apply get_delete_same. exact Hnd.
    + now rewrite get_delete_other by congruence.
  - rewrite Forall_forall in *. intros kv Hin. apply Hall.
    eapply In_delete; eauto.
Qed.

Lemma keeps_when b m : keeps m -> keeps (Plain.when b m).
Proof. intros H. destruct b; [exact H | apply keeps_ret]. Qed.

Lemma keeps_mapM {A B} (f : A -> Plain.M B) l :
  (forall a, keeps (f a)) -> keeps (Plain.mapM f l).
Proof.
  intros Hf. induction l as [|a l IH]; cbn; [apply keeps_ret|].
  apply keeps_bind; [apply Hf|]. intros b.
  apply keeps_bind; [exact IH|]. intros bs. apply keeps_ret.
Qed.

Lemma keeps_forEach {A} (body : A -> Plain.M bool) l :
  (forall a, keeps (body a)) -> keeps (Plain.forEach l body).
Proof.
  intros Hf. induction l as [|a l IH]; cbn; [apply keeps_ret|].
  apply keeps_bind; [apply Hf|]. intros [|]; [exact IH | apply keeps_ret].
Qed.

(** With these hints [eauto with keeps] follows the shape of the code. *)
#[local] Hint Resolve keeps_ret keeps_throw keeps_get_world keeps_write
  keeps_delete_user keeps_bind keeps_catch keeps_when keeps_mapM
  keeps_forEach : keeps.
#[local] Hint Extern 1 (keeps (Plain.modify_user _ _)) =>
  apply keeps_modify_user; intros ?; split; reflexivity : keeps.
#[local] Hint Extern 2 (keeps (if ?b then _ else _)) => destruct b : keeps.
#[local] Hint Extern 2 (keeps (match ?x with _ => _ end)) => destruct x : keeps.
#[local] Hint Extern 3 (keeps _) => progress cbv zeta : keeps.

Lemma keeps_writeJsonResponse response obj :
  keeps (Plain.writeJsonResponse response obj).
Proof. unfold Plain.writeJsonResponse. auto with keeps. Qed.

Lemma keeps_generatePublicUser user_id :
  keeps (Plain.generatePublicUser user_id).
Proof. unfold Plain.generatePublicUser. eauto 10 with keeps nocore. Qed.

#[local] Hint Resolve keeps_writeJsonResponse keeps_generatePublicUser : keeps.

Lemma keeps_generatePublicUsers user_ids :
  keeps (Plain.generatePublicUsers user_ids).
Proof. unfold Plain.generatePublicUsers. auto with keeps. Qed.

Lemma keeps_sortUsersByName users : keeps (Plain.sortUsersByName users).
Proof. unfold Plain.sortUsersByName. eauto 10 with keeps nocore. Qed.

Lemma keeps_sendMessage user_id data : keeps (Plain.sendMessage user_id data).
Proof.
  unfold Plain.sendMessage, Plain.enqueueMessage, Plain.sendQueue.
  eauto 20 with keeps nocore.
Qed.

#[local] Hint Resolve keeps_generatePublicUsers keeps_sortUsersByName
  keeps_sendMessage : keeps.

Lemma keeps_sendMessageToAll data exclude :
  keeps (Plain.sendMessageToAll data exclude).
Proof.
  unfold Plain.sendMessageToAll, Plain.hasOwnProperty.
  eauto 20 with keeps nocore.
Qed.

Lemma keeps_required v msg : keeps (Plain.required v msg).
Proof. unfold Plain.required. eauto 10 with keeps nocore. Qed.

Lemma keeps_release user : keeps (Plain.release user).
Proof. unfold Plain.release. eauto 10 with keeps nocore. Qed.

Lemma keeps_relay id name payload : keeps (Plain.relay id name payload).
Proof.
  unfold Plain.relay, Plain.findUserByName. eauto 20 with keeps nocore.
Qed.

#[local] Hint Resolve keeps_sendMessageToAll keeps_required keeps_release
  keeps_relay : keeps.

Lemma keeps_offerRoute connection : keeps (Plain.offerRoute connection).
Proof. unfold Plain.offerRoute. eauto 20 with keeps nocore. Qed.

Lemma keeps_answerRoute connection : keeps (Plain.answerRoute connection).
Proof. unfold Plain.answerRoute. eauto 20 with keeps nocore. Qed.

Lemma keeps_rejectRoute connection : keeps (Plain.rejectRoute connection).
Proof. unfold Plain.rejectRoute. eauto 20 with keeps nocore. Qed.

Lemma keeps_waitRoute connection : keeps (Plain.waitRoute connection).
Proof. unfold Plain.waitRoute. eauto 30 with keeps nocore. Qed.

Lemma keeps_unregisterRoute connection : keeps (Plain.unregisterRoute connection).
Proof. unfold Plain.unregisterRoute. eauto 30 with keeps nocore. Qed.

Lemma Forall_set_any {V} (P : string * V -> Prop) k v (o : Obj.t V) :
  Forall P o -> P (k, v) -> Forall P (Obj.set k v o).
Proof.
  intros HP Hv. destruct (Obj.get k o) as [v0|] eqn:E.
  - rewrite (set_present _ _ _ _ E). clear E.
    induction o as [|[k' v'] o IH]; cbn; [constructor|].
    inversion HP as [|? ? Hhd Htl]; subst.
    destruct (String.eqb_spec k' k) as [->|Hne]; constructor; auto.
  - destruct (set_fresh_split k v o E) as (o1 & o2 & E1 & ->). subst o.
    apply Forall_app in HP. destruct HP as [H1 H2].
    apply Forall_app. split; [assumption | now constructor].
Qed.

Lemma keeps_assign_user id r :
  (id <> "__proto__" -> kept (id, r)) -> keeps (Plain.assign_user id r).
Proof.
  intros Hr w (Hnd & Hproto & Hall). unfold well_kept, Plain.assign_user.
  destruct (String.eqb_spec id "__proto__") as [->|Hne];
    cbn [snd Plain.users_]; [now repeat split|].
  split; [|split].
  - now apply NoDup_keys_set.
  - now rewrite get_set_other.
  - apply Forall_set_any; auto.
Qed.

Lemma get_kept k r w :
  well_kept w -> Obj.get k (Plain.users_ w) = Some r -> kept (k, r).
Proof.
  intros (_ & _ & Hall) Hget. rewrite Forall_forall in Hall.
  apply Hall. now apply get_In.
Qed.

(** The record [registerRoute] stores is one the registry may hold. *)
Lemma kept_registered id name time w :
  well_kept w -> name <> EmptyString -> id <> "__proto__" ->
  kept (id,
        if Plain.truthy (Plain.lookup id w)
        then Plain.assign (Plain.lookup id w) name time
        else Plain.Full (Plain.User.mk id name time [] None)).
Proof.
  intros Hw Hname Hid. unfold Plain.lookup.
  destruct (String.eqb_spec id "__proto__") as [|_]; [contradiction|].
  destruct (Obj.get id (Plain.users_ w)) as [[u|n t]|] eqn:Hget.
  - destruct (get_kept _ _ _ Hw Hget) as [Hi _]. now split.
  - destruct (get_kept _ _ _ Hw Hget) as [Hi _]. now split.
  - assert (Hproto : forall v,
              v = Plain.Object_prototype id ->
              kept (id, if Plain.truthy v then Plain.assign v name time
                        else Plain.Full (Plain.User.mk id name time [] None))).
    { intros v ->. unfold Plain.Object_prototype.
      destruct (id =? "constructor") eqn:Hc.
      - split; [|exact Hname]. cbn. unfold shadowing, Plain.inherited,
          Plain.lookup. cbn.
        destruct (String.eqb_spec id "__proto__"); [contradiction|].
        unfold Plain.Object_prototype. now rewrite Hc.
      - destruct (existsb (String.eqb id) Plain.methods) eqn:Hm.
        + split; [|exact Hname]. cbn. unfold shadowing, Plain.inherited,
            Plain.lookup. cbn.
          destruct (String.eqb_spec id "__proto__"); [contradiction|].
          unfold Plain.Object_prototype. now rewrite Hc, Hm.
        + now split. }
    destruct (Plain.prototype w) as [[n t]|]; [|now apply Hproto].
    destruct (id =? "name") eqn:Hn.
    + cbn [Plain.truthy Plain.assign].
      destruct (Js.truthy n); split; try exact Hname; cbn; auto.
      unfold shadowing. rewrite Hn. now rewrite orb_true_r.
    + destruct (id =? "time") eqn:Ht; [|now apply Hproto].
      cbn [Plain.truthy Plain.assign].
      destruct (negb (t =? 0)%Z); split; try exact Hname; cbn; auto.
      unfold shadowing. rewrite Ht. now rewrite orb_true_r.
Qed.

Lemma keeps_at {A} (m : Plain.M A) w :
  keeps m -> well_kept w -> well_kept (snd (m w)).
Proof. intros H. apply H. Qed.

Lemma keeps_required_bind {B} v msg (k : string -> Plain.M B) :
  (forall s, s <> EmptyString -> keeps (k s)) ->
  keeps (Plain.bind (Plain.required v msg) k).
Proof.
  intros Hk w Hw. unfold Plain.bind, Plain.required.
  destruct v as [s|]; [|exact Hw].
  destruct (Js.truthy s) eqn:Hs; [|exact Hw].
  apply Hk; [|exact Hw]. intros ->. discriminate.
Qed.

Lemma keeps_registerRoute connection : keeps (Plain.registerRoute connection).
Proof.
  unfold Plain.registerRoute. apply keeps_required_bind. intros name Hname.
  apply keeps_bind.
  { unfold Plain.uuidv4. auto with keeps. }
  intros id w Hw. unfold Plain.bind at 1. unfold Plain.get_world at 1.
  cbv beta iota zeta.
  destruct (existsb _ (Plain.for_in w)); [exact Hw|].
  assert (Hstore :
    keeps (Plain.assign_user id
             (if Plain.truthy (Plain.lookup id w)
              then Plain.assign (Plain.lookup id w) name
                     (Connection.time connection)
              else Plain.Full
                     (Plain.User.mk id name (Connection.time connection)
                        [] None)))).
  { apply keeps_assign_user. intros Hid. now apply kept_registered. }
  apply keeps_at; [|exact Hw].
  unfold Plain.detached.
  eauto 30 with keeps nocore.
Qed.

Lemma keeps_dispatch routes connection :
  Forall (fun r => keeps (snd r connection)) routes ->
  keeps (Plain.dispatch routes connection).
Proof.
  induction 1 as [|[key route] routes Hroute _ IH]; cbn [Plain.dispatch];
    [apply keeps_throw|].
  cbn [snd] in Hroute.
  unfold Plain.query_hasOwnProperty. eauto 20 with keeps nocore.
Qed.

Lemma keeps_serverHandler connection : keeps (Plain.serverHandler connection).
Proof.
  unfold Plain.serverHandler, Plain.writeErrorResponse.
  apply keeps_catch; [|intros e; apply keeps_write].
  apply keeps_dispatch. unfold Plain.dataRoutes_.
  repeat (apply Forall_cons; [cbn [snd]|]);
    [ apply keeps_registerRoute | apply keeps_unregisterRoute
    | apply keeps_offerRoute | apply keeps_answerRoute
    | apply keeps_rejectRoute | apply keeps_waitRoute | apply Forall_nil ].
Qed.

Lemma reachable_well_kept w : Plain.reachable w -> well_kept w.
Proof.
  induction 1 as [|w connection _ IH].
  - repeat split; constructor.
  - now apply keeps_serverHandler.
Qed.

End Kept.

(** * The registry of [server.js] between two requests *)

(** Whatever the requests were, no two records share a key, every record
    has a name, a record that has an id is stored under that id, and a
    record without one (a copy of something that was not a record) sits
    under a key that names an inherited property; [__proto__] is never an
    own key. *)
Theorem records_are_filed_under_their_id w :
  Plain.reachable w ->
  NoDup (Obj.keys (Plain.users_ w)) /\
  Obj.get "__proto__" (Plain.users_ w) = None /\
  (forall id record,
      Obj.get id (Plain.users_ w) = Some record ->
      Plain.record_name record <> EmptyString /\
      match record with
      | Plain.Full user => Plain.User.id user = id
      | Plain.Bare _ _ => shadowing id = true
      end) /\
  (forall id record,
      In (id, record) (Plain.users_ w) ->
      Obj.get id (Plain.users_ w) = Some record).
Proof.
  intros Hreach.
  destruct (Kept.reachable_well_kept w Hreach) as (Hnd & Hproto & Hall).
  split; [exact Hnd|]. split; [exact Hproto|]. split.
  - intros id record Hget. apply get_In in Hget.
    rewrite Forall_forall in Hall. destruct (Hall _ Hget) as [Hid Hname].
    split; [exact Hname | exact Hid].
  - intros id record Hin. now apply In_get.
Qed.

(** * [server.js] on ids and parameters that name inherited properties *)

Lemma has_In_keys {V} k (o : Obj.t V) : Obj.has k o = true <-> In k (Obj.keys o).
Proof.
  unfold Obj.has. rewrite get_In_keys.
  destruct (Obj.get k o); split; intros H; congruence.
Qed.

Lemma has_not_In_keys {V} k (o : Obj.t V) :
  Obj.has k o = false <-> ~ In k (Obj.keys o).
Proof.
  rewrite <- has_In_keys. destruct (Obj.has k o); split; intros H; congruence.
Qed.

Lemma plain_dispatch_crashes key route routes connection w :
  Obj.has "hasOwnProperty" (Connection.query connection) = true ->
  Plain.dispatch ((key, route) :: routes) connection w
  = (Plain.Thrown Plain.TypeError, w).
Proof.
  intros H. cbn [Plain.dispatch].
  unfold Plain.bind, Plain.query_hasOwnProperty. now rewrite H.
Qed.

Lemma plain_dispatch_step key route routes connection w :
  Obj.has "hasOwnProperty" (Connection.query connection) = false ->
  Plain.dispatch ((key, route) :: routes) connection w =
  if Obj.has key (Connection.query connection) then route connection w
  else Plain.dispatch routes connection w.
Proof.
  intros H. cbn [Plain.dispatch].
  unfold Plain.bind, Plain.query_hasOwnProperty. rewrite H. cbn.
  now destruct (Obj.has key (Connection.query connection)).
Qed.

Lemma plain_dispatch_finds connection w key route after : forall before,
  Obj.has "hasOwnProperty" (Connection.query connection) = false ->
  In key (Obj.keys (Connection.query connection)) ->
  (forall k, In k (map fst before) ->
             ~ In k (Obj.keys (Connection.query connection))) ->
  Plain.dispatch (before ++ (key, route) :: after) connection w
  = route connection w.
Proof.
  induction before as [|[k r] before IH]; intros Hown Hkey Hbefore; cbn [app].
  - rewrite plain_dispatch_step by assumption.
    apply has_In_keys in Hkey. now rewrite Hkey.
  - rewrite plain_dispatch_step by assumption.
    assert (Hk : Obj.has k (Connection.query connection) = false).
    { apply has_not_In_keys. apply Hbefore. now left. }
    rewrite Hk. apply IH; auto. intros k' Hin. apply Hbefore. now right.
Qed.

Lemma plain_dispatch_none connection w : forall routes,
  Obj.has "hasOwnProperty" (Connection.query connection) = false ->
  (forall k, In k (map fst routes) ->
             ~ In k (Obj.keys (Connection.query connection))) ->
  Plain.dispatch routes connection w
  = (Plain.Thrown (Plain.errorWithCode 400 "unknown request parameters"), w).
Proof.
  induction routes as [|[k r] routes IH]; intros Hown Hnone; [reflexivity|].
  rewrite plain_dispatch_step by assumption.
  assert (Hk : Obj.has k (Connection.query connection) = false).
  { apply has_not_In_keys. apply Hnone. now left. }
  rewrite Hk. apply IH; auto. intros k' Hin. apply Hnone. now right.
Qed.

(** The root route runs the first operation of [dataRoutes_] whose key is
    a parameter of the request, and answers 400 when there is none, unless
    one parameter is named [hasOwnProperty]: then the test of the first
    key is a [TypeError], no operation runs and the answer is a 500,
    whatever else the request asks for. *)
Theorem rootRoute_runs_the_first_operation connection w :
  let parameters := Obj.keys (Connection.query connection) in
  (In "hasOwnProperty" parameters ->
   Plain.rootRoute connection w = (Plain.Thrown Plain.TypeError, w) /\
   Plain.serverHandler connection w =
   (Plain.Ok tt,
    Plain.mkWorld (Plain.users_ w) (Plain.prototype w)
      (Plain.written w
       ++ [(Connection.response connection, Plain.ServerError)]))) /\
  (~ In "hasOwnProperty" parameters ->
   (forall before key route after,
      Plain.dataRoutes_ = before ++ (key, route) :: after ->
      In key parameters ->
      (forall k, In k (map fst before) -> ~ In k parameters) ->
      Plain.rootRoute connection w = route connection w) /\
   ((forall k, In k (map fst Plain.dataRoutes_) -> ~ In k parameters) ->
    Plain.serverHandler connection w =
    (Plain.Ok tt,
     Plain.mkWorld (Plain.users_ w) (Plain.prototype w)
       (Plain.written w
        ++ [(Connection.response connection,
             Plain.Failure 400 "unknown request parameters")])))).
Proof.
  intros parameters. subst parameters. split.
  - intros Hown. apply has_In_keys in Hown.
    assert (Hroot : Plain.rootRoute connection w
                    = (Plain.Thrown Plain.TypeError, w)).
    { unfold Plain.rootRoute, Plain.dataRoutes_.
      now apply plain_dispatch_crashes. }
    split; [exact Hroot|].
    unfold Plain.serverHandler, Plain.catch. now rewrite Hroot.
  - intros Hown. apply has_not_In_keys in Hown. split.
    + intros before key route after Hroutes Hkey Hbefore.
      unfold Plain.rootRoute. rewrite Hroutes.
      now apply plain_dispatch_finds.
    + intros Hnone.
      unfold Plain.serverHandler, Plain.catch, Plain.rootRoute.
      now rewrite plain_dispatch_none.
Qed.

(** [generatePublicUsers] reads only: it answers the [{ name }] of what
    [users_] has under the ids, in the order given, and fails with 400
    "user not found" as soon as [users_] has nothing under one of them.
    Under an id such as [constructor] it has something, a function, and
    the name answered is the name of that function. *)
Theorem generatePublicUsers_all_or_nothing user_ids w :
  Plain.generatePublicUsers user_ids w =
  if forallb (fun user_id => Plain.truthy (Plain.lookup user_id w)) user_ids
  then (Plain.Ok
          (map (fun user_id =>
                  Plain.mkPublicUser
                    (Plain.name_of (Plain.lookup user_id w)) None)
             user_ids), w)
  else (Plain.Thrown (Plain.errorWithCode 400 "user not found"), w).
Proof.
  unfold Plain.generatePublicUsers.
  induction user_ids as [|user_id user_ids IH]; [reflexivity|].
  cbn [Plain.mapM forallb map].
  unfold Plain.bind at 1. unfold Plain.generatePublicUser at 1.
  unfold Plain.bind at 1. unfold Plain.get_world at 1. cbv beta iota zeta.
  destruct (Plain.truthy (Plain.lookup user_id w)); [|reflexivity].
  cbn [andb]. unfold Plain.ret at 1. cbv beta iota.
  unfold Plain.bind at 1. rewrite IH.
  now destruct (forallb _ user_ids).
Qed.

Example generatePublicUsers_constructor :
  Plain.generatePublicUsers ["u2"; "constructor"] plain_alice_and_bob =
  (Plain.Ok [Plain.mkPublicUser (Some "bob") None;
             Plain.mkPublicUser (Some "Object") None], plain_alice_and_bob).
Proof. reflexivity. Qed.

(** An id that names a property of [Object.prototype] and is not
    registered: [users_[id]] is that property. *)
Lemma lookup_inherited id w :
  Plain.inherited id = true -> Obj.get id (Plain.users_ w) = None ->
  Plain.truthy (Plain.lookup id w) = true /\
  forall user, Plain.lookup id w <> Plain.Object (Plain.Full user).
Proof.
  unfold Plain.inherited, Plain.lookup. cbn [Plain.prototype Plain.users_
    Plain.empty_world Obj.get]. intros Hin Hget. rewrite Hget.
  destruct (id =? "__proto__").
  - destruct (Plain.prototype w) as [[n t]|]; split; try reflexivity;
      discriminate.
  - unfold Plain.Object_prototype in *.
    assert (Hname : (id =? "name") = false).
    { destruct (String.eqb_spec id "name") as [->|]; [discriminate|reflexivity]. }
    assert (Htime : (id =? "time") = false).
    { destruct (String.eqb_spec id "time") as [->|]; [discriminate|reflexivity]. }
    rewrite Hname, Htime.
    destruct (id =? "constructor").
    + destruct (Plain.prototype w) as [[n t]|]; split; try reflexivity;
        discriminate.
    + destruct (existsb (String.eqb id) Plain.methods); [|discriminate].
      destruct (Plain.prototype w) as [[n t]|]; split; try reflexivity;
        discriminate.
Qed.

(** [unregister] and [wait] ask for an id first: without the parameter, or
    with an empty one, they answer 400 "user id required" and do nothing.
    When [users_] has nothing under the id, [wait] answers 400 "user not
    found" and [unregister] an empty success. When the id is not
    registered but names a property of [Object.prototype], [wait] finds
    that property, fails on its missing queue and is answered 500. *)
Theorem unregister_and_wait_need_an_id connection w :
  let query := Connection.query connection in
  let answered r :=
    (Plain.Ok tt,
     Plain.mkWorld (Plain.users_ w) (Plain.prototype w)
       (Plain.written w ++ [(Connection.response connection, r)])) in
  (Js.truthy_opt (Obj.get "unregister" query) = false ->
   Plain.unregisterRoute connection w =
   (Plain.Thrown (Plain.errorWithCode 400 "user id required"), w)) /\
  (Js.truthy_opt (Obj.get "wait" query) = false ->
   Plain.waitRoute connection w =
   (Plain.Thrown (Plain.errorWithCode 400 "user id required"), w)) /\
  (forall id,
      id <> EmptyString -> Plain.lookup id w = Plain.Undefined ->
      (Obj.get "wait" query = Some id ->
       Plain.waitRoute connection w =
       (Plain.Thrown (Plain.errorWithCode 400 "user not found"), w)) /\
      (Obj.get "unregister" query = Some id ->
       Plain.unregisterRoute connection w = answered Plain.Empty)) /\
  (forall id,
      Plain.inherited id = true -> Obj.get id (Plain.users_ w) = None ->
      Obj.get "wait" query = Some id ->
      Plain.waitRoute connection w = (Plain.Thrown Plain.TypeError, w) /\
      (~ In "hasOwnProperty" (Obj.keys query) ->
       (forall key, In key ["register"; "unregister"; "offer"; "answer";
                            "reject"] -> ~ In key (Obj.keys query)) ->
       Plain.serverHandler connection w = answered Plain.ServerError)).
Proof.
  intros query answered. subst query answered.
  assert (Hmissing : forall v msg,
            Js.truthy_opt v = false ->
            Plain.required v msg w
            = (Plain.Thrown (Plain.errorWithCode 400 msg), w)).
  { intros v msg. unfold Plain.required, Js.truthy_opt.
    destruct v as [s|]; [|reflexivity]. now intros ->. }
  assert (Hgiven : forall v id msg,
            v = Some id -> id <> EmptyString ->
            Plain.required v msg w = (Plain.Ok id, w)).
  { intros v id msg -> Hid. unfold Plain.required, Js.truthy.
    destruct (String.eqb_spec id EmptyString); [contradiction | reflexivity]. }
  split; [|split; [|split]].
  - intros H. unfold Plain.unregisterRoute, Plain.bind.
    now rewrite (Hmissing _ _ H).
  - intros H. unfold Plain.waitRoute, Plain.bind.
    now rewrite (Hmissing _ _ H).
  - intros id Hid Hnone. split; intros Hq.
    + unfold Plain.waitRoute. unfold Plain.bind at 1.
      rewrite (Hgiven _ _ _ Hq Hid). unfold Plain.bind, Plain.get_world.
      now rewrite Hnone.
    + unfold Plain.unregisterRoute. unfold Plain.bind at 1.
      rewrite (Hgiven _ _ _ Hq Hid). unfold Plain.bind at 1.
      unfold Plain.bind at 1. unfold Plain.get_world at 1.
      cbv beta iota zeta. rewrite Hnone. reflexivity.
  - intros id Hin Hget Hq.
    assert (Hid : id <> EmptyString) by (intros ->; discriminate).
    destruct (lookup_inherited id w Hin Hget) as [Htruthy Hfull].
    assert (Hwait : Plain.waitRoute connection w
                    = (Plain.Thrown Plain.TypeError, w)).
    { unfold Plain.waitRoute. unfold Plain.bind at 1.
      rewrite (Hgiven _ _ _ Hq Hid). unfold Plain.bind, Plain.get_world.
      rewrite Htruthy.
      destruct (Plain.lookup id w) as [|[user|n t]| | | |];
        try reflexivity. now destruct (Hfull user). }
    split; [exact Hwait|]. intros Hown Hnone.
    unfold Plain.serverHandler, Plain.catch.
    assert (Hroot : Plain.rootRoute connection w
                    = Plain.waitRoute connection w).
    { apply has_not_In_keys in Hown.
      unfold Plain.rootRoute, Plain.dataRoutes_.
      apply (plain_dispatch_finds connection w "wait" Plain.waitRoute []
               [ ("register", Plain.registerRoute);
                 ("unregister", Plain.unregisterRoute);
                 ("offer", Plain.offerRoute);
                 ("answer", Plain.answerRoute);
                 ("reject", Plain.rejectRoute) ]); [exact Hown | |].
      - apply get_In_keys. congruence.
      - intros k Hk. apply Hnone. cbn in Hk. cbn. tauto. }
    now rewrite Hroot, Hwait.
Qed.

(** C8: [unregister=constructor], an id nobody registered, is not a no-op.
    [users_['constructor']] is the function [Object], which the route
    takes for a user: every registered user is sent [{ unregister:
    { name: 'Object' }, users }]. For the unknown id [u9] the same request
    does nothing but answer. *)
Theorem unregister_announces_an_inherited_property :
  let w := plain_alice_and_bob in
  let w' := Plain.exec (Plain.serverHandler constructor_leaves) w in
  let answered :=
    Plain.mkWorld (Plain.users_ w) (Plain.prototype w)
      (Plain.written w ++ [(3%nat, Plain.Empty)]) in
  Obj.keys (Plain.users_ w) = ["u1"; "u2"] /\
  Plain.lookup "constructor" w = Plain.Fn "Object" /\
  Plain.result (Plain.serverHandler constructor_leaves) w = Plain.Ok tt /\
  Plain.written w' = Plain.written w ++ [(3%nat, Plain.Empty)] /\
  Obj.keys (Plain.users_ w') = ["u1"; "u2"] /\
  plain_queue "u1" w'
    = option_map (fun queue => queue ++ [object_left]) (plain_queue "u1" w) /\
  plain_queue "u2" w'
    = option_map (fun queue => queue ++ [object_left]) (plain_queue "u2" w) /\
  w' <> answered /\
  Plain.exec (Plain.serverHandler nobody_known_leaves) w = answered.
Proof.
  cbv zeta. repeat split; try (vm_compute; reflexivity).
  intros H. apply (f_equal (plain_queue "u2")) in H.
  vm_compute in H. discriminate H.
Qed.

(** C9: a request with a parameter named [hasOwnProperty] runs no
    operation at all: [connection.query.hasOwnProperty] is that parameter,
    a string, the call is a [TypeError] and the answer a 500. With
    [register=carol] beside it nobody is registered; alone it is not
    answered 400 "unknown request parameters" as another unknown parameter
    is. *)
Theorem a_parameter_named_hasOwnProperty_stops_the_request :
  let w := plain_alice_and_bob in
  let answered r :=
    (Plain.Ok tt,
     Plain.mkWorld (Plain.users_ w) (Plain.prototype w)
       (Plain.written w ++ [(3%nat, r)])) in
  Plain.serverHandler carol_joins_oddly w = answered Plain.ServerError /\
  Plain.serverHandler odd_request w = answered Plain.ServerError /\
  Plain.serverHandler unknown_request w
    = answered (Plain.Failure 400 "unknown request parameters") /\
  Obj.keys (Plain.users_ (Plain.exec (Plain.serverHandler carol_joins) w))
    = ["u1"; "u2"; "u3"] /\
  Plain.serverHandler carol_joins_and_waits w
    = Plain.serverHandler carol_joins w.
Proof. cbv zeta. repeat split; vm_compute; reflexivity. Qed.

(** * The further theorems at concrete requests *)

Lemma alice_and_bob_reachable : Server.reachable alice_and_bob.
Proof. repeat apply Server.reachable_serve. apply Server.reachable_start. Qed.

Lemma alice_and_bob_well_formed : well_formed (users_ alice_and_bob).
Proof. apply Outcomes.reachable_well_formed, alice_and_bob_reachable. Qed.



Lemma signalling_routes_deliver_witness :
  well_formed (users_ alice_and_bob) /\
  queue_of "u2" (exec (offerRoute alice_offers) alice_and_bob)
    = Some [an_offer] /\
  written (exec (offerRoute alice_offers) alice_and_bob)
    = written alice_and_bob ++ [(3%nat, Empty)].
Proof.
  assert (Hne : "u1" <> EmptyString) by discriminate.
  assert (Hoffer : "sdp" <> EmptyString) by discriminate.
  destruct (signalling_routes_deliver alice_offers "u1"
              (User.mk "u1" "alice" 1
                 [RegisterMsg (mkPublicUser "bob" None)
                    [mkPublicUser "alice" None; mkPublicUser "bob" None]] None)
              "u2" (User.mk "u2" "bob" 2 [] None) alice_and_bob
              alice_and_bob_well_formed eq_refl Hne eq_refl eq_refl)
    as [Hsent _].
  specialize (Hsent "sdp" eq_refl Hoffer eq_refl). cbn beta in Hsent.
  split; [exact alice_and_bob_well_formed|].
  unfold exec. rewrite Hsent. split; reflexivity.
Defined.


Lemma register_needs_a_name_witness :
  Server.registerRoute blank_joins alice_and_bob =
  (Thrown (errorWithCode 400 "user name required"), alice_and_bob).
Proof. apply (register_needs_a_name blank_joins alice_and_bob). reflexivity. Defined.

Lemma register_answer_lists_the_registry_witness :
  well_formed (users_ alice_and_bob) /\
  exists old_name listing rest,
    written (exec (Server.registerRoute alice_renames) alice_and_bob) =
      written alice_and_bob
      ++ (3%nat, Registered (mkPrivateUser "u1" "alicia" old_name) listing)
      :: rest /\
    name_of "u1" (exec (Server.registerRoute alice_renames) alice_and_bob)
      = Some "alicia" /\
    Permutation (map pub_name listing)
      (names (users_ (exec (Server.registerRoute alice_renames) alice_and_bob))) /\
    NoDup (map pub_name listing).
Proof.
  split; [exact alice_and_bob_well_formed|].
  assert (Hne : "alicia" <> EmptyString) by discriminate.
  exact (register_answer_lists_the_registry alice_renames "alicia" alice_and_bob
           eq_refl alice_and_bob_well_formed eq_refl Hne eq_refl).
Defined.




Lemma versions_agree_on_unregister_witness :
  NoDup (Obj.keys (users_ alice_and_bob)) /\
  IntercomServer.unregisterRoute bob_leaves alice_and_bob
  = Server.unregisterRoute bob_leaves alice_and_bob.
Proof.
  assert (Hnd : NoDup (Obj.keys (users_ alice_and_bob))) by distinct.
  split; [exact Hnd|].
  apply (versions_agree_on_unregister bob_leaves alice_and_bob Hnd).
Defined.


Lemma query_prefers_the_url_witness :
  exists connection,
    Http.createConnectionObject parse_examples 5 "u5" root_post 5
    = inr connection /\
    Obj.get "wait" (Connection.query connection) = Some "u1" /\
    Obj.get "id" (Connection.query connection) = Some "u7".
Proof.
  assert (Hpost : NoDup (Obj.keys [("wait", "u2"); ("id", "u7")])) by distinct.
  assert (Hget : NoDup (Obj.keys (Http.get root_post))) by distinct.
  destruct (query_prefers_the_url parse_examples 5 "u5" root_post 5
              [("wait", "u2"); ("id", "u7")] eq_refl Hpost Hget)
    as (connection & Hc & _ & _ & _ & _ & Hquery).
  exists connection. split; [exact Hc|].
  split; (rewrite Hquery; [reflexivity | discriminate]).
Defined.


Lemma oversized_body_is_refused_witness :
  Http.serverHandler parse_examples no_page no_page no_page no_page
    5 "u5" long_post 5 alice_and_bob
  = (Ok tt, mkWorld (users_ alice_and_bob)
              (written alice_and_bob
               ++ [(5%nat, Failure 413 "Request Entity Too Large")])).
Proof.
  apply oversized_body_is_refused; [reflexivity | |].
  - apply Forall_forall. intros chunk Hin.
    apply repeat_spec in Hin. subst chunk. vm_compute. reflexivity.
  - vm_compute. reflexivity.
Defined.

Lemma parsePostQuery_limit_witness :
  Http.parsePostQuery parse_examples root_post =
  inr [("wait", "u2"); ("id", "u7")] /\
  Http.parsePostQuery parse_examples long_post =
  inl (errorWithCode 413 "Request Entity Too Large").
Proof.
  split.
  - rewrite (parsePostQuery_limit parse_examples root_post).
    + reflexivity.
    + repeat constructor.
  - rewrite (parsePostQuery_limit parse_examples long_post).
    + vm_compute. reflexivity.
    + apply Forall_forall. intros chunk Hin.
      apply repeat_spec in Hin. subst chunk. vm_compute. reflexivity.
Defined.

Lemma generated_ids_keep_arrival_order_witness :
  NoDup (Obj.keys (users_ alice_and_bob)) /\
  uuidv4_string counting = "01234567-89ab-4cde-b012-3456789abcde" /\
  Obj.keys (users_ (exec (Server.registerRoute eve_joins) alice_and_bob))
  = Obj.keys (users_ alice_and_bob)
    ++ ["01234567-89ab-4cde-b012-3456789abcde"].
Proof.
  assert (Hnd : NoDup (Obj.keys (users_ alice_and_bob))) by distinct.
  assert (Hne : "eve" <> EmptyString) by discriminate.
  assert (Hunused : ~ In "eve" (names (users_ alice_and_bob))).
  { intros Hin. vm_compute in Hin. intuition discriminate. }
  assert (Hid : uuidv4_string counting = "01234567-89ab-4cde-b012-3456789abcde")
    by (vm_compute; reflexivity).
  assert (Hname : register_name eve_joins = Some "eve")
    by (vm_compute; reflexivity).
  assert (Hnoid : Js.truthy_opt (Obj.get "id" (Connection.query eve_joins))
                  = false) by (vm_compute; reflexivity).
  assert (Hfresh : Obj.get (uuidv4_string counting) (users_ alice_and_bob)
                   = None) by (vm_compute; reflexivity).
  assert (Huuid : Connection.uuid eve_joins = uuidv4_string counting)
    by reflexivity.
  pose proof (generated_ids_keep_arrival_order eve_joins "eve" counting
                alice_and_bob Hnd Hname Hne Hnoid Huuid Hfresh Hunused) as H.
  cbv zeta in H. destruct H as (_ & Hkeys & _).
  split; [exact Hnd|]. split; [exact Hid|].
  rewrite Hkeys, Hid. reflexivity.
Defined.



Lemma wait_supersedes_witness :
  Server.waitRoute (alice_waits 5) alice_parked =
  (Ok tt,
   mkWorld
     (Obj.modify "u1" (User.set_connection (Some (alice_waits 5)))
        (users_ alice_parked))
     (written alice_parked ++ [(4%nat, Empty)])).
Proof.
  assert (Hne : "u1" <> EmptyString) by discriminate.
  exact (ServerGuarantees.wait_supersedes (alice_waits 5) "u1"
           (User.mk "u1" "alice" 1 [] (Some (alice_waits 4))) (alice_waits 4)
           alice_parked eq_refl Hne eq_refl eq_refl eq_refl).
Defined.

Lemma names_unique_witness :
  Server.reachable alice_parked /\ NoDup (names (users_ alice_parked)).
Proof.
  assert (Hreach : Server.reachable alice_parked).
  { repeat apply Server.reachable_serve. apply Server.reachable_start. }
  split; [exact Hreach|].
  exact (ServerGuarantees.names_unique alice_parked Hreach).
Defined.


Lemma records_are_filed_under_their_id_witness :
  let w := Plain.serve [alice_joins; eve_joins_as_constructor]
             Plain.empty_world in
  Plain.reachable w /\
  Obj.get "u1" (Plain.users_ w)
    = Some (Plain.Full
              (Plain.User.mk "u1" "alice" 1
                 [Plain.RegisterMsg
                    (Plain.mkPublicUser (Some "eve") (Some "Object"))
                    [Plain.mkPublicUser (Some "alice") None;
                     Plain.mkPublicUser (Some "eve") (Some "Object")]] None)) /\
  Obj.get "constructor" (Plain.users_ w) = Some (Plain.Bare "eve" 2) /\
  shadowing "constructor" = true.
Proof.
  intros w.
  assert (Hreach : Plain.reachable w).
  { exact (Plain.reachable_serve _ eve_joins_as_constructor
             (Plain.reachable_serve _ alice_joins Plain.reachable_start)). }
  assert (Hget : Obj.get "constructor" (Plain.users_ w)
                 = Some (Plain.Bare "eve" 2)) by (vm_compute; reflexivity).
  destruct (records_are_filed_under_their_id w Hreach) as (_ & _ & Hrec & _).
  split; [exact Hreach|]. split; [vm_compute; reflexivity|].
  split; [exact Hget|].
  exact (proj2 (Hrec "constructor" _ Hget)).
Defined.

Lemma the_two_readings_agree_witness :
  Forall ordinary_request [alice_joins; bob_joins; alice_waits 3; bob_leaves] /\
  plain_alice_and_bob = lift_world alice_and_bob /\
  Plain.serve [alice_joins; bob_joins; alice_waits 3; bob_leaves]
    Plain.empty_world
  = lift_world
      (serve Server.serverHandler
         [alice_joins; bob_joins; alice_waits 3; bob_leaves] empty_world).
Proof.
  assert (Hempty : ordinary_registry (users_ empty_world)).
  { split; constructor. }
  assert (Hreqs : Forall ordinary_request
                    [alice_joins; bob_joins; alice_waits 3; bob_leaves]).
  { repeat constructor. }
  assert (Hfirst : Forall ordinary_request [alice_joins; bob_joins]).
  { repeat constructor. }
  split; [exact Hreqs|]. split.
  - exact (proj1 (the_two_readings_agree _ empty_world Hempty Hfirst)).
  - exact (proj1 (the_two_readings_agree _ empty_world Hempty Hreqs)).
Defined.

Lemma rootRoute_runs_the_first_operation_witness :
  let w := plain_alice_and_bob in
  Plain.rootRoute odd_request w = (Plain.Thrown Plain.TypeError, w) /\
  Plain.rootRoute carol_joins_and_waits w
    = Plain.registerRoute carol_joins_and_waits w /\
  Plain.serverHandler unknown_request w =
  (Plain.Ok tt,
   Plain.mkWorld (Plain.users_ w) (Plain.prototype w)
     (Plain.written w
      ++ [(3%nat, Plain.Failure 400 "unknown request parameters")])).
Proof.
  intros w.
  destruct (rootRoute_runs_the_first_operation odd_request w) as [Hodd _].
  destruct (rootRoute_runs_the_first_operation carol_joins_and_waits w)
    as [_ Hfirst].
  destruct (rootRoute_runs_the_first_operation unknown_request w)
    as [_ Hnone].
  split; [|split].
  - apply Hodd. cbn. tauto.
  - assert (Hown : ~ In "hasOwnProperty"
                     (Obj.keys (Connection.query carol_joins_and_waits))).
    { cbn. intros [H|[H|[]]]; discriminate H. }
    destruct (Hfirst Hown) as [Hruns _].
    apply (Hruns [] "register" Plain.registerRoute
             [ ("unregister", Plain.unregisterRoute);
               ("offer", Plain.offerRoute);
               ("answer", Plain.answerRoute);
               ("reject", Plain.rejectRoute);
               ("wait", Plain.waitRoute) ]).
    + reflexivity.
    + cbn. tauto.
    + intros k [].
  - assert (Hown : ~ In "hasOwnProperty"
                     (Obj.keys (Connection.query unknown_request))).
    { cbn. intros [H|[]]; discriminate H. }
    destruct (Hnone Hown) as [_ Hanswer].
    apply Hanswer. intros k Hk [H|[]]. subst k.
    cbn in Hk. repeat (destruct Hk as [Hk|Hk]; [discriminate Hk|]).
    exact Hk.
Defined.

Lemma unregister_and_wait_need_an_id_witness :
  let w := plain_alice_and_bob in
  let answered r :=
    (Plain.Ok tt,
     Plain.mkWorld (Plain.users_ w) (Plain.prototype w)
       (Plain.written w ++ [(3%nat, r)])) in
  Plain.unregisterRoute nobody_leaves w
    = (Plain.Thrown (Plain.errorWithCode 400 "user id required"), w) /\
  Plain.unregisterRoute nobody_known_leaves w = answered Plain.Empty /\
  Plain.waitRoute toString_waits w = (Plain.Thrown Plain.TypeError, w) /\
  Plain.serverHandler toString_waits w = answered Plain.ServerError.
Proof.
  intros w answered.
  destruct (unregister_and_wait_need_an_id nobody_leaves w) as [Hleave _].
  destruct (unregister_and_wait_need_an_id nobody_known_leaves w)
    as (_ & _ & Hunknown & _).
  destruct (unregister_and_wait_need_an_id toString_waits w)
    as (_ & _ & _ & Hinherited).
  assert (Hu9 : "u9" <> EmptyString) by discriminate.
  destruct (Hunknown "u9" Hu9 eq_refl) as [_ Hgone].
  destruct (Hinherited "toString" eq_refl eq_refl eq_refl) as [Hwait Hanswer].
  split; [apply Hleave; reflexivity|].
  split; [apply Hgone; reflexivity|].
  split; [exact Hwait|].
  apply Hanswer.
  - cbn. intros [H|[]]; discriminate H.
  - intros key Hkey [H|[]]. subst key.
    cbn in Hkey. repeat (destruct Hkey as [Hkey|Hkey]; [discriminate Hkey|]).
    exact Hkey.
Defined.
